(** * PPDO budget/project tracking core: a shallow embedding

    The development follows the Convex back end of the repository:

    - [convex/lib/projectAggregation.ts]  (recalculateProjectMetrics),
    - [convex/lib/aggregationUtils.ts]    (calculateAggregation),
    - [convex/lib/projectActivityLogger.ts] (logProjectActivity),
    - [convex/govtProjects.ts]            (the breakdown mutations),
    - [convex/schema/*.ts]                (table validators).

    JavaScript values are embedded as the inductive type [JsValue]; documents
    are insertion-ordered association lists, as JS objects are; the record
    store is an explicit state threaded through a small exception/state
    monad.  Finite IEEE doubles are idealised as rationals ([Q]). *)

From Stdlib Require Import List String Ascii Bool Arith ZArith QArith Qminmax Lia.
From Stdlib Require Import DecimalString DecimalNat Finite.
Import ListNotations.

Set Warnings "-register-all".
Local Close Scope Q_scope.
Local Open Scope string_scope.
Local Open Scope list_scope.

(** String concatenation, kept apart from list append. *)
Infix "+++" := String.append (right associativity, at level 60).

(* ------------------------------------------------------------------ *)
(** ** Tables and document identifiers *)

Inductive Table : Type :=
| T_users
| T_projects
| T_govtProjectBreakdowns
| T_aggregations
| T_projectActivities
| T_govtProjectActivities.

Definition Table_eqb (a b : Table) : bool :=
  match a, b with
  | T_users, T_users
  | T_projects, T_projects
  | T_govtProjectBreakdowns, T_govtProjectBreakdowns
  | T_aggregations, T_aggregations
  | T_projectActivities, T_projectActivities
  | T_govtProjectActivities, T_govtProjectActivities => true
  | _, _ => false
  end.

Definition table_name (t : Table) : string :=
  match t with
  | T_users => "users"
  | T_projects => "projects"
  | T_govtProjectBreakdowns => "govtProjectBreakdowns"
  | T_aggregations => "aggregations"
  | T_projectActivities => "projectActivities"
  | T_govtProjectActivities => "govtProjectActivities"
  end.

(** [Id<"table">]: at run time an opaque string that encodes its table. *)
Record Id : Type := mkId { id_table : Table; id_num : nat }.

Definition Id_eqb (a b : Id) : bool :=
  Table_eqb (id_table a) (id_table b) && Nat.eqb (id_num a) (id_num b).

(* ------------------------------------------------------------------ *)
(** ** JavaScript values *)

Inductive JsValue : Type :=
| JUndefined
| JNull
| JBool (b : bool)
| JNum (q : Q)
| JStr (s : string)
| JId (i : Id)
| JArr (elems : list JsValue)
| JObj (props : list (string * JsValue)).

(** A JS object: own enumerable string-keyed properties in insertion order. *)
Definition Obj : Type := list (string * JsValue).

(** ToBoolean, as used by [if (x)], [x || y], [x ? a : b]. *)
Definition truthy (v : JsValue) : bool :=
  match v with
  | JUndefined | JNull => false
  | JBool b => b
  | JNum q => negb (Qeq_bool q 0%Q)
  | JStr s => negb (String.eqb s "")
  | JId _ | JArr _ | JObj _ => true
  end.

(** [a || b] *)
Definition js_or (a b : JsValue) : JsValue := if truthy a then a else b.


(** [a === b] on primitives; two object or array values met in this code are
    never the same reference, so the comparison is [false] for them. *)
Definition strict_eqb (a b : JsValue) : bool :=
  match a, b with
  | JUndefined, JUndefined => true
  | JNull, JNull => true
  | JBool x, JBool y => Bool.eqb x y
  | JNum x, JNum y => Qeq_bool x y
  | JStr x, JStr y => String.eqb x y
  | JId x, JId y => Id_eqb x y
  | _, _ => false
  end.

(** *** Property access *)

Fixpoint obj_get (k : string) (o : Obj) : JsValue :=
  match o with
  | [] => JUndefined
  | (k', v) :: rest => if String.eqb k k' then v else obj_get k rest
  end.

Definition obj_has (k : string) (o : Obj) : bool :=
  existsb (fun kv => String.eqb k (fst kv)) o.

(** [o[k] = v] *)
Fixpoint obj_set (k : string) (v : JsValue) (o : Obj) : Obj :=
  match o with
  | [] => [(k, v)]
  | (k', v') :: rest =>
      if String.eqb k k' then (k', v) :: rest else (k', v') :: obj_set k v rest
  end.

(** [delete o[k]], also the rest pattern [{k, ...rest} = o]. *)
Definition obj_remove (k : string) (o : Obj) : Obj :=
  filter (fun kv => negb (String.eqb k (fst kv))) o.

(** [Object.keys(o)] *)
Definition object_keys (o : Obj) : list string := map fst o.

(** [{...a, ...b}]: properties of [b] are assigned over those of [a]. *)
Definition obj_spread (a b : Obj) : Obj :=
  fold_left (fun acc kv => obj_set (fst kv) (snd kv) acc) b a.


(* ------------------------------------------------------------------ *)
(** ** JSON.stringify *)

Definition dquote : string := String (ascii_of_nat 34) EmptyString.
Definition backslash : string := String (ascii_of_nat 92) EmptyString.

Definition hex_digit (n : nat) : string :=
  match n with
  | 0 => "0" | 1 => "1" | 2 => "2" | 3 => "3" | 4 => "4" | 5 => "5"
  | 6 => "6" | 7 => "7" | 8 => "8" | 9 => "9" | 10 => "a" | 11 => "b"
  | 12 => "c" | 13 => "d" | 14 => "e" | _ => "f"
  end.

Definition json_escape_char (c : ascii) : string :=
  let n := nat_of_ascii c in
  if Nat.eqb n 34 then backslash +++ dquote
  else if Nat.eqb n 92 then backslash +++ backslash
  else if Nat.eqb n 8 then backslash +++ "b"
  else if Nat.eqb n 9 then backslash +++ "t"
  else if Nat.eqb n 10 then backslash +++ "n"
  else if Nat.eqb n 12 then backslash +++ "f"
  else if Nat.eqb n 13 then backslash +++ "r"
  else if Nat.ltb n 32
       then backslash +++ "u00" +++ hex_digit (n / 16) +++ hex_digit (n mod 16)
  else String c EmptyString.

Fixpoint json_escape (s : string) : string :=
  match s with
  | EmptyString => EmptyString
  | String c rest => json_escape_char c +++ json_escape rest
  end.

Definition json_quote (s : string) : string :=
  dquote +++ json_escape s +++ dquote.

Definition nat_to_string (n : nat) : string :=
  NilZero.string_of_uint (Nat.to_uint n).

Definition Z_to_string (z : Z) : string :=
  NilZero.string_of_int (Z.to_int z).

(** Number-to-text.  The printer is canonical: two rationals print alike
    exactly when they are the same number, which is the property of the
    double printer that the diff below relies upon. *)
Definition number_to_string (q : Q) : string :=
  let r := Qred q in
  match Qden r with
  | xH => Z_to_string (Qnum r)
  | d => Z_to_string (Qnum r) +++ "/" +++ Z_to_string (Zpos d)
  end.

Definition id_to_string (i : Id) : string :=
  table_name (id_table i) +++ ":" +++ nat_to_string (id_num i).

Fixpoint join (sep : string) (l : list string) : string :=
  match l with
  | [] => EmptyString
  | [x] => x
  | x :: rest => x +++ sep +++ join sep rest
  end.

(** [JSON.stringify v]: [None] stands for the result [undefined].  Inside an
    array [undefined] is written [null]; inside an object a property whose
    value is [undefined] is left out. *)
Fixpoint stringify (v : JsValue) : option string :=
  match v with
  | JUndefined => None
  | JNull => Some "null"
  | JBool true => Some "true"
  | JBool false => Some "false"
  | JNum q => Some (number_to_string q)
  | JStr s => Some (json_quote s)
  | JId i => Some (json_quote (id_to_string i))
  | JArr elems =>
      Some ("[" +++ join ","
              (map (fun e => match stringify e with
                             | Some s => s
                             | None => "null"
                             end) elems) +++ "]")
  | JObj props =>
      Some ("{" +++ join ","
              (flat_map (fun kv => match stringify (snd kv) with
                                   | Some s => [json_quote (fst kv) +++ ":" +++ s]
                                   | None => []
                                   end) props) +++ "}")
  end.


(** [JSON.stringify a !== JSON.stringify b] *)
Definition option_string_eqb (a b : option string) : bool :=
  match a, b with
  | None, None => true
  | Some x, Some y => String.eqb x y
  | _, _ => false
  end.

Definition serialized_differ (a b : JsValue) : bool :=
  negb (option_string_eqb (stringify a) (stringify b)).

(* ------------------------------------------------------------------ *)
(** ** Equality of stored values (the store's [q.eq]) *)

Fixpoint value_eqb (a b : JsValue) : bool :=
  match a, b with
  | JUndefined, JUndefined => true
  | JNull, JNull => true
  | JBool x, JBool y => Bool.eqb x y
  | JNum x, JNum y => Qeq_bool x y
  | JStr x, JStr y => String.eqb x y
  | JId x, JId y => Id_eqb x y
  | JArr xs, JArr ys =>
      (fix go (l r : list JsValue) {struct l} : bool :=
         match l, r with
         | [], [] => true
         | x :: l', y :: r' => value_eqb x y && go l' r'
         | _, _ => false
         end) xs ys
  | JObj ps, JObj qs =>
      (fix go (l r : list (string * JsValue)) {struct l} : bool :=
         match l, r with
         | [], [] => true
         | (k, x) :: l', (k', y) :: r' =>
             String.eqb k k' && value_eqb x y && go l' r'
         | _, _ => false
         end) ps qs
  | _, _ => false
  end.

(* ------------------------------------------------------------------ *)
(** ** The record store *)

Inductive WriteOp : Type :=
| W_insert (i : Id)
| W_patch (i : Id)
| W_delete (i : Id).

Record DB : Type := mkDB {
  db_users : list Obj;
  db_projects : list Obj;
  db_govtProjectBreakdowns : list Obj;
  db_aggregations : list Obj;
  db_projectActivities : list Obj;
  db_govtProjectActivities : list Obj;
  db_next : nat;                 (* next fresh document number *)
  db_journal : list WriteOp      (* every write issued so far, oldest first *)
}.

Definition table_of (t : Table) (db : DB) : list Obj :=
  match t with
  | T_users => db_users db
  | T_projects => db_projects db
  | T_govtProjectBreakdowns => db_govtProjectBreakdowns db
  | T_aggregations => db_aggregations db
  | T_projectActivities => db_projectActivities db
  | T_govtProjectActivities => db_govtProjectActivities db
  end.

Definition with_table (t : Table) (rows : list Obj) (db : DB) : DB :=
  match t with
  | T_users =>
      mkDB rows (db_projects db) (db_govtProjectBreakdowns db)
        (db_aggregations db) (db_projectActivities db)
        (db_govtProjectActivities db) (db_next db) (db_journal db)
  | T_projects =>
      mkDB (db_users db) rows (db_govtProjectBreakdowns db)
        (db_aggregations db) (db_projectActivities db)
        (db_govtProjectActivities db) (db_next db) (db_journal db)
  | T_govtProjectBreakdowns =>
      mkDB (db_users db) (db_projects db) rows
        (db_aggregations db) (db_projectActivities db)
        (db_govtProjectActivities db) (db_next db) (db_journal db)
  | T_aggregations =>
      mkDB (db_users db) (db_projects db) (db_govtProjectBreakdowns db)
        rows (db_projectActivities db)
        (db_govtProjectActivities db) (db_next db) (db_journal db)
  | T_projectActivities =>
      mkDB (db_users db) (db_projects db) (db_govtProjectBreakdowns db)
        (db_aggregations db) rows
        (db_govtProjectActivities db) (db_next db) (db_journal db)
  | T_govtProjectActivities =>
      mkDB (db_users db) (db_projects db) (db_govtProjectBreakdowns db)
        (db_aggregations db) (db_projectActivities db)
        rows (db_next db) (db_journal db)
  end.

Definition journal_add (w : WriteOp) (db : DB) : DB :=
  mkDB (db_users db) (db_projects db) (db_govtProjectBreakdowns db)
    (db_aggregations db) (db_projectActivities db)
    (db_govtProjectActivities db) (db_next db) (db_journal db ++ [w]).

Definition bump_next (db : DB) : DB :=
  mkDB (db_users db) (db_projects db) (db_govtProjectBreakdowns db)
    (db_aggregations db) (db_projectActivities db)
    (db_govtProjectActivities db) (S (db_next db)) (db_journal db).


(** *** Documents *)

Definition has_id (i : Id) (d : Obj) : bool :=
  strict_eqb (obj_get "_id" d) (JId i).

Definition find_doc (i : Id) (rows : list Obj) : option Obj :=
  find (has_id i) rows.

(** A field set to [undefined] is a field left out. *)
Definition strip_undefined (o : Obj) : Obj :=
  filter (fun kv => match snd kv with JUndefined => false | _ => true end) o.

(** [patch]: shallow merge; patching a field with [undefined] removes it. *)
Definition apply_patch (fields doc : Obj) : Obj :=
  fold_left
    (fun d kv =>
       match snd kv with
       | JUndefined => obj_remove (fst kv) d
       | v => obj_set (fst kv) v d
       end) fields doc.

Fixpoint patch_rows (i : Id) (fields : Obj) (rows : list Obj)
  : option (list Obj) :=
  match rows with
  | [] => None
  | d :: rest =>
      if has_id i d then Some (apply_patch fields d :: rest)
      else match patch_rows i fields rest with
           | Some rest' => Some (d :: rest')
           | None => None
           end
  end.

Fixpoint delete_rows (i : Id) (rows : list Obj) : option (list Obj) :=
  match rows with
  | [] => None
  | d :: rest =>
      if has_id i d then Some rest
      else match delete_rows i rest with
           | Some rest' => Some (d :: rest')
           | None => None
           end
  end.

(* ------------------------------------------------------------------ *)
(** ** Exceptions, the call context and the handler monad *)

Inductive StoreOp : Type :=
| Op_get (t : Table)
| Op_insert (t : Table)
| Op_patch (t : Table)
| Op_delete (t : Table)
| Op_query (t : Table).

Inductive Exn : Type :=
| JsError (message : string)          (* [throw new Error(message)] *)
| StoreFailure (op : StoreOp)         (* an infrastructure failure of the store *)
| ArgumentValidationError.            (* arguments rejected by the validators *)

(** What a handler receives besides its arguments: the authenticated
    principal, the clock (frozen for the duration of one mutation) and the
    store operations that the infrastructure fails in this call. *)
Record Ctx : Type := mkCtx {
  ctx_auth : option Id;
  ctx_now : Q;
  ctx_fault : StoreOp -> bool
}.

Inductive Completion (A : Type) : Type :=
| Normal (a : A)
| Throw (e : Exn).
Arguments Normal {A} a.
Arguments Throw {A} e.

Definition M (A : Type) : Type := DB -> Completion A * DB.

Definition ret {A} (a : A) : M A := fun db => (Normal a, db).

Definition throw {A} (e : Exn) : M A := fun db => (Throw e, db).

Definition bind {A B} (m : M A) (k : A -> M B) : M B :=
  fun db =>
    match m db with
    | (Normal a, db') => k a db'
    | (Throw e, db') => (Throw e, db')
    end.

(** [try { m } catch (e) { h e }] *)
Definition try_catch {A} (m : M A) (h : Exn -> M A) : M A :=
  fun db =>
    match m db with
    | (Normal a, db') => (Normal a, db')
    | (Throw e, db') => h e db'
    end.

Notation "x <- m ;; k" := (bind m (fun x => k))
  (at level 61, m at next level, right associativity).
Notation "' pat <- m ;; k" :=
  (bind m (fun x => match x with pat => k end))
  (at level 61, pat pattern, m at next level, right associativity).
Notation "m ;;; k" := (bind m (fun _ => k))
  (at level 61, right associativity).

(** [for (const x of xs) { body x }] threading the loop's local variables. *)
Fixpoint for_of {A S} (xs : list A) (body : S -> A -> M S) (s : S) : M S :=
  match xs with
  | [] => ret s
  | x :: rest => s' <- body s x ;; for_of rest body s'
  end.

(** [for (const x of xs) { body x }] with no local state. *)
Fixpoint for_each {A} (xs : list A) (body : A -> M unit) : M unit :=
  match xs with
  | [] => ret tt
  | x :: rest => body x ;;; for_each rest body
  end.

(** *** Store primitives *)

Definition guard_fault (ctx : Ctx) (op : StoreOp) : M unit :=
  if ctx_fault ctx op then throw (StoreFailure op) else ret tt.

(** [ctx.db.get(id)] *)
Definition db_get (ctx : Ctx) (i : Id) : M (option Obj) :=
  guard_fault ctx (Op_get (id_table i)) ;;;
  fun db => (Normal (find_doc i (table_of (id_table i) db)), db).

(** [ctx.db.insert(table, fields)] *)
Definition db_insert (ctx : Ctx) (t : Table) (fields : Obj) : M Id :=
  guard_fault ctx (Op_insert t) ;;;
  fun db =>
    let i := mkId t (db_next db) in
    let doc := ("_id", JId i) :: ("_creationTime", JNum (ctx_now ctx))
                 :: strip_undefined fields in
    (Normal i,
     journal_add (W_insert i)
       (bump_next (with_table t (table_of t db ++ [doc]) db))).

(** [ctx.db.patch(id, fields)] *)
Definition db_patch (ctx : Ctx) (i : Id) (fields : Obj) : M unit :=
  guard_fault ctx (Op_patch (id_table i)) ;;;
  fun db =>
    match patch_rows i fields (table_of (id_table i) db) with
    | Some rows =>
        (Normal tt, journal_add (W_patch i) (with_table (id_table i) rows db))
    | None => (Throw (JsError "Update on nonexistent document"), db)
    end.

(** [ctx.db.delete(id)] *)
Definition db_delete (ctx : Ctx) (i : Id) : M unit :=
  guard_fault ctx (Op_delete (id_table i)) ;;;
  fun db =>
    match delete_rows i (table_of (id_table i) db) with
    | Some rows =>
        (Normal tt, journal_add (W_delete i) (with_table (id_table i) rows db))
    | None => (Throw (JsError "Delete on nonexistent document"), db)
    end.

(** [ctx.db.query(table).withIndex(name, q => q.eq(f1, v1).eq(f2, v2)...)
       .filter(pred).collect()]: the rows come in index order, which for
    rows equal on every indexed field is creation order. *)
Definition db_query (ctx : Ctx) (t : Table) (index_eq : list (string * JsValue))
    (pred : Obj -> bool) : M (list Obj) :=
  guard_fault ctx (Op_query t) ;;;
  fun db =>
    (Normal
       (filter pred
          (filter
             (fun d => forallb (fun fv => value_eqb (obj_get (fst fv) d) (snd fv))
                         index_eq)
             (table_of t db))),
     db).

(* ------------------------------------------------------------------ *)
(** ** convex/lib/projectAggregation.ts *)

(** A counter as the store holds it. *)
Definition js_nat (n : nat) : JsValue := JNum (inject_Z (Z.of_nat n)).

(** The reducer's accumulator [{ completed, delayed, onTrack }]. *)
Record StatusCounts : Type := mkCounts {
  completed : nat;
  delayed : nat;
  onTrack : nat
}.

(** The value returned: [{ breakdownsCount, ...aggregated }]. *)
Record RecalcResult : Type := mkRecalc {
  breakdownsCount : nat;
  aggregated : StatusCounts
}.

(** The reducer of lines 45-57: an [if / else if] chain with no final
    [else], so a status that is none of the three changes nothing. *)
Definition count_status (acc : StatusCounts) (breakdown : Obj) : StatusCounts :=
  let status := obj_get "status" breakdown in
  if strict_eqb status (JStr "completed") then
    mkCounts (S (completed acc)) (delayed acc) (onTrack acc)
  else if strict_eqb status (JStr "delayed") then
    mkCounts (completed acc) (S (delayed acc)) (onTrack acc)
  else if strict_eqb status (JStr "ongoing") then
    mkCounts (completed acc) (delayed acc) (S (onTrack acc))
  else acc.

Definition recalculateProjectMetrics (ctx : Ctx) (projectId userId : Id)
  : M RecalcResult :=
  breakdowns <- db_query ctx T_govtProjectBreakdowns
                  [("projectId", JId projectId)] (fun _ => true) ;;
  if Nat.eqb (List.length breakdowns) 0 then
    db_patch ctx projectId
      [("projectCompleted", js_nat 0);
       ("projectDelayed", js_nat 0);
       ("projectsOnTrack", js_nat 0);
       ("updatedAt", JNum (ctx_now ctx));
       ("updatedBy", JId userId)] ;;;
    ret (mkRecalc 0 (mkCounts 0 0 0))
  else
    let aggregated := fold_left count_status breakdowns (mkCounts 0 0 0) in
    db_patch ctx projectId
      [("projectCompleted", js_nat (completed aggregated));
       ("projectDelayed", js_nat (delayed aggregated));
       ("projectsOnTrack", js_nat (onTrack aggregated));
       ("updatedAt", JNum (ctx_now ctx));
       ("updatedBy", JId userId)] ;;;
    ret (mkRecalc (List.length breakdowns) aggregated).

Definition recalculateMultipleProjects (ctx : Ctx) (projectIds : list Id)
    (userId : Id) : M (list (Id * RecalcResult)) :=
  for_of projectIds
    (fun results projectId =>
       result <- recalculateProjectMetrics ctx projectId userId ;;
       ret (results ++ [(projectId, result)]))
    [].

(** A breakdown's status is one of the three that the service counts. *)
Definition recognized_status (v : JsValue) : bool :=
  strict_eqb v (JStr "completed")
  || strict_eqb v (JStr "delayed")
  || strict_eqb v (JStr "ongoing").

(** The children of a parent: the rows whose [projectId] is the parent's. *)
Definition child_of (projectId : Id) (breakdown : Obj) : bool :=
  value_eqb (obj_get "projectId" breakdown) (JId projectId).

(* ------------------------------------------------------------------ *)
(** ** convex/lib/projectActivityLogger.ts *)

(** [new Set(xs)] and [set.add(x)]: insertion order, no repetition. *)
Definition set_add {A} (eqb : A -> A -> bool) (x : A) (s : list A) : list A :=
  if existsb (eqb x) s then s else s ++ [x].

Definition set_of_list {A} (eqb : A -> A -> bool) (xs : list A) : list A :=
  fold_left (fun s x => set_add eqb x s) xs [].

(** [xs.includes(x)] on an array of strings. *)
Definition includes (xs : list string) (x : string) : bool :=
  existsb (String.eqb x) xs.

Inductive ProjectAction : Type :=
| A_created
| A_updated
| A_deleted
| A_restored.

Definition action_name (a : ProjectAction) : string :=
  match a with
  | A_created => "created"
  | A_updated => "updated"
  | A_deleted => "deleted"
  | A_restored => "restored"
  end.

(** [interface ProjectLogConfig]; an optional member is [None] when left
    out.  The snapshots are documents. *)
Record ProjectLogConfig : Type := mkProjectLogConfig {
  action : ProjectAction;
  cfg_projectId : option Id;
  project : option Obj;
  previousValues : option Obj;
  newValues : option Obj;
  reason : option string
}.

(** The fields the diff of [logProjectActivity] skips (line 48). *)
Definition projectSystemFields : list string :=
  ["_id"; "_creationTime"; "updatedAt"; "updatedBy"; "createdAt"; "createdBy"].


(** The diff loop shared by the loggers (lines 41-58):
    [for (const key of allKeys) { if (skip.includes(key)) continue; ... }]. *)
Definition diff_changed_fields (skip : list string) (prev new : Obj)
  : list string :=
  let allKeys := set_of_list String.eqb (object_keys prev ++ object_keys new) in
  fold_left
    (fun changedFields key =>
       if includes skip key then changedFields
       else
         let pVal := obj_get key prev in
         let nVal := obj_get key new in
         if serialized_differ pVal nVal then changedFields ++ [key]
         else changedFields)
    allKeys [].

(** "Build Smart Summaries" (lines 60-81). *)
Definition project_change_summary (changedFields : list string)
    (prev new : Obj) : Obj :=
  let s0 : Obj := [] in
  let s1 :=
    if includes changedFields "totalBudgetAllocated" then
      obj_set "newBudget" (obj_get "totalBudgetAllocated" new)
        (obj_set "oldBudget" (obj_get "totalBudgetAllocated" prev)
           (obj_set "budgetChanged" (JBool true) s0))
    else s0 in
  let s2 :=
    if includes changedFields "targetDateCompletion"
    then obj_set "scheduleChanged" (JBool true) s1 else s1 in
  let s3 :=
    if includes changedFields "projectManagerId"
    then obj_set "managerChanged" (JBool true) s2 else s2 in
  let s4 :=
    if includes changedFields "status"
    then obj_set "statusChanged" (JBool true) s3 else s3 in
  if includes changedFields "categoryId"
  then obj_set "categoryChanged" (JBool true) s4 else s4.

(** Lines 37-82: [changedFields] and [changeSummary] as they stand when the
    record is built. *)
Definition project_diff (config : ProjectLogConfig) : list string * Obj :=
  match action config, previousValues config, newValues config with
  | A_updated, Some prev, Some new =>
      let changedFields := diff_changed_fields projectSystemFields prev new in
      (changedFields, project_change_summary changedFields prev new)
  | _, _, _ => ([], [])
  end.

Definition opt_value {A} (f : A -> JsValue) (o : option A) : JsValue :=
  match o with Some a => f a | None => JUndefined end.

(** [JSON.stringify(v)] as a stored value. *)
Definition stringify_value (v : JsValue) : JsValue :=
  opt_value JStr (stringify v).

(** The record handed to [ctx.db.insert("projectActivities", ...)]. *)
Definition project_activity_record (ctx : Ctx) (userId : Id) (user : Obj)
    (config : ProjectLogConfig) : Obj :=
  let projectData : Obj :=
    match project config, newValues config, previousValues config with
    | Some p, _, _ => p
    | None, Some n, _ => n
    | None, None, Some p => p
    | None, None, None => []
    end in
  let '(changedFields, changeSummary) := project_diff config in
  [("action", JStr (action_name (action config)));
   ("projectId", opt_value JId (cfg_projectId config));
   ("particulars",
     js_or (obj_get "particulars" projectData) (JStr "Unknown Project"));
   ("implementingOffice",
     js_or (obj_get "implementingOffice" projectData) (JStr "Unknown Office"));
   ("budgetItemId", obj_get "budgetItemId" projectData);
   ("previousValues",
     opt_value (fun o => stringify_value (JObj o)) (previousValues config));
   ("newValues",
     opt_value (fun o => stringify_value (JObj o)) (newValues config));
   ("changedFields",
     if Nat.ltb 0 (List.length changedFields)
     then stringify_value (JArr (map JStr changedFields)) else JUndefined);
   ("changeSummary",
     if Nat.ltb 0 (List.length (object_keys changeSummary))
     then JObj changeSummary else JUndefined);
   ("performedBy", JId userId);
   ("performedByName", js_or (obj_get "name" user) (JStr "Unknown"));
   ("performedByEmail", js_or (obj_get "email" user) (JStr ""));
   ("performedByRole", js_or (obj_get "role" user) (JStr "user"));
   ("timestamp", JNum (ctx_now ctx));
   ("reason", opt_value JStr (reason config))].

(** The body of the [try] block (lines 27-103). *)
Definition logProjectActivity_body (ctx : Ctx) (userId : Id)
    (config : ProjectLogConfig) : M unit :=
  user <- db_get ctx userId ;;
  match user with
  | None => ret tt      (* console.error; return *)
  | Some user =>
      db_insert ctx T_projectActivities
        (project_activity_record ctx userId user config) ;;;
      ret tt
  end.

(** [logProjectActivity]: the body inside [try], and a [catch] that only
    writes to the console. *)
Definition logProjectActivity (ctx : Ctx) (userId : Id)
    (config : ProjectLogConfig) : M unit :=
  try_catch (logProjectActivity_body ctx userId config)
            (fun _error => ret tt).

(* ------------------------------------------------------------------ *)
(** ** convex/lib/aggregationUtils.ts *)






Definition Q_of_nat (n : nat) : Q := inject_Z (Z.of_nat n).












(** [{ aggregationId, updated: true }] or [{ aggregationId, created: true }] *)
Inductive AggregationOutcome : Type :=
| Updated (aggregationId : Id)
| Created (aggregationId : Id).

Definition aggregationId (r : AggregationOutcome) : Id :=
  match r with Updated i | Created i => i end.



(* ------------------------------------------------------------------ *)
(** ** Validators ([convex/values]) *)

Inductive Validator : Type :=
| v_string
| v_number
| v_id (t : Table)
| v_literal (s : string)
| v_union (alternatives : list Validator)
| v_optional (inner : Validator)
| v_array (element : Validator)
| v_object (fields : list (string * Validator)).

Definition is_optional (v : Validator) : bool :=
  match v with v_optional _ => true | _ => false end.

Fixpoint lookup_validator (k : string) (fields : list (string * Validator))
  : option Validator :=
  match fields with
  | [] => None
  | (k', v) :: rest => if String.eqb k k' then Some v else lookup_validator k rest
  end.

(** An association list stands for an object when no key comes twice. *)
Fixpoint distinct_keys (o : Obj) : bool :=
  match o with
  | [] => true
  | (k, _) :: rest => negb (obj_has k rest) && distinct_keys rest
  end.

(** [validates v x]: the value [x] is accepted by [v].  In an object every
    property must be declared and hold an accepted value, and every
    declared property that is not optional must be there.  No validator
    accepts [undefined]: an optional property is either left out or holds a
    value of the inner validator. *)
Fixpoint validates (v : Validator) (x : JsValue) {struct v} : bool :=
  match v with
  | v_string => match x with JStr _ => true | _ => false end
  | v_number => match x with JNum _ => true | _ => false end
  | v_id t => match x with JId i => Table_eqb (id_table i) t | _ => false end
  | v_literal s => match x with JStr s' => String.eqb s' s | _ => false end
  | v_union alternatives =>
      (fix any (l : list Validator) : bool :=
         match l with
         | [] => false
         | a :: l' => validates a x || any l'
         end) alternatives
  | v_optional inner => validates inner x
  | v_array element =>
      match x with
      | JArr elems => forallb (validates element) elems
      | _ => false
      end
  | v_object fields =>
      match x with
      | JObj props =>
          forallb
            (fun kv =>
               (fix declared (l : list (string * Validator)) : bool :=
                  match l with
                  | [] => false
                  | (k', v') :: l' =>
                      if String.eqb (fst kv) k' then validates v' (snd kv)
                      else declared l'
                  end) fields)
            props
          && forallb (fun kv => is_optional (snd kv) || obj_has (fst kv) props)
                     fields
          && distinct_keys props
      | _ => false
      end
  end.

(** [mutation({ args, handler })]: the arguments are validated before the
    handler runs, and the handler runs as one transaction, so that nothing
    it wrote stays when it throws. *)
Definition mutation {A} (args : list (string * Validator))
    (handler : Ctx -> Obj -> M A) (ctx : Ctx) (a : Obj) : M A :=
  fun db =>
    if validates (v_object args) (JObj a) then
      match handler ctx a db with
      | (Normal r, db') => (Normal r, db')
      | (Throw e, _) => (Throw e, db)
      end
    else (Throw ArgumentValidationError, db).

(* ------------------------------------------------------------------ *)
(** ** convex/schema/govtProjectBreakdowns.ts *)


(* ------------------------------------------------------------------ *)
(** ** convex/lib/govtProjectActivityLogger.ts *)

Record GovtProjectLogConfig : Type := mkGovtProjectLogConfig {
  g_action : string;
  g_breakdownId : Id;
  g_breakdown : option Obj;
  g_previousValues : option Obj;
  g_newValues : option Obj;
  g_source : string;
  g_reason : option string;
  g_batchId : option string
}.

Definition govt_activity_record (ctx : Ctx) (userId : Id) (user : Obj)
    (config : GovtProjectLogConfig) : Obj :=
  let changedFields :=
    match g_previousValues config, g_newValues config with
    | Some prev, Some new =>
        if String.eqb (g_action config) "updated"
        then diff_changed_fields projectSystemFields prev new else []
    | _, _ => []
    end in
  [("action", JStr (g_action config));
   ("breakdownId", JId (g_breakdownId config));
   ("previousValues",
     opt_value (fun o => stringify_value (JObj o)) (g_previousValues config));
   ("newValues",
     opt_value (fun o => stringify_value (JObj o)) (g_newValues config));
   ("changedFields",
     if Nat.ltb 0 (List.length changedFields)
     then stringify_value (JArr (map JStr changedFields)) else JUndefined);
   ("performedBy", JId userId);
   ("performedByName", js_or (obj_get "name" user) (JStr "Unknown"));
   ("performedByEmail", js_or (obj_get "email" user) (JStr ""));
   ("performedByRole", js_or (obj_get "role" user) (JStr "user"));
   ("timestamp", JNum (ctx_now ctx));
   ("source", JStr (g_source config));
   ("batchId", opt_value JStr (g_batchId config));
   ("reason", opt_value JStr (g_reason config))].

(** Modelled from the spec: [logGovtProjectActivity], the logger of the
    breakdown mutations, whose file is not among the sources.  It resolves
    the actor, writes one activity record capturing the actor, the action,
    the snapshots, the diff and the reason, and contains every failure:
    nothing is re-raised to the mutation. *)
Definition logGovtProjectActivity (ctx : Ctx) (userId : Id)
    (config : GovtProjectLogConfig) : M unit :=
  try_catch
    (user <- db_get ctx userId ;;
     match user with
     | None => ret tt
     | Some user =>
         db_insert ctx T_govtProjectActivities
           (govt_activity_record ctx userId user config) ;;;
         ret tt
     end)
    (fun _error => ret tt).

(** Modelled from the spec: [logBulkGovtProjectActivity], the bulk variant
    of the same missing file.  It logs one activity record per item and
    returns the one batch identifier that the records share. *)
Definition logBulkGovtProjectActivity (ctx : Ctx) (userId : Id)
    (action : string) (records : list GovtProjectLogConfig)
    (source : string) (reason : string) : M string :=
  let batchId := "batch_" +++ number_to_string (ctx_now ctx) in
  for_each records
    (fun r =>
       logGovtProjectActivity ctx userId
         (mkGovtProjectLogConfig action (g_breakdownId r) (g_breakdown r)
            (g_previousValues r) (g_newValues r) source (Some reason)
            (Some batchId))) ;;;
  ret batchId.

(* ------------------------------------------------------------------ *)
(** ** convex/govtProjects.ts *)

(** "Reusable status validator" (lines 434-438). *)
Definition statusValidator : Validator :=
  v_union [v_literal "completed"; v_literal "delayed"; v_literal "ongoing"].


Definition as_id (v : JsValue) : option Id :=
  match v with JId i => Some i | _ => None end.

Definition as_string (v : JsValue) : option string :=
  match v with JStr s => Some s | _ => None end.

Definition elements (v : JsValue) : list JsValue :=
  match v with JArr l => l | _ => [] end.

Definition fields_of (v : JsValue) : Obj :=
  match v with JObj o => o | _ => [] end.

(** [getAuthUserId(ctx)] followed by
    [if (!userId) throw new Error("Not authenticated")]. *)
Definition require_user (ctx : Ctx) : M Id :=
  match ctx_auth ctx with
  | Some userId => ret userId
  | None => throw (JsError "Not authenticated")
  end.

(** [if (projectId) { const project = await ctx.db.get(projectId);
                      if (!project) throw new Error("Parent project not found") }].
    The field is validated as [v.optional(v.id("projects"))]: it holds an id
    or is absent. *)
Definition verify_parent (ctx : Ctx) (projectId : JsValue) : M unit :=
  match as_id projectId with
  | Some pid =>
      project <- db_get ctx pid ;;
      match project with
      | Some _ => ret tt
      | None => throw (JsError "Parent project not found")
      end
  | None => ret tt
  end.

(** [set.add(x.projectId)] under [if (x.projectId)]. *)
Definition track_project (projectId : JsValue) (s : list Id) : list Id :=
  match as_id projectId with
  | Some pid => set_add Id_eqb pid s
  | None => s
  end.

(** [for (const projectId of set) await recalculateProjectMetrics(...)] *)
Definition recalculate_each (ctx : Ctx) (projectIds : list Id) (userId : Id)
  : M unit :=
  for_each projectIds
    (fun projectId => recalculateProjectMetrics ctx projectId userId ;;; ret tt).

(** *** The first group of mutations (lines 16-200), before activity
    logging and parent links were added *)




(** *** The mutations with activity logging and auto-aggregation
    (lines 444-934) *)

(** The optional columns that create, update and the bulk variants share. *)
Definition breakdown_optional_args : list (string * Validator) :=
  [("projectId", v_optional (v_id T_projects));
   ("municipality", v_optional v_string);
   ("barangay", v_optional v_string);
   ("district", v_optional v_string);
   ("allocatedBudget", v_optional v_number);
   ("obligatedBudget", v_optional v_number);
   ("budgetUtilized", v_optional v_number);
   ("balance", v_optional v_number);
   ("status", v_optional statusValidator);
   ("dateStarted", v_optional v_number);
   ("targetDate", v_optional v_number);
   ("completionDate", v_optional v_number);
   ("remarks", v_optional v_string);
   ("projectTitle", v_optional v_string);
   ("utilizationRate", v_optional v_number);
   ("projectAccomplishment", v_optional v_number);
   ("reportDate", v_optional v_number);
   ("fundSource", v_optional v_string)].

Definition createProjectBreakdown_args : list (string * Validator) :=
  [("projectName", v_string); ("implementingOffice", v_string)]
    ++ breakdown_optional_args
    ++ [("reason", v_optional v_string); ("batchId", v_optional v_string)].

Definition createProjectBreakdown_handler (ctx : Ctx) (args : Obj) : M Id :=
  userId <- require_user ctx ;;
  let now := ctx_now ctx in
  let reason := obj_get "reason" args in
  let breakdownData := obj_remove "reason" args in
  verify_parent ctx (obj_get "projectId" args) ;;;
  breakdownId <- db_insert ctx T_govtProjectBreakdowns
    (obj_spread breakdownData
       [("createdBy", JId userId); ("createdAt", JNum now);
        ("updatedAt", JNum now); ("updatedBy", JId userId)]) ;;
  createdBreakdown <- db_get ctx breakdownId ;;
  logGovtProjectActivity ctx userId
    (mkGovtProjectLogConfig "created" breakdownId createdBreakdown None
       createdBreakdown "web_ui" (as_string reason) None) ;;;
  match as_id (obj_get "projectId" args) with
  | Some projectId => recalculateProjectMetrics ctx projectId userId ;;; ret tt
  | None => ret tt
  end ;;;
  ret breakdownId.

Definition createProjectBreakdown : Ctx -> Obj -> M Id :=
  mutation createProjectBreakdown_args createProjectBreakdown_handler.

Definition updateProjectBreakdown_args : list (string * Validator) :=
  [("breakdownId", v_id T_govtProjectBreakdowns);
   ("projectName", v_optional v_string);
   ("implementingOffice", v_optional v_string)]
    ++ breakdown_optional_args
    ++ [("reason", v_optional v_string)].

Definition updateProjectBreakdown_handler (ctx : Ctx) (args : Obj) : M Id :=
  userId <- require_user ctx ;;
  let reason := obj_get "reason" args in
  let updates := obj_remove "reason" (obj_remove "breakdownId" args) in
  match as_id (obj_get "breakdownId" args) with
  | None => throw (JsError "Invalid argument `id` for `db.get`")
  | Some breakdownId =>
      previous <- db_get ctx breakdownId ;;
      match previous with
      | None => throw (JsError "Breakdown not found")
      | Some previousBreakdown =>
          verify_parent ctx (obj_get "projectId" args) ;;;
          let oldProjectId := obj_get "projectId" previousBreakdown in
          db_patch ctx breakdownId
            (obj_spread updates
               [("updatedAt", JNum (ctx_now ctx)); ("updatedBy", JId userId)]) ;;;
          updatedBreakdown <- db_get ctx breakdownId ;;
          logGovtProjectActivity ctx userId
            (mkGovtProjectLogConfig "updated" breakdownId updatedBreakdown
               (Some previousBreakdown) updatedBreakdown "web_ui"
               (as_string reason) None) ;;;
          let projectsToRecalculate :=
            track_project (obj_get "projectId" args)
              (if negb (strict_eqb oldProjectId (obj_get "projectId" args))
               then track_project oldProjectId []
               else []) in
          recalculate_each ctx projectsToRecalculate userId ;;;
          ret breakdownId
      end
  end.

Definition updateProjectBreakdown : Ctx -> Obj -> M Id :=
  mutation updateProjectBreakdown_args updateProjectBreakdown_handler.


Definition deleteProjectBreakdown_handler (ctx : Ctx) (args : Obj) : M unit :=
  userId <- require_user ctx ;;
  match as_id (obj_get "breakdownId" args) with
  | None => throw (JsError "Invalid argument `id` for `db.get`")
  | Some breakdownId =>
      found <- db_get ctx breakdownId ;;
      match found with
      | None => throw (JsError "Breakdown not found")
      | Some breakdown =>
          let projectId := obj_get "projectId" breakdown in
          db_delete ctx breakdownId ;;;
          logGovtProjectActivity ctx userId
            (mkGovtProjectLogConfig "deleted" breakdownId None
               (Some breakdown) None "web_ui"
               (as_string (obj_get "reason" args)) None) ;;;
          recalculate_each ctx (track_project projectId []) userId
      end
  end.


(** What the bulk mutations return:
    [{ count, ids, batchId, affectedProjects: affectedProjects.size }]. *)
Record BulkResult : Type := mkBulkResult {
  count : nat;
  ids : list Id;
  batchId : string;
  affectedProjects : nat
}.

(** [args.reason || fallback] *)
Definition reason_or (args : Obj) (fallback : string) : string :=
  match js_or (obj_get "reason" args) (JStr fallback) with
  | JStr s => s
  | _ => fallback
  end.

Definition bulkCreateBreakdowns_args : list (string * Validator) :=
  [("breakdowns",
     v_array (v_object
       ([("projectName", v_string); ("implementingOffice", v_string)]
          ++ breakdown_optional_args
          ++ [("batchId", v_optional v_string)])));
   ("reason", v_optional v_string)].

(** The insertion loop of lines 698-717; its local variables are
    [insertedRecords] and [affectedProjects]. *)
Definition bulkCreate_loop (ctx : Ctx) (userId : Id) (breakdowns : list JsValue)
  : M (list GovtProjectLogConfig * list Id) :=
  let now := ctx_now ctx in
  for_of breakdowns
    (fun '(insertedRecords, affected) item =>
       let breakdown := fields_of item in
       breakdownId <- db_insert ctx T_govtProjectBreakdowns
         (obj_spread breakdown
            [("createdBy", JId userId); ("createdAt", JNum now);
             ("updatedAt", JNum now); ("updatedBy", JId userId)]) ;;
       createdBreakdown <- db_get ctx breakdownId ;;
       ret (insertedRecords
              ++ [mkGovtProjectLogConfig "bulk_created" breakdownId
                    createdBreakdown None createdBreakdown "bulk_import"
                    None None],
            track_project (obj_get "projectId" breakdown) affected))
    ([], []).

Definition bulkCreateBreakdowns_handler (ctx : Ctx) (args : Obj)
  : M BulkResult :=
  userId <- require_user ctx ;;
  '(insertedRecords, affected) <-
     bulkCreate_loop ctx userId (elements (obj_get "breakdowns" args)) ;;
  batchId <- logBulkGovtProjectActivity ctx userId "bulk_created"
               insertedRecords "bulk_import" (reason_or args "Excel import") ;;
  recalculate_each ctx affected userId ;;;
  ret (mkBulkResult (List.length insertedRecords)
         (map g_breakdownId insertedRecords) batchId (List.length affected)).

Definition bulkCreateBreakdowns : Ctx -> Obj -> M BulkResult :=
  mutation bulkCreateBreakdowns_args bulkCreateBreakdowns_handler.

Definition bulkUpdateBreakdowns_args : list (string * Validator) :=
  [("updates",
     v_array (v_object
       ([("breakdownId", v_id T_govtProjectBreakdowns);
         ("projectName", v_optional v_string);
         ("implementingOffice", v_optional v_string)]
          ++ breakdown_optional_args)));
   ("reason", v_optional v_string)].

(** The update loop of lines 796-830; a breakdown that is not found is
    skipped ([continue]). *)
Definition bulkUpdate_loop (ctx : Ctx) (userId : Id) (updates : list JsValue)
  : M (list GovtProjectLogConfig * list Id) :=
  let now := ctx_now ctx in
  for_of updates
    (fun '(updatedRecords, affected) item =>
       let update := fields_of item in
       let updateData := obj_remove "breakdownId" update in
       match as_id (obj_get "breakdownId" update) with
       | None => throw (JsError "Invalid argument `id` for `db.get`")
       | Some breakdownId =>
           previous <- db_get ctx breakdownId ;;
           match previous with
           | None => ret (updatedRecords, affected)
           | Some previousBreakdown =>
               let affected' :=
                 track_project (obj_get "projectId" update)
                   (track_project (obj_get "projectId" previousBreakdown)
                      affected) in
               db_patch ctx breakdownId
                 (obj_spread updateData
                    [("updatedAt", JNum now); ("updatedBy", JId userId)]) ;;;
               updatedBreakdown <- db_get ctx breakdownId ;;
               ret (updatedRecords
                      ++ [mkGovtProjectLogConfig "bulk_updated" breakdownId
                            updatedBreakdown (Some previousBreakdown)
                            updatedBreakdown "bulk_import" None None],
                    affected')
           end
       end)
    ([], []).

Definition bulkUpdateBreakdowns_handler (ctx : Ctx) (args : Obj)
  : M BulkResult :=
  userId <- require_user ctx ;;
  '(updatedRecords, affected) <-
     bulkUpdate_loop ctx userId (elements (obj_get "updates" args)) ;;
  batchId <- logBulkGovtProjectActivity ctx userId "bulk_updated"
               updatedRecords "bulk_import" (reason_or args "Bulk update") ;;
  recalculate_each ctx affected userId ;;;
  ret (mkBulkResult (List.length updatedRecords)
         (map g_breakdownId updatedRecords) batchId (List.length affected)).

Definition bulkUpdateBreakdowns : Ctx -> Obj -> M BulkResult :=
  mutation bulkUpdateBreakdowns_args bulkUpdateBreakdowns_handler.

Definition bulkDeleteBreakdowns_args : list (string * Validator) :=
  [("breakdownIds", v_array (v_id T_govtProjectBreakdowns));
   ("reason", v_optional v_string)].

(** The deletion loop of lines 885-905. *)
Definition bulkDelete_loop (ctx : Ctx) (breakdownIds : list JsValue)
  : M (list GovtProjectLogConfig * list Id) :=
  for_of breakdownIds
    (fun '(deletedRecords, affected) item =>
       match as_id item with
       | None => throw (JsError "Invalid argument `id` for `db.get`")
       | Some breakdownId =>
           found <- db_get ctx breakdownId ;;
           match found with
           | None => ret (deletedRecords, affected)
           | Some breakdown =>
               let affected' :=
                 track_project (obj_get "projectId" breakdown) affected in
               db_delete ctx breakdownId ;;;
               ret (deletedRecords
                      ++ [mkGovtProjectLogConfig "bulk_deleted" breakdownId
                            None (Some breakdown) None "web_ui" None None],
                    affected')
           end
       end)
    ([], []).

Definition bulkDeleteBreakdowns_handler (ctx : Ctx) (args : Obj)
  : M BulkResult :=
  userId <- require_user ctx ;;
  '(deletedRecords, affected) <-
     bulkDelete_loop ctx (elements (obj_get "breakdownIds" args)) ;;
  batchId <- logBulkGovtProjectActivity ctx userId "bulk_deleted"
               deletedRecords "web_ui" (reason_or args "Bulk deletion") ;;
  recalculate_each ctx affected userId ;;;
  ret (mkBulkResult (List.length deletedRecords)
         (map g_breakdownId deletedRecords) batchId (List.length affected)).

Definition bulkDeleteBreakdowns : Ctx -> Obj -> M BulkResult :=
  mutation bulkDeleteBreakdowns_args bulkDeleteBreakdowns_handler.

(* ------------------------------------------------------------------ *)
(** ** Vocabulary of the properties *)

(** The last value a list of assignments gives to [k]. *)
Fixpoint last_assigned (k : string) (fields : Obj) : option JsValue :=
  match fields with
  | [] => None
  | (k', v) :: rest =>
      match last_assigned k rest with
      | Some w => Some w
      | None => if String.eqb k k' then Some v else None
      end
  end.

(** The children of [projectId] as the index query returns them. *)
Definition children (projectId : Id) (db : DB) : list Obj :=
  filter (child_of projectId) (db_govtProjectBreakdowns db).

(** The fields of the patch that the service applies to the parent. *)
Definition recalc_fields (ctx : Ctx) (userId : Id) (c : StatusCounts) : Obj :=
  [("projectCompleted", js_nat (completed c));
   ("projectDelayed", js_nat (delayed c));
   ("projectsOnTrack", js_nat (onTrack c));
   ("updatedAt", JNum (ctx_now ctx));
   ("updatedBy", JId userId)].

Definition tally (projectId : Id) (db : DB) : StatusCounts :=
  fold_left count_status (children projectId db) (mkCounts 0 0 0).

Definition has_status (s : string) (breakdown : Obj) : bool :=
  strict_eqb (obj_get "status" breakdown) (JStr s).

(** A stored counter of a parent project. *)
Definition counter (field : string) (projectId : Id) (db : DB)
  : option JsValue :=
  option_map (obj_get field) (find_doc projectId (db_projects db)).

Definition demo_user : Id := mkId T_users 0.
Definition demo_project : Id := mkId T_projects 1.
Definition demo_ctx : Ctx := mkCtx (Some demo_user) 100%Q (fun _ => false).

(** One parent with four breakdowns: completed, ongoing, one with the
    legacy status "On-Hold" and one with no status; and a breakdown of no
    parent. *)
Definition demo_db : DB :=
  mkDB [[("_id", JId demo_user); ("name", JStr "Ann")]]
       [[("_id", JId demo_project); ("projectCompleted", js_nat 9);
         ("projectDelayed", js_nat 9); ("projectsOnTrack", js_nat 9)]]
       [[("_id", JId (mkId T_govtProjectBreakdowns 2));
         ("projectId", JId demo_project); ("status", JStr "completed")];
        [("_id", JId (mkId T_govtProjectBreakdowns 3));
         ("projectId", JId demo_project); ("status", JStr "ongoing")];
        [("_id", JId (mkId T_govtProjectBreakdowns 4));
         ("projectId", JId demo_project); ("status", JStr "On-Hold")];
        [("_id", JId (mkId T_govtProjectBreakdowns 5));
         ("projectId", JId demo_project)];
        [("_id", JId (mkId T_govtProjectBreakdowns 6));
         ("status", JStr "delayed")]]
       [] [] [] 7 [].

(** The stored parent link of a breakdown, when it is an id, is the id of
    a project: the column is [v.optional(v.id("projects"))]. *)
Definition breakdown_links_typed (db : DB) : Prop :=
  Forall (fun b => forall p, obj_get "projectId" b = JId p ->
                             id_table p = T_projects)
         (db_govtProjectBreakdowns db).

(** The patch that [updateProjectBreakdown] applies to the row. *)
Definition update_patch (ctx : Ctx) (userId : Id) (args : Obj) : Obj :=
  obj_spread (obj_remove "reason" (obj_remove "breakdownId" args))
    [("updatedAt", JNum (ctx_now ctx)); ("updatedBy", JId userId)].

(** A breakdown linked to the demo project, and an update of its status
    that says nothing of its parent. *)
Definition linked_db : DB :=
  mkDB [[("_id", JId demo_user); ("name", JStr "Ann")]]
       [[("_id", JId demo_project); ("projectCompleted", js_nat 0);
         ("projectDelayed", js_nat 0); ("projectsOnTrack", js_nat 1)]]
       [[("_id", JId (mkId T_govtProjectBreakdowns 2));
         ("projectName", JStr "Road"); ("implementingOffice", JStr "PEO");
         ("projectId", JId demo_project); ("status", JStr "ongoing")]]
       [] [] [] 3 [].

Definition status_update : Obj :=
  [("breakdownId", JId (mkId T_govtProjectBreakdowns 2));
   ("status", JStr "completed")].

(** The row that a create stores, from its arguments. *)
Definition created_row (ctx : Ctx) (userId r : Id) (breakdownData : Obj) : Obj :=
  ("_id", JId r) :: ("_creationTime", JNum (ctx_now ctx))
    :: strip_undefined
         (obj_spread breakdownData
            [("createdBy", JId userId); ("createdAt", JNum (ctx_now ctx));
             ("updatedAt", JNum (ctx_now ctx)); ("updatedBy", JId userId)]).






(** The store serves every operation of this call. *)
Definition no_faults (ctx : Ctx) : Prop := forall op, ctx_fault ctx op = false.






(** An id of the projects table that no project has. *)
Definition dangling_project : Id := mkId T_projects 99.

Definition dangling_item : Obj :=
  [("projectName", JStr "Road"); ("implementingOffice", JStr "PEO");
   ("projectId", JId dangling_project)].

(** Kinds of journal entries. *)
Definition breakdown_write (w : WriteOp) : Prop :=
  match w with
  | W_insert i | W_patch i | W_delete i =>
      id_table i = T_govtProjectBreakdowns
  end.

Definition activity_insert (w : WriteOp) : Prop :=
  exists i, w = W_insert i /\ id_table i = T_govtProjectActivities.

(** The parent ids that the items of a bulk create name, one entry per
    item that names one. *)
Definition parents_named (items : list JsValue) : list Id :=
  flat_map (fun item => match as_id (obj_get "projectId" (fields_of item)) with
                        | Some p => [p]
                        | None => []
                        end) items.

(** Five breakdowns of the demo project, and a bulk update of all five. *)
Definition five_children_db : DB :=
  mkDB [[("_id", JId demo_user); ("name", JStr "Ann")]]
       [[("_id", JId demo_project); ("projectCompleted", js_nat 0);
         ("projectDelayed", js_nat 0); ("projectsOnTrack", js_nat 5)]]
       (map (fun n => [("_id", JId (mkId T_govtProjectBreakdowns n));
                       ("projectName", JStr "Road");
                       ("implementingOffice", JStr "PEO");
                       ("projectId", JId demo_project);
                       ("status", JStr "ongoing")])
            [2; 3; 4; 5; 6])
       [] [] [] 7 [].

Definition five_updates : Obj :=
  [("updates",
     JArr (map (fun n => JObj [("breakdownId",
                                 JId (mkId T_govtProjectBreakdowns n));
                               ("status", JStr "completed")])
               [2; 3; 4; 5; 6]))].

(** The breakdowns have distinct ids. *)
Definition wf_breakdowns (db : DB) : Prop :=
  NoDup (map (obj_get "_id") (db_govtProjectBreakdowns db)).

(** [j] is one of the ids in a list of id values. *)
Definition names_id (j : Id) (done : list JsValue) : bool :=
  existsb (fun v => match as_id v with
                    | Some i => Id_eqb i j
                    | None => false
                    end) done.

(** [j] is the [breakdownId] of one of the items of a bulk update. *)
Definition updates_id (j : Id) (done : list JsValue) : bool :=
  names_id j (map (fun u => obj_get "breakdownId" (fields_of u)) done).

(** The validator of one item of [bulkUpdateBreakdowns]. *)
Definition bulkUpdate_item : Validator :=
  v_object
    ([("breakdownId", v_id T_govtProjectBreakdowns);
      ("projectName", v_optional v_string);
      ("implementingOffice", v_optional v_string)]
       ++ breakdown_optional_args).

(* ================================================================== *)
(** * The rest of the code around the claims *)

(* ------------------------------------------------------------------ *)
(** ** convex/lib/projectAggregation.ts, continued *)



(* ------------------------------------------------------------------ *)
(** ** convex/govtProjects.ts, continued: manual recalculation *)








(* ------------------------------------------------------------------ *)
(** ** Vocabulary of the further properties *)

(** The stored counters of a parent agree with its breakdowns. *)
Definition consistent (projectId : Id) (db : DB) : Prop :=
  counter "projectCompleted" projectId db
    = Some (js_nat (completed (tally projectId db))) /\
  counter "projectDelayed" projectId db
    = Some (js_nat (delayed (tally projectId db))) /\
  counter "projectsOnTrack" projectId db
    = Some (js_nat (onTrack (tally projectId db))).


(** A project with no breakdown yet, and the arguments of a create that
    links a new breakdown to it. *)
Definition childless_db : DB :=
  mkDB [[("_id", JId demo_user); ("name", JStr "Ann");
         ("role", JStr "super_admin")]]
       [[("_id", JId demo_project); ("particulars", JStr "Roads");
         ("projectCompleted", js_nat 0); ("projectDelayed", js_nat 0);
         ("projectsOnTrack", js_nat 0)]]
       [] [] [] [] 2 [].

Definition create_linked_args : Obj :=
  [("projectName", JStr "Road"); ("implementingOffice", JStr "PEO");
   ("projectId", JId demo_project); ("status", JStr "ongoing")].



(** What [recalculateProjectMetrics] returns for a parent in a store. *)
Definition recalc_result (db : DB) (projectId : Id) : RecalcResult :=
  mkRecalc (List.length (children projectId db)) (tally projectId db).

(** The loop body of [recalculateMultipleProjects]. *)
Definition recalculate_push (ctx : Ctx) (userId : Id)
    (results : list (Id * RecalcResult)) (projectId : Id)
  : M (list (Id * RecalcResult)) :=
  result <- recalculateProjectMetrics ctx projectId userId ;;
  ret (results ++ [(projectId, result)]).




(** An update that moves the breakdown of [linked_db] to a project that
    does not exist. *)
Definition move_to_dangling : Obj :=
  [("breakdownId", JId (mkId T_govtProjectBreakdowns 2));
   ("projectId", JId dangling_project)].

(** The elements of a list with their positions, counted from [n]. *)
Fixpoint number_from {A} (n : nat) (l : list A) : list (nat * A) :=
  match l with
  | [] => []
  | x :: rest => (n, x) :: number_from (S n) rest
  end.

(** The rows that a bulk create stores for its items when the next free
    id number is [first]. *)
Definition bulk_created_rows (ctx : Ctx) (userId : Id) (first : nat)
    (items : list JsValue) : list Obj :=
  map (fun ni => created_row ctx userId
                   (mkId T_govtProjectBreakdowns (fst ni))
                   (fields_of (snd ni)))
      (number_from first items).

(** The fields that a bulk update patches into the row of one item. *)
Definition bulk_update_patch (ctx : Ctx) (userId : Id) (item : JsValue) : Obj :=
  obj_spread (obj_remove "breakdownId" (fields_of item))
    [("updatedAt", JNum (ctx_now ctx)); ("updatedBy", JId userId)].

(** The ids that the items of a bulk update name and that have a row, one
    entry per such item, in order. *)
Definition found_ids (db : DB) (updates : list JsValue) : list Id :=
  flat_map
    (fun u => match as_id (obj_get "breakdownId" (fields_of u)) with
              | Some i =>
                  match find_doc i (db_govtProjectBreakdowns db) with
                  | Some _ => [i]
                  | None => []
                  end
              | None => []
              end) updates.

(** A bulk create of two breakdowns of the demo project. *)
Definition two_new_breakdowns : Obj :=
  [("breakdowns",
     JArr [JObj [("projectName", JStr "Road"); ("implementingOffice", JStr "PEO");
                 ("projectId", JId demo_project); ("status", JStr "ongoing")];
           JObj [("projectName", JStr "Bridge");
                 ("implementingOffice", JStr "PEO");
                 ("projectId", JId demo_project);
                 ("status", JStr "completed")]])].

(** A bulk delete that names one breakdown twice and one id that has no
    row. *)
Definition delete_with_repeats : Obj :=
  [("breakdownIds",
     JArr [JId (mkId T_govtProjectBreakdowns 2);
           JId (mkId T_govtProjectBreakdowns 40);
           JId (mkId T_govtProjectBreakdowns 2)])].

(* ------------------------------------------------------------------ *)
(** ** convex/lib/particularActivityLogger.ts and
       convex/lib/categoryActivityLogger.ts *)












(** An update of a project's status and budget, as the logger receives
    it. *)
Definition budget_update_config : ProjectLogConfig :=
  mkProjectLogConfig A_updated (Some demo_project) None
    (Some [("_id", JId demo_project); ("status", JStr "ongoing");
           ("totalBudgetAllocated", JNum 100); ("updatedAt", JNum 1)])
    (Some [("_id", JId demo_project); ("status", JStr "ongoing");
           ("totalBudgetAllocated", JNum 250); ("updatedAt", JNum 2)])
    None.


(* ------------------------------------------------------------------ *)
(** ** convex/govtProjects.ts, continued: subtotals (lines 209-277) *)























(* ------------------------------------------------------------------ *)
(** ** convex/govtProjects.ts, continued: the queries (lines 939-1007) *)

(** [query({ args, handler })]: the arguments are validated, then the
    handler runs; the store a query is given offers no write. *)
Definition query {A} (args : list (string * Validator))
    (handler : Ctx -> Obj -> M A) (ctx : Ctx) (a : Obj) : M A :=
  fun db =>
    if validates (v_object args) (JObj a) then handler ctx a db
    else (Throw ArgumentValidationError, db).

Definition getProjectBreakdown_args : list (string * Validator) :=
  [("breakdownId", v_id T_govtProjectBreakdowns)].

Definition getProjectBreakdown_handler (ctx : Ctx) (args : Obj)
  : M (option Obj) :=
  userId <- require_user ctx ;;
  match as_id (obj_get "breakdownId" args) with
  | None => throw (JsError "Invalid argument `id` for `db.get`")
  | Some breakdownId => db_get ctx breakdownId
  end.

Definition getProjectBreakdown : Ctx -> Obj -> M (option Obj) :=
  query getProjectBreakdown_args getProjectBreakdown_handler.

(** The id that the next insert will use has no breakdown row yet. *)
Definition next_id_free (db : DB) : Prop :=
  find_doc (mkId T_govtProjectBreakdowns (db_next db))
           (db_govtProjectBreakdowns db) = None.

(** [s.includes(t)] on strings. *)
Fixpoint string_includes (s t : string) : bool :=
  String.prefix t s
  || match s with
     | EmptyString => false
     | String _ rest => string_includes rest t
     end.

(** [xs.filter(p)] for a callback that may throw: [None] when a call
    throws, which ends the filter. *)
Fixpoint filter_throwing {A} (p : A -> option bool) (xs : list A)
  : option (list A) :=
  match xs with
  | [] => Some []
  | x :: rest =>
      match p x with
      | None => None
      | Some keep =>
          match filter_throwing p rest with
          | None => None
          | Some kept => Some (if keep then x :: kept else kept)
          end
      end
  end.

(** The integer part of a number, as [Array.prototype.slice] takes it. *)
Definition to_integer (q : Q) : Z := Z.quot (Qnum q) (Zpos (Qden q)).

(** [xs.slice(0, limit)]: a negative [limit] counts from the end. *)
Definition slice_to {A} (xs : list A) (limit : Q) : list A :=
  let k := to_integer limit in
  if Z.ltb k 0
  then firstn (List.length xs - Z.to_nat (Z.opp k)) xs
  else firstn (Z.to_nat k) xs.

Section TextFilters.

(** [String.prototype.toLowerCase], which follows the Unicode case
    mapping; the model takes it as given. *)
Variable toLowerCase : string -> string.

(** [value.toLowerCase().includes(needle.toLowerCase())]; on a value that
    is no string the call of [toLowerCase] is a [TypeError]. *)
Definition text_matches (value : JsValue) (needle : string) : option bool :=
  match value with
  | JStr s => Some (string_includes (toLowerCase s) (toLowerCase needle))
  | _ => None
  end.

(** [value?.toLowerCase().includes(...)]: [undefined] for a missing
    value, which the filter takes as [false]. *)
Definition optional_text_matches (value : JsValue) (needle : string)
  : option bool :=
  match value with
  | JUndefined | JNull => Some false
  | _ => text_matches value needle
  end.

(** [if (arg) breakdowns = breakdowns.filter(b => p(b[field], arg))] for a
    string argument. *)
Definition filter_by_text (p : JsValue -> string -> option bool)
    (field : string) (arg : JsValue) (breakdowns : list Obj)
  : M (list Obj) :=
  if truthy arg then
    match arg with
    | JStr needle =>
        match filter_throwing (fun b => p (obj_get field b) needle)
                breakdowns with
        | Some kept => ret kept
        | None => throw (JsError "TypeError: toLowerCase is not a function")
        end
    | _ => throw (JsError "TypeError: toLowerCase is not a function")
    end
  else ret breakdowns.

(** [if (arg) breakdowns = breakdowns.filter(b => b[field] === arg)] *)
Definition filter_by_value (field : string) (arg : JsValue)
    (breakdowns : list Obj) : list Obj :=
  if truthy arg
  then filter (fun b => strict_eqb (obj_get field b) arg) breakdowns
  else breakdowns.

Definition getProjectBreakdowns_args : list (string * Validator) :=
  [("projectName", v_optional v_string);
   ("implementingOffice", v_optional v_string);
   ("municipality", v_optional v_string);
   ("status", v_optional v_string);
   ("projectId", v_optional (v_id T_projects));
   ("limit", v_optional v_number)].

Definition getProjectBreakdowns_handler (ctx : Ctx) (args : Obj)
  : M (list Obj) :=
  userId <- require_user ctx ;;
  breakdowns <- db_query ctx T_govtProjectBreakdowns [] (fun _ => true) ;;
  let breakdowns :=
    filter_by_value "projectId" (obj_get "projectId" args) breakdowns in
  breakdowns <- filter_by_text text_matches "projectName"
                  (obj_get "projectName" args) breakdowns ;;
  breakdowns <- filter_by_text text_matches "implementingOffice"
                  (obj_get "implementingOffice" args) breakdowns ;;
  breakdowns <- filter_by_text optional_text_matches "municipality"
                  (obj_get "municipality" args) breakdowns ;;
  let breakdowns :=
    filter_by_value "status" (obj_get "status" args) breakdowns in
  let breakdowns :=
    match obj_get "limit" args with
    | JNum limit =>
        if truthy (JNum limit) then slice_to breakdowns limit else breakdowns
    | _ => breakdowns
    end in
  ret breakdowns.

Definition getProjectBreakdowns : Ctx -> Obj -> M (list Obj) :=
  query getProjectBreakdowns_args getProjectBreakdowns_handler.

(** A breakdown passes the text filter of [field] for the argument
    [arg]: there is no filter, or the row's text contains the argument's,
    letter case aside. *)
Definition passes_text (field : string) (arg : JsValue) (b : Obj) : bool :=
  if truthy arg then
    match arg, obj_get field b with
    | JStr needle, JStr s =>
        string_includes (toLowerCase s) (toLowerCase needle)
    | _, _ => false
    end
  else true.

Definition passes_value (field : string) (arg : JsValue) (b : Obj) : bool :=
  negb (truthy arg) || strict_eqb (obj_get field b) arg.

(** A breakdown passes every filter that the arguments give. *)
Definition passes_filters (args : Obj) (b : Obj) : bool :=
  passes_value "projectId" (obj_get "projectId" args) b
  && (passes_text "projectName" (obj_get "projectName" args) b
      && (passes_text "implementingOffice"
            (obj_get "implementingOffice" args) b
          && (passes_text "municipality" (obj_get "municipality" args) b
              && passes_value "status" (obj_get "status" args) b))).

End TextFilters.

(** The three text columns that the list query reads are as the table
    defines them: the two names are strings, the municipality is a string
    or absent. *)
Definition text_columns_typed (db : DB) : Prop :=
  Forall (fun b =>
            (exists s, obj_get "projectName" b = JStr s) /\
            (exists s, obj_get "implementingOffice" b = JStr s) /\
            (obj_get "municipality" b = JUndefined \/
             exists s, obj_get "municipality" b = JStr s))
         (db_govtProjectBreakdowns db).

(** The case mapping on the letters A to Z. *)
Fixpoint ascii_lower (s : string) : string :=
  match s with
  | EmptyString => EmptyString
  | String c rest =>
      let n := nat_of_ascii c in
      String (if Nat.leb 65 n && Nat.leb n 90 then ascii_of_nat (n + 32) else c)
             (ascii_lower rest)
  end.

(** A list query for the breakdowns of the demo project. *)
Definition children_query : Obj := [("projectId", JId demo_project)].

(** Reading one escaped character back from the front of a JSON string
    body: the inverse of [json_escape_char]. *)
Definition hex_value (c : ascii) : option nat :=
  let n := nat_of_ascii c in
  if Nat.leb 48 n && Nat.leb n 57 then Some (n - 48)
  else if Nat.leb 97 n && Nat.leb n 102 then Some (n - 87)
  else None.

Definition json_unescape_head (s : string) : option (ascii * string) :=
  match s with
  | EmptyString => None
  | String c rest =>
      if Nat.eqb (nat_of_ascii c) 92 then
        match rest with
        | EmptyString => None
        | String e rest' =>
            let n := nat_of_ascii e in
            if Nat.eqb n 34 then Some (ascii_of_nat 34, rest')
            else if Nat.eqb n 92 then Some (ascii_of_nat 92, rest')
            else if Nat.eqb n 98 then Some (ascii_of_nat 8, rest')
            else if Nat.eqb n 116 then Some (ascii_of_nat 9, rest')
            else if Nat.eqb n 110 then Some (ascii_of_nat 10, rest')
            else if Nat.eqb n 102 then Some (ascii_of_nat 12, rest')
            else if Nat.eqb n 114 then Some (ascii_of_nat 13, rest')
            else
              match rest' with
              | String _ (String _ (String h (String l rest''))) =>
                  match hex_value h, hex_value l with
                  | Some hi, Some lo => Some (ascii_of_nat (16 * hi + lo), rest'')
                  | _, _ => None
                  end
              | _ => None
              end
        end
      else Some (c, rest)
  end.

(** An update of a project whose status goes from "ongoing" to
    "completed". *)
Definition status_change_config : ProjectLogConfig :=
  mkProjectLogConfig A_updated (Some demo_project) None
    (Some [("_id", JId demo_project); ("status", JStr "ongoing")])
    (Some [("_id", JId demo_project); ("status", JStr "completed")])
    None.

(** [getAllAggregations] (lines 352-381). *)
Definition getAllAggregations_args : list (string * Validator) :=
  [("entityType", v_optional v_string);
   ("aggregationType", v_optional v_string)].

Definition getAllAggregations_handler (ctx : Ctx) (args : Obj)
  : M (list Obj) :=
  let by_type (aggregations : list Obj) : list Obj :=
    if truthy (obj_get "aggregationType" args)
    then filter (fun a => strict_eqb (obj_get "aggregationType" a)
                            (obj_get "aggregationType" args))
                aggregations
    else aggregations in
  if negb (truthy (obj_get "entityType" args)) then
    aggregations <- db_query ctx T_aggregations [] (fun _ => true) ;;
    ret (by_type aggregations)
  else
    aggregations <- db_query ctx T_aggregations
                      [("entityType", obj_get "entityType" args)]
                      (fun _ => true) ;;
    ret (by_type aggregations).

Definition getAllAggregations : Ctx -> Obj -> M (list Obj) :=
  query getAllAggregations_args getAllAggregations_handler.


(* ================================================================== *)
(** * Properties *)

(** ** Identifiers and objects *)

Lemma Table_eqb_eq (a b : Table) : Table_eqb a b = true <-> a = b.
Proof. destruct a, b; simpl; split; intro H; congruence. Qed.

Lemma Table_eqb_refl (a : Table) : Table_eqb a a = true.
Proof. now apply Table_eqb_eq. Qed.

Lemma Id_eqb_eq (a b : Id) : Id_eqb a b = true <-> a = b.
Proof.
  destruct a as [ta na], b as [tb nb]; unfold Id_eqb; simpl.
  rewrite andb_true_iff, Table_eqb_eq, Nat.eqb_eq.
  split; [intros [-> ->]; reflexivity | intros H; inversion H; auto].
Qed.

Lemma Id_eqb_refl (a : Id) : Id_eqb a a = true.
Proof. now apply Id_eqb_eq. Qed.

Lemma Id_eqb_neq (a b : Id) : Id_eqb a b = false <-> a <> b.
Proof.
  split; intro H.
  - intro E. apply Id_eqb_eq in E. congruence.
  - destruct (Id_eqb a b) eqn:E; [apply Id_eqb_eq in E; contradiction | reflexivity].
Qed.

Lemma Id_eqb_sym (a b : Id) : Id_eqb a b = Id_eqb b a.
Proof.
  destruct (Id_eqb a b) eqn:E.
  - apply Id_eqb_eq in E; subst; symmetry; apply Id_eqb_refl.
  - symmetry; apply Id_eqb_neq. apply Id_eqb_neq in E. congruence.
Qed.

Lemma obj_get_set (k k' : string) (v : JsValue) (o : Obj) :
  obj_get k (obj_set k' v o) = if String.eqb k k' then v else obj_get k o.
Proof.
  induction o as [|[k0 v0] o IH]; simpl.
  - destruct (String.eqb k k'); reflexivity.
  - destruct (String.eqb k' k0) eqn:E0; simpl.
    + apply String.eqb_eq in E0; subst k0.
      destruct (String.eqb k k'); reflexivity.
    + destruct (String.eqb k k0) eqn:E1.
      * apply String.eqb_eq in E1; subst k0.
        rewrite String.eqb_sym, E0. reflexivity.
      * exact IH.
Qed.

Lemma obj_get_remove (k k' : string) (o : Obj) :
  obj_get k (obj_remove k' o) =
  if String.eqb k k' then JUndefined else obj_get k o.
Proof.
  unfold obj_remove.
  induction o as [|[k0 v0] o IH]; simpl.
  - destruct (String.eqb k k'); reflexivity.
  - destruct (String.eqb k' k0) eqn:E0; simpl.
    + apply String.eqb_eq in E0; subst k0.
      rewrite IH. destruct (String.eqb k k'); reflexivity.
    + destruct (String.eqb k k0) eqn:E1.
      * apply String.eqb_eq in E1; subst k0.
        rewrite String.eqb_sym, E0. reflexivity.
      * exact IH.
Qed.

Lemma obj_get_apply_patch (k : string) (fields doc : Obj) :
  obj_get k (apply_patch fields doc) =
  match last_assigned k fields with
  | Some v => v
  | None => obj_get k doc
  end.
Proof.
  unfold apply_patch. revert doc.
  induction fields as [|[k' v] fields IH]; intro doc; simpl; [reflexivity|].
  rewrite IH. destruct (last_assigned k fields); [reflexivity|].
  destruct v; rewrite ?obj_get_remove, ?obj_get_set;
    destruct (String.eqb k k'); reflexivity.
Qed.

Lemma obj_get_spread (k : string) (a b : Obj) :
  obj_get k (obj_spread a b) =
  match last_assigned k b with
  | Some v => v
  | None => obj_get k a
  end.
Proof.
  unfold obj_spread. revert a.
  induction b as [|[k' v] b IH]; intro a; simpl; [reflexivity|].
  rewrite IH. destruct (last_assigned k b); [reflexivity|].
  rewrite obj_get_set. destruct (String.eqb k k'); reflexivity.
Qed.

Lemma last_assigned_none (k : string) (fields : Obj) :
  last_assigned k fields = None <-> ~ In k (object_keys fields).
Proof.
  induction fields as [|[k' v] fields IH]; simpl.
  - tauto.
  - destruct (last_assigned k fields).
    + split; [discriminate|]. intro H.
      destruct (in_dec string_dec k (object_keys fields)) as [i|n].
      * exfalso. apply H. right. exact i.
      * apply IH in n. discriminate.
    + destruct (String.eqb k k') eqn:E.
      * apply String.eqb_eq in E. subst. split; [discriminate|].
        intro H. exfalso. apply H. left. reflexivity.
      * apply String.eqb_neq in E. split; [|reflexivity].
        intros _ [H|H]; [congruence|]. now apply IH in H.
Qed.

(** ** Tables *)

Lemma table_of_with_table (t t' : Table) (rows : list Obj) (db : DB) :
  table_of t (with_table t' rows db) =
  if Table_eqb t t' then rows else table_of t db.
Proof. destruct t, t'; reflexivity. Qed.

Lemma table_of_journal_add (t : Table) (w : WriteOp) (db : DB) :
  table_of t (journal_add w db) = table_of t db.
Proof. destruct t; reflexivity. Qed.

Lemma table_of_bump_next (t : Table) (db : DB) :
  table_of t (bump_next db) = table_of t db.
Proof. destruct t; reflexivity. Qed.

Lemma journal_with_table (t : Table) (rows : list Obj) (db : DB) :
  db_journal (with_table t rows db) = db_journal db.
Proof. destruct t; reflexivity. Qed.

Lemma has_id_apply_patch (i : Id) (fields doc : Obj) :
  ~ In "_id" (object_keys fields) ->
  has_id i (apply_patch fields doc) = has_id i doc.
Proof.
  intro H. unfold has_id. rewrite obj_get_apply_patch.
  apply last_assigned_none in H. rewrite H. reflexivity.
Qed.

Lemma patch_rows_some (i : Id) (fields : Obj) (rows : list Obj) :
  forall d, find_doc i rows = Some d ->
  exists rows', patch_rows i fields rows = Some rows'.
Proof.
  unfold find_doc.
  induction rows as [|d0 rows IH]; simpl; intros d H; [discriminate|].
  destruct (has_id i d0); [eauto|].
  destruct (IH _ H) as [rows' ->]. eauto.
Qed.

Lemma patch_rows_find (i : Id) (fields : Obj) (rows rows' : list Obj) :
  ~ In "_id" (object_keys fields) ->
  patch_rows i fields rows = Some rows' ->
  exists d, find_doc i rows = Some d /\
            find_doc i rows' = Some (apply_patch fields d).
Proof.
  intro Hk. unfold find_doc. revert rows'.
  induction rows as [|d0 rows IH]; simpl; intros rows' H; [discriminate|].
  destruct (has_id i d0) eqn:E.
  - inversion H; subst. exists d0. split; [reflexivity|]. simpl.
    rewrite has_id_apply_patch, E by assumption. reflexivity.
  - destruct (patch_rows i fields rows) as [r|]; [|discriminate].
    inversion H; subst. simpl. rewrite E. apply IH. reflexivity.
Qed.


Lemma filter_true {A} (l : list A) : filter (fun _ => true) l = l.
Proof. induction l; simpl; congruence. Qed.

Lemma filter_filter {A} (f g : A -> bool) (l : list A) :
  filter f (filter g l) = filter (fun x => g x && f x) l.
Proof.
  induction l as [|x l IH]; simpl; [reflexivity|].
  destruct (g x); simpl; [destruct (f x)|]; rewrite IH; reflexivity.
Qed.

(** ** The recalculation service *)

(** Both branches of the service, the reset to zero and the count, apply
    the same patch; the service is this one store transition. *)
Lemma recalculateProjectMetrics_unfold ctx projectId userId db :
  recalculateProjectMetrics ctx projectId userId db =
  if ctx_fault ctx (Op_query T_govtProjectBreakdowns)
  then (Throw (StoreFailure (Op_query T_govtProjectBreakdowns)), db)
  else if ctx_fault ctx (Op_patch (id_table projectId))
  then (Throw (StoreFailure (Op_patch (id_table projectId))), db)
  else
    match patch_rows projectId
            (recalc_fields ctx userId (tally projectId db))
            (table_of (id_table projectId) db) with
    | Some rows =>
        (Normal (mkRecalc (List.length (children projectId db))
                          (tally projectId db)),
         journal_add (W_patch projectId)
           (with_table (id_table projectId) rows db))
    | None => (Throw (JsError "Update on nonexistent document"), db)
    end.
Proof.
  unfold recalculateProjectMetrics, db_query, db_patch, guard_fault, bind,
    throw, ret, tally, children, recalc_fields.
  destruct (ctx_fault ctx (Op_query T_govtProjectBreakdowns)); [reflexivity|].
  simpl table_of. rewrite filter_true.
  replace (filter _ (db_govtProjectBreakdowns db))
    with (filter (child_of projectId) (db_govtProjectBreakdowns db)).
  2:{ apply filter_ext. intro d. unfold child_of. simpl.
      now rewrite andb_true_r. }
  destruct (filter (child_of projectId) (db_govtProjectBreakdowns db))
    as [|b bs] eqn:E; simpl;
    destruct (ctx_fault ctx (Op_patch (id_table projectId))); try reflexivity;
    match goal with
    | |- context [patch_rows ?i ?f ?r] => destruct (patch_rows i f r)
    end; reflexivity.
Qed.

Lemma strict_eqb_JStr (v : JsValue) (s : string) :
  strict_eqb v (JStr s) = true -> v = JStr s.
Proof.
  destruct v; simpl; try discriminate.
  intro H. apply String.eqb_eq in H. now subst.
Qed.

Lemma count_status_fold (bs : list Obj) :
  forall acc,
    completed (fold_left count_status bs acc)
    = completed acc + List.length (filter (has_status "completed") bs)
    /\ delayed (fold_left count_status bs acc)
       = delayed acc + List.length (filter (has_status "delayed") bs)
    /\ onTrack (fold_left count_status bs acc)
       = onTrack acc + List.length (filter (has_status "ongoing") bs).
Proof.
  induction bs as [|b bs IH]; intro acc; simpl.
  - repeat split; lia.
  - destruct (IH (count_status acc b)) as (Hc & Hd & Ho).
    rewrite Hc, Hd, Ho. clear IH Hc Hd Ho.
    unfold count_status, has_status.
    destruct (strict_eqb (obj_get "status" b) (JStr "completed")) eqn:E1.
    { apply strict_eqb_JStr in E1. rewrite E1. simpl. repeat split; lia. }
    destruct (strict_eqb (obj_get "status" b) (JStr "delayed")) eqn:E2.
    { apply strict_eqb_JStr in E2. rewrite E2. simpl. repeat split; lia. }
    destruct (strict_eqb (obj_get "status" b) (JStr "ongoing")) eqn:E3;
      simpl; repeat split; lia.
Qed.

Lemma recognized_split (bs : list Obj) :
  List.length (filter (fun b => recognized_status (obj_get "status" b)) bs)
  = List.length (filter (has_status "completed") bs)
    + List.length (filter (has_status "delayed") bs)
    + List.length (filter (has_status "ongoing") bs).
Proof.
  induction bs as [|b bs IH]; simpl; [reflexivity|].
  unfold recognized_status, has_status in *.
  destruct (strict_eqb (obj_get "status" b) (JStr "completed")) eqn:E1.
  { apply strict_eqb_JStr in E1. rewrite E1. simpl. lia. }
  destruct (strict_eqb (obj_get "status" b) (JStr "delayed")) eqn:E2.
  { apply strict_eqb_JStr in E2. rewrite E2. simpl. lia. }
  destruct (strict_eqb (obj_get "status" b) (JStr "ongoing")) eqn:E3;
    simpl; lia.
Qed.

Lemma recalc_success ctx projectId userId db r db' :
  recalculateProjectMetrics ctx projectId userId db = (Normal r, db') ->
  ctx_fault ctx (Op_query T_govtProjectBreakdowns) = false /\
  ctx_fault ctx (Op_patch (id_table projectId)) = false /\
  r = mkRecalc (List.length (children projectId db)) (tally projectId db) /\
  exists rows,
    patch_rows projectId (recalc_fields ctx userId (tally projectId db))
      (table_of (id_table projectId) db) = Some rows /\
    db' = journal_add (W_patch projectId)
            (with_table (id_table projectId) rows db).
Proof.
  rewrite recalculateProjectMetrics_unfold.
  destruct (ctx_fault ctx (Op_query T_govtProjectBreakdowns)); [discriminate|].
  destruct (ctx_fault ctx (Op_patch (id_table projectId))); [discriminate|].
  destruct (patch_rows _ _ _) as [rows|]; [|discriminate].
  intro H. inversion H; subst. repeat split; eauto.
Qed.

Lemma recalc_fields_keep_id ctx userId c :
  ~ In "_id" (object_keys (recalc_fields ctx userId c)).
Proof. simpl. intuition discriminate. Qed.

Lemma children_after_project_write projectId t rows w db :
  t <> T_govtProjectBreakdowns ->
  children projectId (journal_add w (with_table t rows db))
  = children projectId db.
Proof. intro H. destruct t; try reflexivity. congruence. Qed.

(** C1.  After a successful [recalculateProjectMetrics] for a parent, each
    stored counter is the number of the parent's breakdowns with the
    matching status, and the three counters add up to the number of its
    breakdowns whose status is "completed", "delayed" or "ongoing"; a
    breakdown with no status or any other status is in no bucket. *)
Theorem recalc_counters_match_recognized_children :
  forall ctx projectId userId db r db',
    id_table projectId = T_projects ->
    recalculateProjectMetrics ctx projectId userId db = (Normal r, db') ->
    let mine := filter (child_of projectId) (db_govtProjectBreakdowns db') in
    exists c d o,
      counter "projectCompleted" projectId db' = Some (js_nat c) /\
      counter "projectDelayed" projectId db' = Some (js_nat d) /\
      counter "projectsOnTrack" projectId db' = Some (js_nat o) /\
      c = List.length (filter (has_status "completed") mine) /\
      d = List.length (filter (has_status "delayed") mine) /\
      o = List.length (filter (has_status "ongoing") mine) /\
      c + d + o
      = List.length
          (filter (fun b => recognized_status (obj_get "status" b)) mine).
Proof.
  intros ctx projectId userId db r db' Ht H mine.
  apply recalc_success in H.
  destruct H as (_ & _ & _ & rows & Hp & ->).
  assert (Hm : mine = children projectId db).
  { unfold mine. fold (children projectId
      (journal_add (W_patch projectId) (with_table (id_table projectId) rows db))).
    apply children_after_project_write. rewrite Ht. discriminate. }
  apply patch_rows_find in Hp; [|apply recalc_fields_keep_id].
  destruct Hp as (d0 & _ & Hf).
  destruct (count_status_fold (children projectId db) (mkCounts 0 0 0))
    as (Hc & Hd & Ho).
  fold (tally projectId db) in Hc, Hd, Ho. simpl in Hc, Hd, Ho.
  exists (completed (tally projectId db)), (delayed (tally projectId db)),
    (onTrack (tally projectId db)).
  unfold counter.
  replace (db_projects (journal_add (W_patch projectId)
             (with_table (id_table projectId) rows db))) with rows
    by (rewrite Ht; reflexivity).
  rewrite Hf. cbn [option_map].
  rewrite (obj_get_apply_patch "projectCompleted"),
    (obj_get_apply_patch "projectDelayed"),
    (obj_get_apply_patch "projectsOnTrack"). simpl.
  rewrite Hm, recognized_split. repeat split; lia.
Qed.

Lemma recalc_counters_match_recognized_children_witness :
  let db' := snd (recalculateProjectMetrics demo_ctx demo_project demo_user
                    demo_db) in
  let mine := filter (child_of demo_project) (db_govtProjectBreakdowns db') in
  exists c d o,
    counter "projectCompleted" demo_project db' = Some (js_nat c) /\
    counter "projectDelayed" demo_project db' = Some (js_nat d) /\
    counter "projectsOnTrack" demo_project db' = Some (js_nat o) /\
    c = List.length (filter (has_status "completed") mine) /\
    d = List.length (filter (has_status "delayed") mine) /\
    o = List.length (filter (has_status "ongoing") mine) /\
    c + d + o
    = List.length
        (filter (fun b => recognized_status (obj_get "status" b)) mine).
Proof.
  apply (recalc_counters_match_recognized_children demo_ctx demo_project
           demo_user demo_db (mkRecalc 4 (mkCounts 1 0 1))).
  - reflexivity.
  - vm_compute. reflexivity.
Defined.

Lemma recalc_counters_after ctx projectId userId db r db' :
  id_table projectId = T_projects ->
  recalculateProjectMetrics ctx projectId userId db = (Normal r, db') ->
  counter "projectCompleted" projectId db'
    = Some (js_nat (completed (tally projectId db))) /\
  counter "projectDelayed" projectId db'
    = Some (js_nat (delayed (tally projectId db))) /\
  counter "projectsOnTrack" projectId db'
    = Some (js_nat (onTrack (tally projectId db))) /\
  db_govtProjectBreakdowns db' = db_govtProjectBreakdowns db.
Proof.
  intros Ht H. apply recalc_success in H.
  destruct H as (_ & _ & _ & rows & Hp & ->).
  apply patch_rows_find in Hp; [|apply recalc_fields_keep_id].
  destruct Hp as (d0 & _ & Hf). unfold counter.
  replace (db_projects (journal_add (W_patch projectId)
             (with_table (id_table projectId) rows db))) with rows
    by (rewrite Ht; reflexivity).
  rewrite Hf. cbn [option_map].
  rewrite (obj_get_apply_patch "projectCompleted"),
    (obj_get_apply_patch "projectDelayed"),
    (obj_get_apply_patch "projectsOnTrack"). simpl.
  rewrite Ht. repeat split; reflexivity.
Qed.

(** C9.  The service is idempotent: a second call for the same parent, with
    nothing done to the breakdowns in between, returns the same result (the
    same count of breakdowns and the same three counters) and leaves the
    parent's three stored counters as the first call left them.  The
    second call may come from another actor at another time. *)
Theorem recalc_idempotent :
  forall ctx ctx' projectId userId userId' db r db',
    id_table projectId = T_projects ->
    (forall op, ctx_fault ctx' op = ctx_fault ctx op) ->
    recalculateProjectMetrics ctx projectId userId db = (Normal r, db') ->
    exists db'',
      recalculateProjectMetrics ctx' projectId userId' db' = (Normal r, db'') /\
      counter "projectCompleted" projectId db''
        = counter "projectCompleted" projectId db' /\
      counter "projectDelayed" projectId db''
        = counter "projectDelayed" projectId db' /\
      counter "projectsOnTrack" projectId db''
        = counter "projectsOnTrack" projectId db'.
Proof.
  intros ctx ctx' projectId userId userId' db r db' Ht Hfault H.
  destruct (recalc_counters_after _ _ _ _ _ _ Ht H) as (C1 & C2 & C3 & Hb).
  apply recalc_success in H.
  destruct H as (Fq & Fp & -> & rows & Hp & ->).
  set (db1 := journal_add (W_patch projectId)
                (with_table (id_table projectId) rows db)) in *.
  assert (Hch : children projectId db1 = children projectId db)
    by (unfold children; now rewrite Hb).
  assert (Hta : tally projectId db1 = tally projectId db)
    by (unfold tally; now rewrite Hch).
  apply patch_rows_find in Hp; [|apply recalc_fields_keep_id].
  destruct Hp as (d0 & _ & Hf).
  destruct (patch_rows_some projectId
              (recalc_fields ctx' userId' (tally projectId db)) rows _ Hf)
    as [rows2 Hp2].
  assert (Hrun : recalculateProjectMetrics ctx' projectId userId' db1
                 = (Normal (mkRecalc (List.length (children projectId db))
                                     (tally projectId db)),
                    journal_add (W_patch projectId)
                      (with_table (id_table projectId) rows2 db1))).
  { rewrite recalculateProjectMetrics_unfold, !Hfault, Fq, Fp, Hta, Hch.
    replace (table_of (id_table projectId) db1) with rows.
    - now rewrite Hp2.
    - unfold db1. rewrite table_of_journal_add, table_of_with_table.
      now rewrite Table_eqb_refl. }
  eexists. split; [exact Hrun|].
  destruct (recalc_counters_after _ _ _ _ _ _ Ht Hrun) as (D1 & D2 & D3 & _).
  rewrite C1, C2, C3, D1, D2, D3, Hta. repeat split; reflexivity.
Qed.

Lemma recalc_idempotent_witness :
  let ctx' := mkCtx None 250%Q (fun _ => false) in
  let r := mkRecalc 4 (mkCounts 1 0 1) in
  let db' := snd (recalculateProjectMetrics demo_ctx demo_project demo_user
                    demo_db) in
  exists db'',
    recalculateProjectMetrics ctx' demo_project (mkId T_users 8) db'
      = (Normal r, db'') /\
    counter "projectCompleted" demo_project db''
      = counter "projectCompleted" demo_project db' /\
    counter "projectDelayed" demo_project db''
      = counter "projectDelayed" demo_project db' /\
    counter "projectsOnTrack" demo_project db''
      = counter "projectsOnTrack" demo_project db'.
Proof.
  apply (recalc_idempotent demo_ctx (mkCtx None 250%Q (fun _ => false))
           demo_project demo_user (mkId T_users 8) demo_db).
  - reflexivity.
  - reflexivity.
  - vm_compute. reflexivity.
Defined.

(** ** The activity logger *)

(** C3.  [logProjectActivity] returns normally on every input and in every
    store: also when the store fails the read of the actor, when the actor
    id resolves to no user, and when the store fails the insertion of the
    activity record.  In those three cases the store is left as it was; in
    every case no table other than [projectActivities] is touched, and
    whatever the caller does next runs, from the store the logger left. *)
Theorem logProjectActivity_never_throws :
  forall ctx userId config db,
  exists db',
    logProjectActivity ctx userId config db = (Normal tt, db') /\
    (forall t, t <> T_projectActivities -> table_of t db' = table_of t db) /\
    (ctx_fault ctx (Op_get (id_table userId)) = true \/
     find_doc userId (table_of (id_table userId) db) = None \/
     ctx_fault ctx (Op_insert T_projectActivities) = true ->
     db' = db) /\
    (forall (A : Type) (rest : unit -> M A),
        (x <- logProjectActivity ctx userId config ;; rest x) db
        = rest tt db').
Proof.
  intros ctx userId config db.
  unfold logProjectActivity, try_catch, logProjectActivity_body, db_get,
    db_insert, guard_fault, bind, throw, ret.
  destruct (ctx_fault ctx (Op_get (id_table userId))) eqn:Fg.
  { exists db. repeat split; auto. }
  destruct (find_doc userId (table_of (id_table userId) db)) as [user|] eqn:Fu.
  2:{ exists db. repeat split; auto. }
  destruct (ctx_fault ctx (Op_insert T_projectActivities)) eqn:Fi.
  { exists db. repeat split; auto. }
  eexists. split; [reflexivity|]. split; [|split].
  - intros t Ht. rewrite table_of_journal_add, table_of_bump_next.
    destruct t; try reflexivity. congruence.
  - intros [H|[H|H]]; discriminate.
  - reflexivity.
Qed.

Section InsertionOrderedSets.
Context {A : Type} (eqb : A -> A -> bool).
Hypothesis eqb_eq : forall a b, eqb a b = true <-> a = b.

Lemma existsb_eqb_In (x : A) (s : list A) :
  existsb (eqb x) s = true <-> In x s.
Proof.
  rewrite existsb_exists. split.
  - intros (y & Hy & E). apply eqb_eq in E. now subst.
  - intro H. exists x. split; [assumption|]. now apply eqb_eq.
Qed.

Lemma set_add_In (x y : A) (s : list A) :
  In y (set_add eqb x s) <-> y = x \/ In y s.
Proof.
  unfold set_add. destruct (existsb (eqb x) s) eqn:E.
  - apply existsb_eqb_In in E. split; [auto|]. intros [->|H]; assumption.
  - rewrite in_app_iff. simpl. intuition congruence.
Qed.

Lemma set_add_NoDup (x : A) (s : list A) :
  NoDup s -> NoDup (set_add eqb x s).
Proof.
  intro H. unfold set_add. destruct (existsb (eqb x) s) eqn:E; [assumption|].
  assert (Hx : ~ In x s).
  { intro Hin. apply existsb_eqb_In in Hin. congruence. }
  clear E. induction H as [|a l Ha Hl IH]; simpl.
  - constructor; [intros []|constructor].
  - constructor.
    + rewrite in_app_iff. simpl. intros [H1|[H1|[]]]; [contradiction|].
      subst. apply Hx. now left.
    + apply IH. intro H1. apply Hx. now right.
Qed.

Lemma set_fold_In (l acc : list A) (y : A) :
  In y (fold_left (fun s x => set_add eqb x s) l acc) <-> In y l \/ In y acc.
Proof.
  revert acc. induction l as [|x l IH]; intro acc; simpl.
  - tauto.
  - rewrite IH, set_add_In. intuition congruence.
Qed.

Lemma set_fold_NoDup (l acc : list A) :
  NoDup acc -> NoDup (fold_left (fun s x => set_add eqb x s) l acc).
Proof.
  revert acc. induction l as [|x l IH]; intros acc H; simpl; [assumption|].
  apply IH. now apply set_add_NoDup.
Qed.

Lemma set_of_list_In (l : list A) (y : A) :
  In y (set_of_list eqb l) <-> In y l.
Proof. unfold set_of_list. rewrite set_fold_In. simpl. tauto. Qed.

Lemma set_of_list_NoDup (l : list A) : NoDup (set_of_list eqb l).
Proof. apply set_fold_NoDup. constructor. Qed.
End InsertionOrderedSets.

Lemma includes_In (xs : list string) (x : string) :
  includes xs x = true <-> In x xs.
Proof. apply existsb_eqb_In. apply String.eqb_eq. Qed.

Lemma serialized_differ_iff (a b : JsValue) :
  serialized_differ a b = true <-> stringify a <> stringify b.
Proof.
  unfold serialized_differ, option_string_eqb.
  destruct (stringify a) as [x|], (stringify b) as [y|]; simpl.
  - destruct (String.eqb x y) eqn:E; simpl.
    + apply String.eqb_eq in E. subst. split; [discriminate|congruence].
    + apply String.eqb_neq in E. split; [congruence|reflexivity].
  - split; [discriminate|reflexivity].
  - split; [discriminate|reflexivity].
  - split; [discriminate|congruence].
Qed.

Lemma push_if_fold {A} (keep : A -> bool) (l acc : list A) :
  fold_left (fun out x => if keep x then out ++ [x] else out) l acc
  = acc ++ filter keep l.
Proof.
  revert acc. induction l as [|x l IH]; intro acc; simpl.
  - now rewrite app_nil_r.
  - rewrite IH. destruct (keep x); [|reflexivity].
    now rewrite <- app_assoc.
Qed.

Lemma fold_left_pointwise {A B} (f g : A -> B -> A) (l : list B) (a : A) :
  (forall a x, f a x = g a x) -> fold_left f l a = fold_left g l a.
Proof.
  intro H. revert a. induction l as [|x l IH]; intro a; simpl; [reflexivity|].
  now rewrite H, IH.
Qed.

(** The loop of the diff is a filter over the union of the keys. *)
Lemma diff_changed_fields_filter (skip : list string) (prev new : Obj) :
  diff_changed_fields skip prev new
  = filter (fun key => negb (includes skip key)
                       && serialized_differ (obj_get key prev) (obj_get key new))
           (set_of_list String.eqb (object_keys prev ++ object_keys new)).
Proof.
  unfold diff_changed_fields.
  rewrite <- (app_nil_l (filter _ _)), <- push_if_fold.
  apply fold_left_pointwise. intros out key.
  destruct (includes skip key); reflexivity.
Qed.

Lemma diff_changed_fields_spec (skip : list string) (prev new : Obj) :
  NoDup (diff_changed_fields skip prev new) /\
  forall key,
    In key (diff_changed_fields skip prev new) <->
    (In key (object_keys prev) \/ In key (object_keys new)) /\
    ~ In key skip /\
    stringify (obj_get key prev) <> stringify (obj_get key new).
Proof.
  rewrite diff_changed_fields_filter. split.
  - apply NoDup_filter, set_of_list_NoDup, String.eqb_eq.
  - intro key.
    rewrite filter_In, (set_of_list_In _ String.eqb_eq), in_app_iff,
      andb_true_iff, negb_true_iff, serialized_differ_iff.
    rewrite <- (includes_In skip key).
    destruct (includes skip key); split; intros (H1 & H2 & H3);
      repeat split; auto; try discriminate; try congruence.
Qed.

Lemma statusChanged_iff (changedFields : list string) (prev new : Obj) :
  obj_get "statusChanged" (project_change_summary changedFields prev new)
    = JBool true
  <-> In "status" changedFields.
Proof.
  rewrite <- (includes_In changedFields "status"). unfold project_change_summary.
  destruct (includes changedFields "totalBudgetAllocated"),
    (includes changedFields "targetDateCompletion"),
    (includes changedFields "projectManagerId"),
    (includes changedFields "status"),
    (includes changedFields "categoryId"); simpl;
    split; (reflexivity || discriminate).
Qed.



(** ** Stepping through handlers *)

Lemma bind_Normal {A B} (m : M A) (k : A -> M B) db r db' :
  bind m k db = (Normal r, db') ->
  exists a db1, m db = (Normal a, db1) /\ k a db1 = (Normal r, db').
Proof.
  unfold bind. destruct (m db) as [[a|e] db1]; [eauto|discriminate].
Qed.

Lemma ret_Normal {A} (a r : A) db db' :
  ret a db = (Normal r, db') -> r = a /\ db' = db.
Proof. unfold ret. intro H. inversion H. auto. Qed.

Lemma mutation_Normal {A} args (handler : Ctx -> Obj -> M A) ctx a db r db' :
  mutation args handler ctx a db = (Normal r, db') ->
  validates (v_object args) (JObj a) = true /\
  handler ctx a db = (Normal r, db').
Proof.
  unfold mutation. destruct (validates (v_object args) (JObj a));
    [|discriminate].
  destruct (handler ctx a db) as [[x|e] db1]; [|discriminate].
  intro H. inversion H. auto.
Qed.

Lemma require_user_Normal ctx db u db' :
  require_user ctx db = (Normal u, db') -> ctx_auth ctx = Some u /\ db' = db.
Proof.
  unfold require_user. destruct (ctx_auth ctx); unfold ret, throw; intro H;
    inversion H; auto.
Qed.

Lemma db_get_Normal ctx i db o db' :
  db_get ctx i db = (Normal o, db') ->
  db' = db /\ o = find_doc i (table_of (id_table i) db).
Proof.
  unfold db_get, guard_fault, bind, throw, ret.
  destruct (ctx_fault ctx (Op_get (id_table i))); intro H; inversion H; auto.
Qed.

Lemma db_patch_Normal ctx i fields db u db' :
  db_patch ctx i fields db = (Normal u, db') ->
  exists rows,
    patch_rows i fields (table_of (id_table i) db) = Some rows /\
    db' = journal_add (W_patch i) (with_table (id_table i) rows db).
Proof.
  unfold db_patch, guard_fault, bind, throw, ret.
  destruct (ctx_fault ctx (Op_patch (id_table i))); [discriminate|].
  destruct (patch_rows i fields (table_of (id_table i) db)) as [rows|];
    [|discriminate].
  intro H. inversion H. eauto.
Qed.

Lemma db_insert_Normal ctx t fields db i db' :
  db_insert ctx t fields db = (Normal i, db') ->
  i = mkId t (db_next db) /\
  db' = journal_add (W_insert i)
          (bump_next
             (with_table t
                (table_of t db
                   ++ [("_id", JId i) :: ("_creationTime", JNum (ctx_now ctx))
                         :: strip_undefined fields]) db)).
Proof.
  unfold db_insert, guard_fault, bind, throw, ret.
  destruct (ctx_fault ctx (Op_insert t)); [discriminate|].
  intro H. inversion H. auto.
Qed.

Lemma db_delete_Normal ctx i db u db' :
  db_delete ctx i db = (Normal u, db') ->
  exists rows,
    delete_rows i (table_of (id_table i) db) = Some rows /\
    db' = journal_add (W_delete i) (with_table (id_table i) rows db).
Proof.
  unfold db_delete, guard_fault, bind, throw, ret.
  destruct (ctx_fault ctx (Op_delete (id_table i))); [discriminate|].
  destruct (delete_rows i (table_of (id_table i) db)) as [rows|];
    [|discriminate].
  intro H. inversion H. eauto.
Qed.

Lemma verify_parent_Normal ctx v db u db' :
  verify_parent ctx v db = (Normal u, db') ->
  db' = db /\
  forall pid, as_id v = Some pid ->
              find_doc pid (table_of (id_table pid) db) <> None.
Proof.
  unfold verify_parent. destruct (as_id v) as [pid|].
  - intro H. apply bind_Normal in H. destruct H as (o & db1 & Hg & Hk).
    apply db_get_Normal in Hg. destruct Hg as [-> ->].
    destruct (find_doc pid (table_of (id_table pid) db)) eqn:E;
      [|discriminate].
    apply ret_Normal in Hk. destruct Hk as [_ ->]. split; [reflexivity|].
    intros p Hp. inversion Hp; subst. congruence.
  - intro H. apply ret_Normal in H. destruct H as [_ ->].
    split; [reflexivity|discriminate].
Qed.

(** The logger of the breakdown mutations returns normally and writes to
    its own table only. *)
Lemma logGovtProjectActivity_total ctx userId config db :
  exists db',
    logGovtProjectActivity ctx userId config db = (Normal tt, db') /\
    (forall t, t <> T_govtProjectActivities ->
               table_of t db' = table_of t db) /\
    exists ws, db_journal db' = db_journal db ++ ws /\
               Forall (fun w => exists i, w = W_insert i /\
                                          id_table i = T_govtProjectActivities)
                      ws.
Proof.
  unfold logGovtProjectActivity, try_catch, db_get, db_insert, guard_fault,
    bind, throw, ret.
  destruct (ctx_fault ctx (Op_get (id_table userId))).
  { exists db. repeat split; auto. exists []. now rewrite app_nil_r. }
  destruct (find_doc userId (table_of (id_table userId) db)) as [user|].
  2:{ exists db. repeat split; auto. exists []. now rewrite app_nil_r. }
  destruct (ctx_fault ctx (Op_insert T_govtProjectActivities)).
  { exists db. repeat split; auto. exists []. now rewrite app_nil_r. }
  eexists. split; [reflexivity|]. split.
  - intros t Ht. rewrite table_of_journal_add, table_of_bump_next.
    destruct t; try reflexivity. congruence.
  - eexists. split; [reflexivity|]. constructor; [|constructor].
    eexists. split; reflexivity.
Qed.

(** ** Validators *)

Lemma forallb_pointwise {A} (f g : A -> bool) (l : list A) :
  (forall x, f x = g x) -> forallb f l = forallb g l.
Proof.
  intro H. induction l as [|x l IH]; simpl; [reflexivity|].
  now rewrite H, IH.
Qed.

Lemma validates_object_unfold (fields : list (string * Validator)) (a : Obj) :
  validates (v_object fields) (JObj a)
  = forallb (fun kv => match lookup_validator (fst kv) fields with
                       | Some v => validates v (snd kv)
                       | None => false
                       end) a
    && forallb (fun kv => is_optional (snd kv) || obj_has (fst kv) a) fields
    && distinct_keys a.
Proof.
  cbn [validates]. do 2 f_equal. apply forallb_pointwise. intros [k x].
  cbn [fst snd].
  induction fields as [|[k' v'] fields IH]; cbn [lookup_validator];
    [reflexivity|].
  destruct (String.eqb k k'); [reflexivity|exact IH].
Qed.


Lemma validates_entry fields a k x :
  validates (v_object fields) (JObj a) = true ->
  In (k, x) a ->
  exists v, lookup_validator k fields = Some v /\ validates v x = true.
Proof.
  rewrite validates_object_unfold, !andb_true_iff. intros [[H _] _] Hin.
  rewrite forallb_forall in H. specialize (H _ Hin). cbn [fst snd] in H.
  destruct (lookup_validator k fields) as [v|]; [eauto|discriminate].
Qed.

Lemma obj_get_In (k : string) (o : Obj) :
  obj_get k o <> JUndefined -> In (k, obj_get k o) o.
Proof.
  induction o as [|[k' v] o IH]; simpl; [congruence|].
  destruct (String.eqb k k') eqn:E.
  - apply String.eqb_eq in E. subst. now left.
  - intro H. right. now apply IH.
Qed.

Lemma obj_get_key (k : string) (o : Obj) :
  obj_get k o <> JUndefined -> In k (object_keys o).
Proof.
  intro H. apply obj_get_In in H. unfold object_keys.
  change k with (fst (k, obj_get k o)). now apply in_map.
Qed.

Lemma In_obj_set (e : string * JsValue) k v (o : Obj) :
  In e (obj_set k v o) -> e = (k, v) \/ In e o.
Proof.
  induction o as [|[k' v'] o IH]; simpl.
  - intros [H|[]]; auto.
  - destruct (String.eqb k k') eqn:E; simpl.
    + apply String.eqb_eq in E. subst. intros [H|H]; auto.
    + intros [H|H]; auto. destruct (IH H); auto.
Qed.

Lemma In_obj_spread (e : string * JsValue) (a b : Obj) :
  In e (obj_spread a b) -> In e a \/ In e b.
Proof.
  unfold obj_spread. revert a.
  induction b as [|[k v] b IH]; intro a; simpl; [auto|].
  intro H. destruct (IH _ H) as [H1|H1]; [|auto].
  destruct (In_obj_set _ _ _ _ H1); auto.
Qed.

Lemma In_obj_remove (e : string * JsValue) k (o : Obj) :
  In e (obj_remove k o) -> In e o.
Proof. unfold obj_remove. intro H. now apply filter_In in H. Qed.

Lemma last_assigned_In k (fields : Obj) v :
  last_assigned k fields = Some v -> In (k, v) fields.
Proof.
  induction fields as [|[k' v'] fields IH]; simpl; [discriminate|].
  destruct (last_assigned k fields) as [w|].
  - intro H. inversion H; subst. right. now apply IH.
  - destruct (String.eqb k k') eqn:E; [|discriminate].
    apply String.eqb_eq in E. subst. intro H. inversion H. now left.
Qed.

Lemma In_key (k : string) (v : JsValue) (o : Obj) :
  In (k, v) o -> In k (object_keys o).
Proof.
  intro H. unfold object_keys. change k with (fst (k, v)). now apply in_map.
Qed.

Lemma keys_obj_set k k' v (o : Obj) :
  In k (object_keys o) -> In k (object_keys (obj_set k' v o)).
Proof.
  induction o as [|[k0 v0] o IH]; simpl; [intros []|].
  destruct (String.eqb k' k0); simpl; intros [H|H]; auto.
Qed.

Lemma keys_obj_spread_l k (a b : Obj) :
  In k (object_keys a) -> In k (object_keys (obj_spread a b)).
Proof.
  unfold obj_spread. revert a.
  induction b as [|[k' v] b IH]; intros a H; simpl; [assumption|].
  apply IH. now apply keys_obj_set.
Qed.

Lemma keys_obj_remove k k' (o : Obj) :
  k <> k' -> In k (object_keys o) -> In k (object_keys (obj_remove k' o)).
Proof.
  intros Hne. unfold obj_remove, object_keys. rewrite !in_map_iff.
  intros ([k0 v0] & Hk & Hin). simpl in Hk. subst k0.
  exists (k, v0). split; [reflexivity|]. apply filter_In. split; [assumption|].
  simpl. apply negb_true_iff. apply String.eqb_neq. congruence.
Qed.

(** ** The breakdown mutations *)

Lemma find_doc_In (i : Id) (rows : list Obj) (d : Obj) :
  find_doc i rows = Some d -> In d rows.
Proof. intro H. now apply find_some in H. Qed.

Lemma track_project_typed (v : JsValue) (s : list Id) :
  (forall p, v = JId p -> id_table p = T_projects) ->
  Forall (fun p => id_table p = T_projects) s ->
  Forall (fun p => id_table p = T_projects) (track_project v s).
Proof.
  intros Hv Hs. unfold track_project. destruct v; simpl; try assumption.
  unfold set_add. destruct (existsb (Id_eqb i) s); [assumption|].
  apply Forall_app. split; [assumption|].
  constructor; [now apply Hv|constructor].
Qed.

Lemma recalculate_each_Normal ctx ids userId db u db' :
  recalculate_each ctx ids userId db = (Normal u, db') ->
  db_journal db' = db_journal db ++ map W_patch ids /\
  (Forall (fun p => id_table p = T_projects) ids ->
   db_govtProjectBreakdowns db' = db_govtProjectBreakdowns db).
Proof.
  unfold recalculate_each. revert db.
  induction ids as [|p ids IH]; intros db H; cbn [for_each] in H.
  - apply ret_Normal in H. destruct H as [_ ->]. simpl.
    now rewrite app_nil_r.
  - apply bind_Normal in H. destruct H as (x & db1 & H1 & H2).
    apply bind_Normal in H1. destruct H1 as (r & db2 & H1 & H3).
    apply ret_Normal in H3. destruct H3 as [_ ->].
    apply recalc_success in H1. destruct H1 as (_ & _ & _ & rows & _ & ->).
    destruct (IH _ H2) as [Hj Hb]. split.
    + rewrite Hj. cbn [map]. unfold journal_add at 1. cbn [db_journal].
      rewrite journal_with_table, <- app_assoc. reflexivity.
    + intro Hall. inversion Hall as [|? ? Hp Hrest]; subst.
      rewrite (Hb Hrest). rewrite Hp. reflexivity.
Qed.

Lemma updateProjectBreakdown_args_no_id :
  lookup_validator "_id" updateProjectBreakdown_args = None.
Proof. reflexivity. Qed.

Lemma update_patch_origin ctx userId args k v :
  In (k, v) (update_patch ctx userId args) ->
  In (k, v) args \/ k = "updatedAt" \/ k = "updatedBy".
Proof.
  intro Hin. apply In_obj_spread in Hin. destruct Hin as [Hin|Hin].
  - left. now apply In_obj_remove, In_obj_remove in Hin.
  - right. simpl in Hin. destruct Hin as [Hin|[Hin|[]]]; inversion Hin; auto.
Qed.

Lemma valid_projectId_typed args_validator args :
  lookup_validator "projectId" args_validator
    = Some (v_optional (v_id T_projects)) ->
  validates (v_object args_validator) (JObj args) = true ->
  forall p, obj_get "projectId" args = JId p -> id_table p = T_projects.
Proof.
  intros Hl Hval p E.
  assert (Hin : In ("projectId", JId p) args).
  { rewrite <- E. apply obj_get_In. rewrite E. discriminate. }
  destruct (validates_entry _ _ _ _ Hval Hin) as (v & Hl' & Hv).
  rewrite Hl in Hl'. inversion Hl'; subst. simpl in Hv.
  now apply Table_eqb_eq.
Qed.

(** A successful [updateProjectBreakdown] leaves the row as the patch made
    it: logging and recalculation do not write to the breakdowns. *)
Lemma updateProjectBreakdown_effect ctx args db r db' :
  breakdown_links_typed db ->
  updateProjectBreakdown ctx args db = (Normal r, db') ->
  validates (v_object updateProjectBreakdown_args) (JObj args) = true /\
  exists userId prev,
    find_doc r (db_govtProjectBreakdowns db) = Some prev /\
    find_doc r (db_govtProjectBreakdowns db')
      = Some (apply_patch (update_patch ctx userId args) prev).
Proof.
  intros Hty H.
  apply mutation_Normal in H. destruct H as [Hval H]. split; [exact Hval|].
  unfold updateProjectBreakdown_handler in H.
  apply bind_Normal in H. destruct H as (userId & db1 & Hu & H).
  apply require_user_Normal in Hu. destruct Hu as [_ ->].
  destruct (as_id (obj_get "breakdownId" args)) as [bid|] eqn:Ebid;
    [|discriminate].
  assert (Hbid : id_table bid = T_govtProjectBreakdowns).
  { destruct (obj_get "breakdownId" args) eqn:E; try discriminate.
    inversion Ebid; subst.
    assert (Hin : In ("breakdownId", JId bid) args).
    { rewrite <- E. apply obj_get_In. rewrite E. discriminate. }
    destruct (validates_entry _ _ _ _ Hval Hin) as (v & Hl & Hv).
    inversion Hl; subst. simpl in Hv. now apply Table_eqb_eq. }
  apply bind_Normal in H. destruct H as (previous & db1 & Hg & H).
  apply db_get_Normal in Hg. destruct Hg as [-> ->]. rewrite Hbid in H.
  cbn [table_of] in H.
  destruct (find_doc bid (db_govtProjectBreakdowns db)) as [prev|] eqn:Eprev;
    [|discriminate].
  apply bind_Normal in H. destruct H as (x & db1 & Hv & H).
  apply verify_parent_Normal in Hv. destruct Hv as [-> _].
  apply bind_Normal in H. destruct H as (x1 & db1 & Hp & H).
  apply db_patch_Normal in Hp. destruct Hp as (rows & Hp & ->).
  rewrite Hbid in Hp. cbn [table_of] in Hp.
  fold (update_patch ctx userId args) in Hp.
  assert (Hnoid : ~ In "_id" (object_keys (update_patch ctx userId args))).
  { intro Hin. unfold object_keys in Hin. apply in_map_iff in Hin.
    destruct Hin as ([k v] & Hk & Hin). simpl in Hk. subst k.
    destruct (update_patch_origin _ _ _ _ _ Hin) as [Ha|[Ha|Ha]];
      try discriminate.
    destruct (validates_entry _ _ _ _ Hval Ha) as (v0 & Hl & _).
    rewrite updateProjectBreakdown_args_no_id in Hl. discriminate. }
  destruct (patch_rows_find _ _ _ _ Hnoid Hp) as (d & Hd & Hnew).
  rewrite Eprev in Hd. inversion Hd; subst d. clear Hd.
  apply bind_Normal in H. destruct H as (updated & db1 & Hg & H).
  apply db_get_Normal in Hg. destruct Hg as [-> _].
  apply bind_Normal in H. destruct H as (x2 & db2 & Hlog & H).
  destruct (logGovtProjectActivity_total ctx userId
              (mkGovtProjectLogConfig "updated" bid updated (Some prev) updated
                 "web_ui" (as_string (obj_get "reason" args)) None)
              (journal_add (W_patch bid) (with_table (id_table bid) rows db)))
    as (dbl & Hlog' & Hframe & _).
  rewrite Hlog' in Hlog. inversion Hlog; subst db2. clear Hlog Hlog'.
  apply bind_Normal in H. destruct H as (x3 & db3 & Hrec & H).
  apply ret_Normal in H. destruct H as [-> ->].
  assert (Hargp : forall p, obj_get "projectId" args = JId p ->
                            id_table p = T_projects)
    by (apply (valid_projectId_typed updateProjectBreakdown_args);
        [reflexivity|assumption]).
  assert (Hprevp : forall p, obj_get "projectId" prev = JId p ->
                             id_table p = T_projects).
  { unfold breakdown_links_typed in Hty. rewrite Forall_forall in Hty.
    apply Hty. eapply find_doc_In; eassumption. }
  apply recalculate_each_Normal in Hrec. destruct Hrec as [_ Hb].
  rewrite Hb.
  2:{ apply track_project_typed; [assumption|].
      destruct (negb _); [|constructor].
      apply track_project_typed; [assumption|constructor]. }
  replace (db_govtProjectBreakdowns dbl) with rows.
  2:{ change (db_govtProjectBreakdowns dbl)
        with (table_of T_govtProjectBreakdowns dbl).
      rewrite Hframe by discriminate.
      rewrite table_of_journal_add, table_of_with_table, Hbid. reflexivity. }
  exists userId, prev. split; [exact Eprev|exact Hnew].
Qed.

(** C10.  [updateProjectBreakdown] cannot clear a parent link.  After a
    successful call the row keeps, for every field that the call leaves
    out (the audit fields [updatedAt] and [updatedBy] apart, which every
    call writes), the value it had; so a call without [projectId] leaves
    the link as it was.  A call with [projectId] stores an id, there being
    no argument that the validators accept and that stands for "no
    parent"; hence a row that had a parent has one afterwards. *)
Theorem update_never_clears_parent_link :
  forall ctx args db r db',
    breakdown_links_typed db ->
    updateProjectBreakdown ctx args db = (Normal r, db') ->
    exists prev new,
      find_doc r (db_govtProjectBreakdowns db) = Some prev /\
      find_doc r (db_govtProjectBreakdowns db') = Some new /\
      (forall field,
          ~ In field (object_keys args) ->
          field <> "updatedAt" -> field <> "updatedBy" ->
          obj_get field new = obj_get field prev) /\
      (~ In "projectId" (object_keys args) ->
       obj_get "projectId" new = obj_get "projectId" prev) /\
      (In "projectId" (object_keys args) ->
       exists p, obj_get "projectId" new = JId p) /\
      (obj_get "projectId" prev <> JUndefined ->
       obj_get "projectId" new <> JUndefined).
Proof.
  intros ctx args db r db' Hty H.
  destruct (updateProjectBreakdown_effect _ _ _ _ _ Hty H)
    as (Hval & userId & prev & Eprev & Hnew).
  set (fields := update_patch ctx userId args) in *.
  exists prev, (apply_patch fields prev).
  split; [exact Eprev|]. split; [exact Hnew|].
  assert (Hframe_field : forall field,
            ~ In field (object_keys args) ->
            field <> "updatedAt" -> field <> "updatedBy" ->
            obj_get field (apply_patch fields prev) = obj_get field prev).
  { intros field Hout Hn1 Hn2. rewrite obj_get_apply_patch.
    destruct (last_assigned field fields) as [v|] eqn:E; [|reflexivity].
    apply last_assigned_In in E.
    destruct (update_patch_origin _ _ _ _ _ E) as [Ha|[Ha|Ha]];
      try contradiction.
    exfalso. apply Hout. eapply In_key; eassumption. }
  assert (Hsupplied : forall v, last_assigned "projectId" fields = Some v ->
                                exists p, v = JId p).
  { intros v E. apply last_assigned_In in E.
    destruct (update_patch_origin _ _ _ _ _ E) as [Ha|[Ha|Ha]];
      try discriminate.
    destruct (validates_entry _ _ _ _ Hval Ha) as (v0 & Hl & Hv).
    inversion Hl; subst. destruct v; try discriminate. eauto. }
  split; [exact Hframe_field|]. split; [|split].
  - intro Hout. apply Hframe_field; [assumption|discriminate|discriminate].
  - intro Hin. rewrite obj_get_apply_patch.
    destruct (last_assigned "projectId" fields) as [v|] eqn:E.
    + now apply Hsupplied.
    + exfalso. apply last_assigned_none in E. apply E.
      unfold fields, update_patch. apply keys_obj_spread_l.
      apply keys_obj_remove; [discriminate|].
      apply keys_obj_remove; [discriminate|assumption].
  - intro Hprev. rewrite obj_get_apply_patch.
    destruct (last_assigned "projectId" fields) as [v|] eqn:E;
      [|assumption].
    destruct (Hsupplied _ eq_refl) as [p ->]. discriminate.
Qed.

Lemma update_never_clears_parent_link_witness :
  let r := mkId T_govtProjectBreakdowns 2 in
  let db' := snd (updateProjectBreakdown demo_ctx status_update linked_db) in
  exists prev new,
    find_doc r (db_govtProjectBreakdowns linked_db) = Some prev /\
    find_doc r (db_govtProjectBreakdowns db') = Some new /\
    (forall field,
        ~ In field (object_keys status_update) ->
        field <> "updatedAt" -> field <> "updatedBy" ->
        obj_get field new = obj_get field prev) /\
    (~ In "projectId" (object_keys status_update) ->
     obj_get "projectId" new = obj_get "projectId" prev) /\
    (In "projectId" (object_keys status_update) ->
     exists p, obj_get "projectId" new = JId p) /\
    (obj_get "projectId" prev <> JUndefined ->
     obj_get "projectId" new <> JUndefined).
Proof.
  apply (update_never_clears_parent_link demo_ctx status_update linked_db).
  - repeat constructor. simpl. intros p H. inversion H. reflexivity.
  - vm_compute. reflexivity.
Defined.







(** ** The aggregation engine: the aggregate functions *)

















(** ** The aggregation engine: persistence *)















Lemma has_id_iff (i : Id) (d : Obj) :
  has_id i d = true <-> obj_get "_id" d = JId i.
Proof.
  unfold has_id. split.
  - destruct (obj_get "_id" d); simpl; try discriminate.
    intro H. apply Id_eqb_eq in H. now subst.
  - intros ->. simpl. apply Id_eqb_refl.
Qed.





Lemma patch_rows_ids i fields rows rows' :
  ~ In "_id" (object_keys fields) ->
  patch_rows i fields rows = Some rows' ->
  map (obj_get "_id") rows' = map (obj_get "_id") rows.
Proof.
  intro Hk. revert rows'.
  induction rows as [|d0 rows IH]; simpl; intros rows' H; [discriminate|].
  destruct (has_id i d0).
  - inversion H; subst. simpl. f_equal.
    rewrite obj_get_apply_patch. apply last_assigned_none in Hk.
    now rewrite Hk.
  - destruct (patch_rows i fields rows) as [r|]; [|discriminate].
    inversion H; subst. simpl. f_equal. now apply IH.
Qed.

Lemma find_app_last {A} (p : A -> bool) (l : list A) (x : A) :
  find p l = None -> p x = true -> find p (l ++ [x]) = Some x.
Proof.
  induction l as [|y l IH]; simpl; intros Hn Hx.
  - now rewrite Hx.
  - destruct (p y); [discriminate|]. now apply IH.
Qed.









(** ** Bulk creation and the parent check *)

(** C8, the code at a dangling parent id.  The single-item create refuses
    the item with "Parent project not found" and writes nothing.  The loop
    of the bulk create makes no such check: it inserts the row with the
    dangling link.  The bulk handler then fails only in the recalculation,
    where the store rejects the patch of the missing parent, after the row
    and its activity record were written; the mutation as a whole is
    rolled back with that store error, not with "Parent project not
    found". *)
Lemma bulkCreate_misses_parent_check :
  let args : Obj := [("breakdowns", JArr [JObj dangling_item])] in
  find_doc dangling_project (db_projects demo_db) = None /\
  createProjectBreakdown demo_ctx dangling_item demo_db
    = (Throw (JsError "Parent project not found"), demo_db) /\
  (exists records affected db1,
      bulkCreate_loop demo_ctx demo_user [JObj dangling_item] demo_db
        = (Normal (records, affected), db1) /\
      affected = [dangling_project] /\
      exists row,
        db_govtProjectBreakdowns db1 = db_govtProjectBreakdowns demo_db ++ [row] /\
        obj_get "projectId" row = JId dangling_project) /\
  (exists db2,
      bulkCreateBreakdowns_handler demo_ctx args demo_db
        = (Throw (JsError "Update on nonexistent document"), db2) /\
      List.length (db_govtProjectBreakdowns db2)
        = S (List.length (db_govtProjectBreakdowns demo_db)) /\
      db_journal db2
        = [W_insert (mkId T_govtProjectBreakdowns 7);
           W_insert (mkId T_govtProjectActivities 8)]) /\
  bulkCreateBreakdowns demo_ctx args demo_db
    = (Throw (JsError "Update on nonexistent document"), demo_db).
Proof.
  split; [reflexivity|].
  split; [vm_compute; reflexivity|].
  split.
  { eexists _, _, _. split; [vm_compute; reflexivity|].
    split; [reflexivity|]. eexists. split; reflexivity. }
  split.
  { eexists. split; [vm_compute; reflexivity|]. split; reflexivity. }
  vm_compute. reflexivity.
Qed.

(** ** Bulk mutations *)

(** Loop invariants: [inv done s db] holds of the local state and of the
    store after the items [done] have been processed. *)
Lemma for_of_invariant {A S} (inv : list A -> S -> DB -> Prop)
    (body : S -> A -> M S) (xs : list A) :
  forall done s0 db0 s db,
    inv done s0 db0 ->
    (forall done x s db s' db',
        inv done s db -> In x xs -> body s x db = (Normal s', db') ->
        inv (done ++ [x]) s' db') ->
    for_of xs body s0 db0 = (Normal s, db) ->
    inv (done ++ xs) s db.
Proof.
  induction xs as [|x xs IH]; intros done s0 db0 s db H0 Hstep Hrun.
  - apply ret_Normal in Hrun. destruct Hrun as [-> ->].
    now rewrite app_nil_r.
  - cbn [for_of] in Hrun. apply bind_Normal in Hrun.
    destruct Hrun as (s1 & db1 & Hb & Hrest).
    replace (done ++ x :: xs) with ((done ++ [x]) ++ xs)
      by (now rewrite <- app_assoc).
    eapply IH; [| |exact Hrest].
    + eapply Hstep; [exact H0|now left|exact Hb].
    + intros done' y s' db' s'' db'' Hi Hy. apply Hstep; [exact Hi|now right].
Qed.

Lemma logBulkGovtProjectActivity_total ctx userId action records source reason db :
  exists batch db',
    logBulkGovtProjectActivity ctx userId action records source reason db
      = (Normal batch, db') /\
    (forall t, t <> T_govtProjectActivities ->
               table_of t db' = table_of t db) /\
    exists ws, db_journal db' = db_journal db ++ ws /\
               Forall activity_insert ws.
Proof.
  unfold logBulkGovtProjectActivity.
  set (batch := "batch_" +++ number_to_string (ctx_now ctx)).
  set (body := fun r => logGovtProjectActivity ctx userId _).
  assert (Hloop : exists db',
             for_each records body db = (Normal tt, db') /\
             (forall t, t <> T_govtProjectActivities ->
                        table_of t db' = table_of t db) /\
             exists ws, db_journal db' = db_journal db ++ ws /\
                        Forall activity_insert ws).
  { revert db.
    induction records as [|r records IH]; intro db; cbn [for_each].
    - exists db. repeat split; auto. exists []. split; [|constructor].
      now rewrite app_nil_r.
    - unfold body at 1.
      match goal with
      | |- context [logGovtProjectActivity ?c ?u ?cfg] =>
          destruct (logGovtProjectActivity_total c u cfg db)
            as (db1 & H1 & Hf1 & ws1 & Hj1 & Hw1)
      end.
      destruct (IH db1) as (db2 & H2 & Hf2 & ws2 & Hj2 & Hw2).
      exists db2. split; [|split].
      + unfold bind. rewrite H1. exact H2.
      + intros t Ht. rewrite Hf2, Hf1 by assumption. reflexivity.
      + exists (ws1 ++ ws2). split.
        * rewrite Hj2, Hj1. now rewrite app_assoc.
        * apply Forall_app. split; assumption. }
  destruct Hloop as (db' & Hrun & Hf & Hw).
  exists batch, db'. split; [|split; assumption].
  unfold bind. rewrite Hrun. reflexivity.
Qed.

(** What follows the item loop of a bulk mutation: the batch is logged,
    then every affected parent is recalculated, in the order of the set. *)
Lemma bulk_tail ctx userId action records source reason affected db1 r db' :
  (batchId <- logBulkGovtProjectActivity ctx userId action records source
                reason ;;
   recalculate_each ctx affected userId ;;;
   ret (mkBulkResult (List.length records) (map g_breakdownId records) batchId
          (List.length affected))) db1 = (Normal r, db') ->
  affectedProjects r = List.length affected /\
  exists log_writes,
    db_journal db' = db_journal db1 ++ log_writes ++ map W_patch affected /\
    Forall activity_insert log_writes.
Proof.
  intro H. apply bind_Normal in H. destruct H as (batch & db2 & Hlog & H).
  destruct (logBulkGovtProjectActivity_total ctx userId action records source
              reason db1) as (b' & db2' & Hlog' & _ & ws & Hj & Hws).
  rewrite Hlog' in Hlog. inversion Hlog; subst b' db2'. clear Hlog Hlog'.
  apply bind_Normal in H. destruct H as (u & db3 & Hrec & H).
  apply ret_Normal in H. destruct H as [-> ->].
  apply recalculate_each_Normal in Hrec. destruct Hrec as [Hj3 _].
  split; [reflexivity|]. exists ws. split; [|assumption].
  rewrite Hj3, Hj. now rewrite <- app_assoc.
Qed.

Lemma track_fold_parents_named (items : list JsValue) :
  forall acc,
    fold_left (fun s item => track_project (obj_get "projectId" (fields_of item)) s)
              items acc
    = fold_left (fun s x => set_add Id_eqb x s) (parents_named items) acc.
Proof.
  induction items as [|item items IH]; intro acc; [reflexivity|].
  unfold parents_named. cbn [flat_map fold_left]. rewrite fold_left_app.
  fold (parents_named items). rewrite IH. f_equal.
  unfold track_project.
  destruct (as_id (obj_get "projectId" (fields_of item))); reflexivity.
Qed.

Lemma track_project_NoDup (v : JsValue) (s : list Id) :
  NoDup s -> NoDup (track_project v s).
Proof.
  intro H. unfold track_project. destruct (as_id v); [|assumption].
  apply set_add_NoDup; [apply Id_eqb_eq|assumption].
Qed.

Lemma track_project_In (v : JsValue) (s : list Id) (p : Id) :
  In p (track_project v s) <-> v = JId p \/ In p s.
Proof.
  unfold track_project. destruct v; cbn [as_id];
    try (split; [auto|intros [H|H]; [discriminate|assumption]]).
  rewrite (set_add_In _ Id_eqb_eq). split.
  - intros [->|H]; auto.
  - intros [H|H]; [inversion H|]; auto.
Qed.

Lemma bulkCreate_loop_spec ctx userId items db0 records affected db1 :
  bulkCreate_loop ctx userId items db0 = (Normal (records, affected), db1) ->
  db_journal db1 = db_journal db0 ++ map W_insert (map g_breakdownId records) /\
  Forall (fun c => id_table (g_breakdownId c) = T_govtProjectBreakdowns) records /\
  affected = set_of_list Id_eqb (parents_named items).
Proof.
  intro H. unfold bulkCreate_loop in H.
  pose (inv := fun (done : list JsValue) (s : list GovtProjectLogConfig * list Id)
                   (db : DB) =>
    db_journal db = db_journal db0 ++ map W_insert (map g_breakdownId (fst s)) /\
    Forall (fun c => id_table (g_breakdownId c) = T_govtProjectBreakdowns) (fst s) /\
    snd s = fold_left
              (fun s item => track_project (obj_get "projectId" (fields_of item)) s)
              done []).
  assert (Hinv : inv ([] ++ items) (records, affected) db1).
  { eapply (for_of_invariant inv); [| |exact H].
    - unfold inv. cbn. repeat split; [now rewrite app_nil_r|constructor].
    - clear. intros done item [recs aff] db [recs' aff'] db' (Hj & Hty & Haff) _ Hb.
      cbn [fst snd] in *.
      apply bind_Normal in Hb. destruct Hb as (bid & dbi & Hi & Hb).
      apply db_insert_Normal in Hi. destruct Hi as [Hbid ->].
      apply bind_Normal in Hb. destruct Hb as (created & dbg & Hg & Hb).
      apply db_get_Normal in Hg. destruct Hg as [-> _].
      apply ret_Normal in Hb. destruct Hb as [Hs ->]. inversion Hs; subst recs' aff'.
      clear Hs. unfold inv. cbn [fst snd]. repeat split.
      + rewrite !map_app. cbn [map g_breakdownId].
        unfold journal_add at 1. cbn [db_journal].
        change (db_journal (bump_next ?d)) with (db_journal d).
        rewrite journal_with_table, Hj. now rewrite <- app_assoc.
      + apply Forall_app. split; [assumption|].
        constructor; [|constructor]. cbn. rewrite Hbid. reflexivity.
      + rewrite fold_left_app. cbn [fold_left]. now rewrite <- Haff. }
  destruct Hinv as (Hj & Hty & Haff). cbn [fst snd app] in *.
  repeat split; try assumption.
  rewrite Haff. unfold set_of_list. apply track_fold_parents_named.
Qed.

Lemma names_id_In (j : Id) (done : list JsValue) :
  names_id j done = true <-> In (JId j) done.
Proof.
  unfold names_id. rewrite existsb_exists. split.
  - intros (v & Hin & H). destruct v; cbn in H; try discriminate.
    apply Id_eqb_eq in H. now subst.
  - intro H. exists (JId j). split; [assumption|]. cbn. apply Id_eqb_refl.
Qed.

Lemma names_id_app (j : Id) (done : list JsValue) (v : JsValue) :
  names_id j (done ++ [v])
  = names_id j done
    || match as_id v with Some i => Id_eqb i j | None => false end.
Proof. unfold names_id. rewrite existsb_app. cbn. now rewrite orb_false_r. Qed.

Lemma distinct_keys_NoDup (o : Obj) :
  distinct_keys o = true -> NoDup (object_keys o).
Proof.
  induction o as [|[k v] o IH]; cbn; [constructor|].
  intro H. apply andb_true_iff in H. destruct H as [Hk Ho].
  constructor; [|now apply IH].
  intro Hin. apply negb_true_iff in Hk. unfold obj_has in Hk.
  assert (Hex : existsb (fun kv => String.eqb k (fst kv)) o = true).
  { apply existsb_exists. unfold object_keys in Hin. apply in_map_iff in Hin.
    destruct Hin as (kv & E & Hkv). exists kv. split; [assumption|].
    rewrite E. apply String.eqb_refl. }
  congruence.
Qed.

Lemma obj_get_of_In (k : string) (v : JsValue) (o : Obj) :
  NoDup (object_keys o) -> In (k, v) o -> obj_get k o = v.
Proof.
  induction o as [|[k' v'] o IH]; cbn; [intros _ []|].
  intros Hnd Hin. inversion Hnd as [|? ? Hnot Hnd']; subst.
  destruct Hin as [Hin|Hin].
  - inversion Hin; subst. now rewrite String.eqb_refl.
  - destruct (String.eqb k k') eqn:E; [|now apply IH].
    apply String.eqb_eq in E. subst. exfalso. apply Hnot.
    eapply In_key; eassumption.
Qed.

Lemma valid_object_keys fields (a : Obj) :
  validates (v_object fields) (JObj a) = true -> NoDup (object_keys a).
Proof.
  rewrite validates_object_unfold, !andb_true_iff. intros [_ H].
  now apply distinct_keys_NoDup.
Qed.

Lemma valid_array_elements args_validator (args : Obj) k element :
  lookup_validator k args_validator = Some (v_array element) ->
  validates (v_object args_validator) (JObj args) = true ->
  Forall (fun x => validates element x = true) (elements (obj_get k args)).
Proof.
  intros Hl Hval. destruct (obj_get k args) as [| | | | | |l|] eqn:E;
    try constructor.
  assert (Hin : In (k, JArr l) args).
  { rewrite <- E. apply obj_get_In. rewrite E. discriminate. }
  destruct (validates_entry _ _ _ _ Hval Hin) as (v & Hl' & Hv).
  rewrite Hl in Hl'. inversion Hl'; subst v. cbn [validates] in Hv.
  cbn [elements]. apply Forall_forall. now apply forallb_forall.
Qed.

Lemma find_doc_none_iff (j : Id) (rows : list Obj) :
  find_doc j rows = None <-> ~ In (JId j) (map (obj_get "_id") rows).
Proof.
  unfold find_doc. induction rows as [|d rows IH]; cbn; [tauto|].
  destruct (has_id j d) eqn:E.
  - apply has_id_iff in E. split; [discriminate|].
    intro H. exfalso. apply H. now left.
  - rewrite IH. split.
    + intros H [H1|H1]; [|contradiction].
      apply has_id_iff in H1. congruence.
    + intros H H1. apply H. now right.
Qed.

Lemma find_doc_same_ids (j : Id) (rows rows' : list Obj) :
  map (obj_get "_id") rows' = map (obj_get "_id") rows ->
  (find_doc j rows' = None <-> find_doc j rows = None).
Proof. intro H. rewrite !find_doc_none_iff, H. tauto. Qed.

Lemma delete_rows_find (i : Id) (rows rows' : list Obj) :
  NoDup (map (obj_get "_id") rows) ->
  delete_rows i rows = Some rows' ->
  NoDup (map (obj_get "_id") rows') /\
  forall j, find_doc j rows' = if Id_eqb j i then None else find_doc j rows.
Proof.
  revert rows'. induction rows as [|d rows IH]; cbn; intros rows' Hnd H;
    [discriminate|].
  inversion Hnd as [|? ? Hnot Hnd']; subst.
  destruct (has_id i d) eqn:E.
  - inversion H; subst. split; [assumption|]. intro j.
    apply has_id_iff in E.
    destruct (Id_eqb j i) eqn:Eji.
    + apply Id_eqb_eq in Eji. subst j. apply find_doc_none_iff.
      now rewrite <- E.
    + unfold find_doc. cbn. destruct (has_id j d) eqn:Ej; [|reflexivity].
      apply has_id_iff in Ej. rewrite E in Ej. inversion Ej; subst.
      now rewrite Id_eqb_refl in Eji.
  - destruct (delete_rows i rows) as [r|] eqn:Er; [|discriminate].
    inversion H; subst. destruct (IH _ Hnd' eq_refl) as [Hnd2 Hfind].
    split.
    + cbn. constructor; [|assumption]. intro Hin. apply Hnot.
      clear - Er Hin. revert r Er Hin.
      induction rows as [|d0 rows IH2]; cbn; intros r Er Hin; [discriminate|].
      destruct (has_id i d0).
      * inversion Er; subst. now right.
      * destruct (delete_rows i rows) as [r0|]; [|discriminate].
        inversion Er; subst. cbn in Hin. destruct Hin as [Hin|Hin];
          [now left|right; eapply IH2; eauto].
    + intro j. unfold find_doc in *. cbn.
      destruct (has_id j d) eqn:Ej.
      * destruct (Id_eqb j i) eqn:Eji; [|reflexivity].
        apply Id_eqb_eq in Eji. subst. congruence.
      * apply Hfind.
Qed.

Lemma patch_rows_find_other (i j : Id) fields (rows rows' : list Obj) :
  ~ In "_id" (object_keys fields) ->
  patch_rows i fields rows = Some rows' ->
  j <> i -> find_doc j rows' = find_doc j rows.
Proof.
  intros Hk. revert rows'. unfold find_doc.
  induction rows as [|d rows IH]; cbn; intros rows' H Hne; [discriminate|].
  destruct (has_id i d) eqn:E.
  - inversion H; subst. cbn. rewrite has_id_apply_patch by assumption.
    destruct (has_id j d) eqn:Ej; [|reflexivity].
    apply has_id_iff in E. apply has_id_iff in Ej. rewrite E in Ej.
    inversion Ej. congruence.
  - destruct (patch_rows i fields rows) as [r|]; [|discriminate].
    inversion H; subst. cbn. destruct (has_id j d); [reflexivity|].
    now apply IH.
Qed.

Lemma valid_id_inv t (x : JsValue) :
  validates (v_id t) x = true -> exists i, x = JId i /\ id_table i = t.
Proof.
  destruct x; cbn; try discriminate. intro H. apply Table_eqb_eq in H. eauto.
Qed.

Lemma bulkDelete_loop_spec ctx ids db0 records affected db1 :
  Forall (fun x => validates (v_id T_govtProjectBreakdowns) x = true) ids ->
  wf_breakdowns db0 ->
  bulkDelete_loop ctx ids db0 = (Normal (records, affected), db1) ->
  db_journal db1 = db_journal db0 ++ map W_delete (map g_breakdownId records) /\
  Forall (fun c => id_table (g_breakdownId c) = T_govtProjectBreakdowns) records /\
  NoDup affected /\
  forall p, In p affected <->
            exists i d, In (JId i) ids /\
                        find_doc i (db_govtProjectBreakdowns db0) = Some d /\
                        obj_get "projectId" d = JId p.
Proof.
  intros Hval Hwf H. unfold bulkDelete_loop in H.
  rewrite Forall_forall in Hval.
  pose (inv := fun (done : list JsValue) (s : list GovtProjectLogConfig * list Id)
                   (db : DB) =>
    db_journal db = db_journal db0 ++ map W_delete (map g_breakdownId (fst s)) /\
    Forall (fun c => id_table (g_breakdownId c) = T_govtProjectBreakdowns) (fst s) /\
    NoDup (map (obj_get "_id") (db_govtProjectBreakdowns db)) /\
    (forall j, find_doc j (db_govtProjectBreakdowns db)
               = if names_id j done then None
                 else find_doc j (db_govtProjectBreakdowns db0)) /\
    NoDup (snd s) /\
    forall p, In p (snd s) <->
              exists i d, In (JId i) done /\
                          find_doc i (db_govtProjectBreakdowns db0) = Some d /\
                          obj_get "projectId" d = JId p).
  assert (Hinv : inv ([] ++ ids) (records, affected) db1).
  { eapply (for_of_invariant inv); [| |exact H].
    - unfold inv. cbn. repeat split; try constructor;
        try (now rewrite app_nil_r); try assumption.
      + intros [].
      + intros (i & d & [] & _).
    - clear H. intros done x [recs aff] db [recs' aff'] db'
        (Hj & Hty & Hnd & Hfind & Hnda & Haff) Hx Hb.
      cbn [fst snd] in *.
      destruct (valid_id_inv _ _ (Hval _ Hx)) as (i & -> & Hti).
      cbn [as_id] in Hb.
      apply bind_Normal in Hb. destruct Hb as (found & dbg & Hg & Hb).
      apply db_get_Normal in Hg. destruct Hg as [-> ->].
      rewrite Hti in Hb. cbn [table_of] in Hb.
      assert (Hnames : forall j, names_id j (done ++ [JId i])
                                 = names_id j done || Id_eqb i j)
        by (intro j; apply names_id_app).
      destruct (find_doc i (db_govtProjectBreakdowns db)) as [d|] eqn:Efound.
      + (* the row is there: it is tracked and deleted *)
        assert (Hfresh : names_id i done = false).
        { destruct (names_id i done) eqn:E; [|reflexivity].
          rewrite Hfind, E in Efound. discriminate. }
        assert (Hd0 : find_doc i (db_govtProjectBreakdowns db0) = Some d).
        { rewrite Hfind, Hfresh in Efound. exact Efound. }
        apply bind_Normal in Hb. destruct Hb as (u & dbd & Hdel & Hb).
        apply db_delete_Normal in Hdel. destruct Hdel as (rows & Hdel & ->).
        rewrite Hti in Hdel. cbn [table_of] in Hdel.
        apply ret_Normal in Hb. destruct Hb as [Hs ->].
        inversion Hs; subst recs' aff'. clear Hs.
        destruct (delete_rows_find _ _ _ Hnd Hdel) as [Hnd' Hfind'].
        unfold inv. cbn [fst snd]. rewrite Hti.
        change (db_govtProjectBreakdowns
                  (journal_add (W_delete i)
                     (with_table T_govtProjectBreakdowns rows db))) with rows.
        split; [|split; [|split; [|split; [|split]]]].
        * rewrite !map_app. cbn [map g_breakdownId].
          unfold journal_add. cbn [db_journal].
          rewrite journal_with_table, Hj. now rewrite <- app_assoc.
        * apply Forall_app. split; [assumption|].
          constructor; [exact Hti|constructor].
        * exact Hnd'.
        * intro j. rewrite Hfind', Hnames, Hfind, (Id_eqb_sym i j).
          destruct (Id_eqb j i), (names_id j done); reflexivity.
        * now apply track_project_NoDup.
        * intro p. rewrite track_project_In, Haff. split.
          -- intros [Hp|(i' & d' & Hin & Hf & Hp)].
             ++ exists i, d. repeat split; try assumption.
                apply in_or_app. right. now left.
             ++ exists i', d'. repeat split; try assumption.
                apply in_or_app. now left.
          -- intros (i' & d' & Hin & Hf & Hp).
             apply in_app_or in Hin. destruct Hin as [Hin|[Hin|[]]].
             ++ right. exists i', d'. auto.
             ++ inversion Hin; subst i'. rewrite Hd0 in Hf.
                inversion Hf; subst d'. now left.
      + (* no such row: the item is skipped *)
        apply ret_Normal in Hb. destruct Hb as [Hs ->].
        inversion Hs; subst recs' aff'. clear Hs.
        unfold inv. cbn [fst snd].
        split; [assumption|]. split; [assumption|]. split; [assumption|].
        split; [|split; [assumption|]].
        * intro j. rewrite Hnames, Hfind.
          destruct (names_id j done) eqn:Enj; [reflexivity|]. cbn [orb].
          destruct (Id_eqb i j) eqn:E; [|reflexivity].
          apply Id_eqb_eq in E. subst j.
          rewrite Hfind, Enj in Efound. exact Efound.
        * intro p. rewrite Haff. split.
          -- intros (i' & d' & Hin & Hf & Hp). exists i', d'.
             repeat split; try assumption. apply in_or_app. now left.
          -- intros (i' & d' & Hin & Hf & Hp).
             apply in_app_or in Hin. destruct Hin as [Hin|[Hin|[]]].
             ++ exists i', d'. auto.
             ++ inversion Hin; subst i'.
                destruct (names_id i done) eqn:E2.
                ** apply names_id_In in E2. exists i, d'. auto.
                ** rewrite Hfind, E2, Hf in Efound. discriminate. }
  destruct Hinv as (Hj & Hty & _ & _ & Hnda & Haff). cbn [fst snd app] in *.
  repeat split; try assumption; apply Haff.
Qed.

Lemma obj_has_get (k : string) (o : Obj) :
  obj_has k o = true -> In (k, obj_get k o) o.
Proof.
  unfold obj_has. induction o as [|[k' v] o IH]; cbn; [discriminate|].
  destruct (String.eqb k k') eqn:E; cbn.
  - apply String.eqb_eq in E. subst. now left.
  - intro H. right. now apply IH.
Qed.

Lemma valid_required fields (o : Obj) k v :
  validates (v_object fields) (JObj o) = true ->
  In (k, v) fields -> is_optional v = false -> obj_has k o = true.
Proof.
  rewrite validates_object_unfold, !andb_true_iff. intros [[_ H] _] Hin Hopt.
  rewrite forallb_forall in H. specialize (H _ Hin). cbn [fst snd] in H.
  now rewrite Hopt in H.
Qed.

(** What the validator of a bulk-update item gives. *)
Lemma bulkUpdate_item_inv (x : JsValue) :
  validates bulkUpdate_item x = true ->
  exists o i,
    x = JObj o /\ NoDup (object_keys o) /\
    obj_get "breakdownId" o = JId i /\
    id_table i = T_govtProjectBreakdowns /\
    (forall userId now,
        ~ In "_id" (object_keys
                      (obj_spread (obj_remove "breakdownId" o)
                         [("updatedAt", JNum now); ("updatedBy", JId userId)]))) /\
    (forall userId now v,
        last_assigned "projectId"
          (obj_spread (obj_remove "breakdownId" o)
             [("updatedAt", JNum now); ("updatedBy", JId userId)]) = Some v ->
        obj_get "projectId" o = v).
Proof.
  unfold bulkUpdate_item. intro H.
  destruct x as [| | | | | | |o]; try discriminate.
  pose proof (valid_object_keys _ _ H) as Hnd.
  assert (Hhas : obj_has "breakdownId" o = true).
  { eapply valid_required; [exact H|left; reflexivity|reflexivity]. }
  apply obj_has_get in Hhas.
  destruct (validates_entry _ _ _ _ H Hhas) as (v & Hl & Hv).
  inversion Hl; subst v. apply valid_id_inv in Hv. destruct Hv as (i & Ei & Hti).
  assert (Horigin : forall userId now k v,
    In (k, v) (obj_spread (obj_remove "breakdownId" o)
                 [("updatedAt", JNum now); ("updatedBy", JId userId)]) ->
    In (k, v) o \/ k = "updatedAt" \/ k = "updatedBy").
  { intros userId now k v Hin. apply In_obj_spread in Hin.
    destruct Hin as [Hin|Hin].
    - left. now apply In_obj_remove in Hin.
    - right. cbn in Hin. destruct Hin as [Hin|[Hin|[]]]; inversion Hin; auto. }
  exists o, i. repeat split; try assumption.
  - intros userId now Hin. unfold object_keys in Hin. apply in_map_iff in Hin.
    destruct Hin as ([k v] & Hk & Hin). cbn in Hk. subst k.
    destruct (Horigin _ _ _ _ Hin) as [Ha|[Ha|Ha]]; try discriminate.
    destruct (validates_entry _ _ _ _ H Ha) as (v0 & Hl0 & _).
    discriminate Hl0.
  - intros userId now v E. apply last_assigned_In in E.
    destruct (Horigin _ _ _ _ E) as [Ha|[Ha|Ha]]; try discriminate.
    now apply obj_get_of_In.
Qed.

Lemma updates_id_app (j : Id) (done : list JsValue) (u : JsValue) i :
  obj_get "breakdownId" (fields_of u) = JId i ->
  updates_id j (done ++ [u]) = updates_id j done || Id_eqb i j.
Proof.
  intro E. unfold updates_id. rewrite map_app. cbn [map].
  rewrite names_id_app, E. reflexivity.
Qed.

Lemma updates_id_In (j : Id) (done : list JsValue) :
  updates_id j done = true <->
  exists u, In u done /\ obj_get "breakdownId" (fields_of u) = JId j.
Proof.
  unfold updates_id. rewrite names_id_In, in_map_iff. split.
  - intros (u & E & Hin). eauto.
  - intros (u & Hin & E). eauto.
Qed.

Lemma find_doc_some_same_ids (j : Id) (rows rows' : list Obj) d :
  map (obj_get "_id") rows' = map (obj_get "_id") rows ->
  find_doc j rows' = Some d -> exists d0, find_doc j rows = Some d0.
Proof.
  intros Hids H. destruct (find_doc j rows) as [d0|] eqn:E; [eauto|].
  apply (find_doc_same_ids j rows rows' Hids) in E. congruence.
Qed.

Lemma bulkUpdate_loop_spec ctx userId updates db0 records affected db1 :
  Forall (fun x => validates bulkUpdate_item x = true) updates ->
  bulkUpdate_loop ctx userId updates db0 = (Normal (records, affected), db1) ->
  db_journal db1 = db_journal db0 ++ map W_patch (map g_breakdownId records) /\
  Forall (fun c => id_table (g_breakdownId c) = T_govtProjectBreakdowns) records /\
  NoDup affected /\
  forall p, In p affected <->
            exists u i d0,
              In u updates /\
              obj_get "breakdownId" (fields_of u) = JId i /\
              find_doc i (db_govtProjectBreakdowns db0) = Some d0 /\
              (obj_get "projectId" d0 = JId p \/
               obj_get "projectId" (fields_of u) = JId p).
Proof.
  intros Hval H. unfold bulkUpdate_loop in H.
  rewrite Forall_forall in Hval.
  pose (inv := fun (done : list JsValue) (s : list GovtProjectLogConfig * list Id)
                   (db : DB) =>
    db_journal db = db_journal db0 ++ map W_patch (map g_breakdownId (fst s)) /\
    Forall (fun c => id_table (g_breakdownId c) = T_govtProjectBreakdowns) (fst s) /\
    map (obj_get "_id") (db_govtProjectBreakdowns db)
      = map (obj_get "_id") (db_govtProjectBreakdowns db0) /\
    (forall j, updates_id j done = false ->
               find_doc j (db_govtProjectBreakdowns db)
               = find_doc j (db_govtProjectBreakdowns db0)) /\
    (forall j d p, updates_id j done = true ->
                   find_doc j (db_govtProjectBreakdowns db) = Some d ->
                   obj_get "projectId" d = JId p -> In p (snd s)) /\
    NoDup (snd s) /\
    (forall p, In p (snd s) ->
               exists u i d0,
                 In u done /\
                 obj_get "breakdownId" (fields_of u) = JId i /\
                 find_doc i (db_govtProjectBreakdowns db0) = Some d0 /\
                 (obj_get "projectId" d0 = JId p \/
                  obj_get "projectId" (fields_of u) = JId p)) /\
    (forall u i d0 p,
        In u done ->
        obj_get "breakdownId" (fields_of u) = JId i ->
        find_doc i (db_govtProjectBreakdowns db0) = Some d0 ->
        obj_get "projectId" d0 = JId p \/
        obj_get "projectId" (fields_of u) = JId p ->
        In p (snd s))).
  assert (Hinv : inv ([] ++ updates) (records, affected) db1).
  { eapply (for_of_invariant inv); [| |exact H].
    - unfold inv. cbn. repeat split; try constructor;
        try (now rewrite app_nil_r); try discriminate.
      + intros p [].
      + intros u i d0 p [].
    - clear H. intros done x [recs aff] db [recs' aff'] db'
        (Hj & Hty & Hids & Hun & Hpr & Hnda & Hto & Hfrom) Hx Hb.
      cbn [fst snd] in *.
      destruct (bulkUpdate_item_inv _ (Hval _ Hx))
        as (o & i & -> & Hndo & Ei & Hti & Hnoid & Hpid).
      cbn [fields_of] in Hb. rewrite Ei in Hb. cbn [as_id] in Hb.
      apply bind_Normal in Hb. destruct Hb as (found & dbg & Hg & Hb).
      apply db_get_Normal in Hg. destruct Hg as [-> ->].
      rewrite Hti in Hb. cbn [table_of] in Hb.
      assert (Hnames : forall j, updates_id j (done ++ [JObj o])
                                 = updates_id j done || Id_eqb i j)
        by (intro j; now apply updates_id_app).
      destruct (find_doc i (db_govtProjectBreakdowns db)) as [prev|] eqn:Efound.
      + (* the row is there: both parents are tracked, the row is patched *)
        apply bind_Normal in Hb. destruct Hb as (u1 & dbp & Hp & Hb).
        apply db_patch_Normal in Hp. destruct Hp as (rows & Hp & ->).
        rewrite Hti in Hp. cbn [table_of] in Hp.
        apply bind_Normal in Hb. destruct Hb as (updated & dbg & Hg & Hb).
        apply db_get_Normal in Hg. destruct Hg as [-> _].
        apply ret_Normal in Hb. destruct Hb as [Hs ->].
        inversion Hs; subst recs' aff'. clear Hs.
        set (fields := obj_spread (obj_remove "breakdownId" o)
                         [("updatedAt", JNum (ctx_now ctx));
                          ("updatedBy", JId userId)]) in *.
        pose proof (Hnoid userId (ctx_now ctx)) as Hk. fold fields in Hk.
        destruct (patch_rows_find _ _ _ _ Hk Hp) as (d & Hd & Hnew).
        rewrite Efound in Hd. inversion Hd; subst d. clear Hd.
        destruct (find_doc_some_same_ids i _ _ prev Hids Efound) as [d0 Hd0].
        assert (Hprev0 : forall p, obj_get "projectId" prev = JId p ->
                  In p aff \/ find_doc i (db_govtProjectBreakdowns db0) = Some prev).
        { intros p Hp'. destruct (updates_id i done) eqn:E.
          - left. eapply Hpr; eassumption.
          - right. now rewrite <- (Hun _ E). }
        unfold inv. cbn [fst snd]. rewrite Hti.
        change (db_govtProjectBreakdowns
                  (journal_add (W_patch i)
                     (with_table T_govtProjectBreakdowns rows db))) with rows.
        split; [|split; [|split; [|split; [|split; [|split; [|split]]]]]].
        * rewrite !map_app. cbn [map g_breakdownId].
          unfold journal_add. cbn [db_journal].
          rewrite journal_with_table, Hj. now rewrite <- app_assoc.
        * apply Forall_app. split; [assumption|].
          constructor; [exact Hti|constructor].
        * rewrite <- Hids. eapply patch_rows_ids; eassumption.
        * intros j Hj'. rewrite Hnames in Hj'. apply orb_false_iff in Hj'.
          destruct Hj' as [Hj1 Hj2]. apply Id_eqb_neq in Hj2.
          rewrite (patch_rows_find_other i j fields _ _ Hk Hp) by congruence.
          now apply Hun.
        * intros j d p Hj' Hf Hp'. rewrite !track_project_In.
          destruct (Id_eqb i j) eqn:Eij.
          -- apply Id_eqb_eq in Eij. subst j. rewrite Hnew in Hf.
             inversion Hf; subst d. rewrite obj_get_apply_patch in Hp'.
             destruct (last_assigned "projectId" fields) as [v|] eqn:El.
             ++ left. subst v. apply (Hpid userId (ctx_now ctx)). exact El.
             ++ right. now left.
          -- rewrite Hnames, Eij, orb_false_r in Hj'.
             apply Id_eqb_neq in Eij.
             rewrite (patch_rows_find_other i j fields _ _ Hk Hp) in Hf
               by congruence.
             right. right. eapply Hpr; eassumption.
        * now apply track_project_NoDup, track_project_NoDup.
        * intros p Hp'. rewrite !track_project_In in Hp'.
          destruct Hp' as [Hp'|[Hp'|Hp']].
          -- exists (JObj o), i, d0. cbn [fields_of].
             repeat split; try assumption; [|now right].
             apply in_or_app. right. now left.
          -- destruct (Hprev0 _ Hp') as [Hin|Hsame].
             ++ destruct (Hto _ Hin) as (u & i' & d' & Hu & Hi & Hf & Hor).
                exists u, i', d'. repeat split; try assumption.
                apply in_or_app. now left.
             ++ exists (JObj o), i, prev. cbn [fields_of].
                repeat split; try assumption; [|now left].
                apply in_or_app. right. now left.
          -- destruct (Hto _ Hp') as (u & i' & d' & Hu & Hi & Hf & Hor).
             exists u, i', d'. repeat split; try assumption.
             apply in_or_app. now left.
        * intros u i' d' p Hu Hi Hf Hor. rewrite !track_project_In.
          apply in_app_or in Hu. destruct Hu as [Hu|[Hu|[]]].
          -- right. right. eapply Hfrom; eassumption.
          -- subst u. cbn [fields_of] in *. rewrite Ei in Hi.
             inversion Hi; subst i'. destruct Hor as [Hor|Hor]; [|now left].
             destruct (updates_id i done) eqn:E.
             ++ apply updates_id_In in E. destruct E as (u' & Hu' & Hi').
                right. right. eapply (Hfrom u' i d' p); auto.
             ++ rewrite <- (Hun _ E), Efound in Hf. inversion Hf; subst d'.
                right. now left.
      + (* no such row: the item is skipped *)
        apply ret_Normal in Hb. destruct Hb as [Hs ->].
        inversion Hs; subst recs' aff'. clear Hs.
        assert (Hnone0 : find_doc i (db_govtProjectBreakdowns db0) = None)
          by (now apply (find_doc_same_ids i _ _ Hids)).
        unfold inv. cbn [fst snd].
        split; [assumption|]. split; [assumption|]. split; [assumption|].
        split; [|split; [|split; [assumption|split]]].
        * intros j Hj'. rewrite Hnames in Hj'. apply orb_false_iff in Hj'.
          now apply Hun.
        * intros j d p Hj' Hf Hp'. rewrite Hnames in Hj'.
          destruct (updates_id j done) eqn:E; [eapply Hpr; eassumption|].
          cbn [orb] in Hj'. apply Id_eqb_eq in Hj'. subst j. congruence.
        * intros p Hp'. destruct (Hto _ Hp') as (u & i' & d' & Hu & Hi & Hf & Hor).
          exists u, i', d'. repeat split; try assumption.
          apply in_or_app. now left.
        * intros u i' d' p Hu Hi Hf Hor.
          apply in_app_or in Hu. destruct Hu as [Hu|[Hu|[]]].
          -- eapply Hfrom; eassumption.
          -- subst u. cbn [fields_of] in Hi. rewrite Ei in Hi.
             inversion Hi; subst i'. congruence. }
  destruct Hinv as (Hj & Hty & _ & _ & _ & Hnda & Hto & Hfrom).
  cbn [fst snd app] in *.
  repeat split; try assumption.
  - apply Hto.
  - intros (u & i & d0 & Hu & Hi & Hf & Hor). eapply Hfrom; eassumption.
Qed.

Lemma breakdown_writes_of_records (mk : Id -> WriteOp)
    (records : list GovtProjectLogConfig) :
  (forall i, id_table i = T_govtProjectBreakdowns -> breakdown_write (mk i)) ->
  Forall (fun c => id_table (g_breakdownId c) = T_govtProjectBreakdowns) records ->
  Forall breakdown_write (map mk (map g_breakdownId records)).
Proof.
  intros Hmk H. induction H as [|c records Hc _ IH]; cbn; constructor; auto.
Qed.

(** C5.  Every bulk mutation recalculates each affected parent exactly
    once.  The writes of a successful bulk create, update or delete are,
    in this order: the writes to the breakdowns, one per item processed;
    the insertions of the activity records; and one patch per affected
    parent -- the one write of each call of the recalculation service --
    for a list of affected parents that has no repetition and whose length
    is the number the mutation reports.  The affected parents are: for a
    create, the parents that the items name; for an update, the parents
    that the rows found had before the call and the parents that their
    items name; for a delete, the parents of the rows found.  Updating
    five breakdowns of one parent issues one patch of that parent. *)
Theorem bulk_recalculates_once_per_parent :
  (forall ctx args db r db',
      bulkCreateBreakdowns ctx args db = (Normal r, db') ->
      let affected :=
        set_of_list Id_eqb
          (parents_named (elements (obj_get "breakdowns" args))) in
      NoDup affected /\
      (forall p, In p affected <->
                 exists item, In item (elements (obj_get "breakdowns" args)) /\
                              obj_get "projectId" (fields_of item) = JId p) /\
      affectedProjects r = List.length affected /\
      exists item_writes log_writes,
        db_journal db'
        = db_journal db ++ item_writes ++ log_writes ++ map W_patch affected /\
        Forall breakdown_write item_writes /\
        Forall activity_insert log_writes)
  /\
  (forall ctx args db r db',
      bulkUpdateBreakdowns ctx args db = (Normal r, db') ->
      exists affected,
        NoDup affected /\
        (forall p, In p affected <->
                   exists u i d0,
                     In u (elements (obj_get "updates" args)) /\
                     obj_get "breakdownId" (fields_of u) = JId i /\
                     find_doc i (db_govtProjectBreakdowns db) = Some d0 /\
                     (obj_get "projectId" d0 = JId p \/
                      obj_get "projectId" (fields_of u) = JId p)) /\
        affectedProjects r = List.length affected /\
        exists item_writes log_writes,
          db_journal db'
          = db_journal db ++ item_writes ++ log_writes ++ map W_patch affected /\
          Forall breakdown_write item_writes /\
          Forall activity_insert log_writes)
  /\
  (forall ctx args db r db',
      wf_breakdowns db ->
      bulkDeleteBreakdowns ctx args db = (Normal r, db') ->
      exists affected,
        NoDup affected /\
        (forall p, In p affected <->
                   exists i d,
                     In (JId i) (elements (obj_get "breakdownIds" args)) /\
                     find_doc i (db_govtProjectBreakdowns db) = Some d /\
                     obj_get "projectId" d = JId p) /\
        affectedProjects r = List.length affected /\
        exists item_writes log_writes,
          db_journal db'
          = db_journal db ++ item_writes ++ log_writes ++ map W_patch affected /\
          Forall breakdown_write item_writes /\
          Forall activity_insert log_writes)
  /\
  (exists r db',
      bulkUpdateBreakdowns demo_ctx five_updates five_children_db
        = (Normal r, db') /\
      count r = 5 /\ affectedProjects r = 1 /\
      db_journal db'
      = map (fun n => W_patch (mkId T_govtProjectBreakdowns n)) [2; 3; 4; 5; 6]
          ++ map (fun n => W_insert (mkId T_govtProjectActivities n))
               [7; 8; 9; 10; 11]
          ++ [W_patch demo_project]).
Proof.
  split; [|split; [|split]].
  - intros ctx args db r db' H affected.
    apply mutation_Normal in H. destruct H as [_ H].
    unfold bulkCreateBreakdowns_handler in H.
    apply bind_Normal in H. destruct H as (userId & db0 & Hu & H).
    apply require_user_Normal in Hu. destruct Hu as [_ ->].
    apply bind_Normal in H. destruct H as ([records aff] & db1 & Hloop & H).
    apply bulkCreate_loop_spec in Hloop. destruct Hloop as (Hj & Hty & Haff).
    fold affected in Haff. subst aff.
    apply bulk_tail in H. destruct H as (Hsize & ws & Hj' & Hws).
    split; [apply set_of_list_NoDup, Id_eqb_eq|].
    split.
    { intro p. unfold affected. rewrite (set_of_list_In _ Id_eqb_eq).
      unfold parents_named. rewrite in_flat_map. split.
      - intros (item & Hin & Hp). exists item. split; [assumption|].
        destruct (obj_get "projectId" (fields_of item)); cbn in Hp;
          try contradiction. destruct Hp as [->|[]]. reflexivity.
      - intros (item & Hin & Hp). exists item. split; [assumption|].
        rewrite Hp. now left. }
    split; [exact Hsize|].
    exists (map W_insert (map g_breakdownId records)), ws.
    split; [|split; [|assumption]].
    + rewrite Hj', Hj. now rewrite <- !app_assoc.
    + apply breakdown_writes_of_records; [|assumption]. intros i Hi. exact Hi.
  - intros ctx args db r db' H.
    apply mutation_Normal in H. destruct H as [Hval H].
    unfold bulkUpdateBreakdowns_handler in H.
    apply bind_Normal in H. destruct H as (userId & db0 & Hu & H).
    apply require_user_Normal in Hu. destruct Hu as [_ ->].
    apply bind_Normal in H. destruct H as ([records aff] & db1 & Hloop & H).
    apply bulkUpdate_loop_spec in Hloop.
    2:{ apply (valid_array_elements bulkUpdateBreakdowns_args);
          [reflexivity|assumption]. }
    destruct Hloop as (Hj & Hty & Hnd & Haff).
    apply bulk_tail in H. destruct H as (Hsize & ws & Hj' & Hws).
    exists aff. split; [assumption|]. split; [assumption|].
    split; [exact Hsize|].
    exists (map W_patch (map g_breakdownId records)), ws.
    split; [|split; [|assumption]].
    + rewrite Hj', Hj. now rewrite <- !app_assoc.
    + apply breakdown_writes_of_records; [|assumption]. intros i Hi. exact Hi.
  - intros ctx args db r db' Hwf H.
    apply mutation_Normal in H. destruct H as [Hval H].
    unfold bulkDeleteBreakdowns_handler in H.
    apply bind_Normal in H. destruct H as (userId & db0 & Hu & H).
    apply require_user_Normal in Hu. destruct Hu as [_ ->].
    apply bind_Normal in H. destruct H as ([records aff] & db1 & Hloop & H).
    apply bulkDelete_loop_spec in Hloop; [|
      apply (valid_array_elements bulkDeleteBreakdowns_args);
        [reflexivity|assumption] | assumption].
    destruct Hloop as (Hj & Hty & Hnd & Haff).
    apply bulk_tail in H. destruct H as (Hsize & ws & Hj' & Hws).
    exists aff. split; [assumption|]. split; [assumption|].
    split; [exact Hsize|].
    exists (map W_delete (map g_breakdownId records)), ws.
    split; [|split; [|assumption]].
    + rewrite Hj', Hj. now rewrite <- !app_assoc.
    + apply breakdown_writes_of_records; [|assumption]. intros i Hi. exact Hi.
  - eexists _, _. split; [vm_compute; reflexivity|].
    repeat split.
Qed.

Lemma bulk_recalculates_once_per_parent_witness :
  let db' := snd (bulkDeleteBreakdowns demo_ctx
                    [("breakdownIds",
                       JArr [JId (mkId T_govtProjectBreakdowns 2);
                             JId (mkId T_govtProjectBreakdowns 3);
                             JId (mkId T_govtProjectBreakdowns 2)])]
                    five_children_db) in
  exists affected,
    NoDup affected /\
    (forall p, In p affected <->
               exists i d,
                 In (JId i) [JId (mkId T_govtProjectBreakdowns 2);
                             JId (mkId T_govtProjectBreakdowns 3);
                             JId (mkId T_govtProjectBreakdowns 2)] /\
                 find_doc i (db_govtProjectBreakdowns five_children_db) = Some d /\
                 obj_get "projectId" d = JId p) /\
    2 = List.length affected + 1 /\
    exists item_writes log_writes,
      db_journal db'
      = db_journal five_children_db ++ item_writes ++ log_writes
          ++ map W_patch affected /\
      Forall breakdown_write item_writes /\
      Forall activity_insert log_writes.
Proof.
  destruct (proj1 (proj2 (proj2 bulk_recalculates_once_per_parent))
              demo_ctx
              [("breakdownIds",
                 JArr [JId (mkId T_govtProjectBreakdowns 2);
                       JId (mkId T_govtProjectBreakdowns 3);
                       JId (mkId T_govtProjectBreakdowns 2)])]
              five_children_db
              (mkBulkResult 2 [mkId T_govtProjectBreakdowns 2;
                               mkId T_govtProjectBreakdowns 3]
                 "batch_100" 1)
              (snd (bulkDeleteBreakdowns demo_ctx
                    [("breakdownIds",
                       JArr [JId (mkId T_govtProjectBreakdowns 2);
                             JId (mkId T_govtProjectBreakdowns 3);
                             JId (mkId T_govtProjectBreakdowns 2)])]
                    five_children_db)))
    as (affected & H1 & H2 & H3 & H4).
  - unfold wf_breakdowns. cbn. repeat constructor; cbn; intuition discriminate.
  - vm_compute. reflexivity.
  - exists affected. cbn in H3. rewrite <- H3.
    repeat split; try assumption; apply H2.
Defined.

(* ================================================================== *)
(** * Further properties: the cascade keeps parents consistent *)

Lemma tally_frame p db db' :
  db_govtProjectBreakdowns db' = db_govtProjectBreakdowns db ->
  tally p db' = tally p db.
Proof. intro H. unfold tally, children. now rewrite H. Qed.

Lemma consistent_frame p db db' :
  db_projects db' = db_projects db ->
  db_govtProjectBreakdowns db' = db_govtProjectBreakdowns db ->
  consistent p db -> consistent p db'.
Proof.
  intros Hp Hb. unfold consistent, counter.
  rewrite Hp, (tally_frame p db db' Hb). tauto.
Qed.

Lemma recalc_establishes ctx p userId db r db' :
  id_table p = T_projects ->
  recalculateProjectMetrics ctx p userId db = (Normal r, db') ->
  consistent p db'.
Proof.
  intros Ht H. destruct (recalc_counters_after _ _ _ _ _ _ Ht H)
    as (Hc & Hd & Ho & Hb).
  unfold consistent. rewrite (tally_frame p db db' Hb). auto.
Qed.

Lemma recalc_projects_other ctx p userId db r db' q :
  id_table p = T_projects ->
  recalculateProjectMetrics ctx p userId db = (Normal r, db') ->
  q <> p ->
  find_doc q (db_projects db') = find_doc q (db_projects db).
Proof.
  intros Ht H Hne. apply recalc_success in H.
  destruct H as (_ & _ & _ & rows & Hp & ->). rewrite Ht in *.
  cbn [table_of] in Hp. cbn.
  eapply patch_rows_find_other; [apply recalc_fields_keep_id|exact Hp|exact Hne].
Qed.

Lemma recalc_breakdowns ctx p userId db r db' :
  id_table p = T_projects ->
  recalculateProjectMetrics ctx p userId db = (Normal r, db') ->
  db_govtProjectBreakdowns db' = db_govtProjectBreakdowns db.
Proof.
  intros Ht H. now destruct (recalc_counters_after _ _ _ _ _ _ Ht H)
    as (_ & _ & _ & Hb).
Qed.

Lemma recalc_keeps_consistent ctx p userId db r db' q :
  id_table p = T_projects ->
  recalculateProjectMetrics ctx p userId db = (Normal r, db') ->
  consistent q db -> consistent q db'.
Proof.
  intros Ht H Hq. destruct (Id_eqb q p) eqn:E.
  - apply Id_eqb_eq in E. subst q. eapply recalc_establishes; eassumption.
  - apply Id_eqb_neq in E.
    pose proof (recalc_projects_other _ _ _ _ _ _ q Ht H E) as Hf.
    pose proof (recalc_breakdowns _ _ _ _ _ _ Ht H) as Hb.
    unfold consistent, counter in *.
    rewrite Hf, (tally_frame q db db' Hb). exact Hq.
Qed.

Lemma recalculate_each_consistent ctx ids userId db u db' :
  Forall (fun p => id_table p = T_projects) ids ->
  recalculate_each ctx ids userId db = (Normal u, db') ->
  (forall p, In p ids -> consistent p db') /\
  (forall q, consistent q db -> consistent q db') /\
  db_govtProjectBreakdowns db' = db_govtProjectBreakdowns db.
Proof.
  unfold recalculate_each. revert db.
  induction ids as [|p ids IH]; intros db Hall H; cbn [for_each] in H.
  - apply ret_Normal in H. destruct H as [_ ->].
    split; [intros p []|]. split; auto.
  - inversion Hall as [|? ? Hp Hrest]; subst.
    apply bind_Normal in H. destruct H as (x & db1 & H1 & H2).
    apply bind_Normal in H1. destruct H1 as (r & db2 & H1 & H3).
    apply ret_Normal in H3. destruct H3 as [_ ->].
    destruct (IH _ Hrest H2) as (Hin & Hkeep & Hb).
    split; [|split].
    + intros q [->|Hq]; [|now apply Hin].
      apply Hkeep. eapply recalc_establishes; eassumption.
    + intros q Hq. apply Hkeep. eapply recalc_keeps_consistent; eassumption.
    + rewrite Hb. eapply recalc_breakdowns; eassumption.
Qed.



(** The steps of a successful [createProjectBreakdown]: the row is
    appended, the projects are untouched until the parent, if one is named,
    is recalculated as the last write. *)
Lemma createProjectBreakdown_steps ctx args db r db' :
  createProjectBreakdown ctx args db = (Normal r, db') ->
  exists userId dbl,
    ctx_auth ctx = Some userId /\
    r = mkId T_govtProjectBreakdowns (db_next db) /\
    db_govtProjectBreakdowns dbl
    = db_govtProjectBreakdowns db
        ++ [created_row ctx userId r (obj_remove "reason" args)] /\
    db_projects dbl = db_projects db /\
    match as_id (obj_get "projectId" args) with
    | Some p =>
        id_table p = T_projects /\
        exists rr, recalculateProjectMetrics ctx p userId dbl = (Normal rr, db')
    | None => db' = dbl
    end.
Proof.
  intro H. apply mutation_Normal in H. destruct H as [Hval H].
  assert (Hargp : forall p, obj_get "projectId" args = JId p ->
                            id_table p = T_projects)
    by (apply (valid_projectId_typed createProjectBreakdown_args);
        [reflexivity|assumption]).
  unfold createProjectBreakdown_handler in H.
  apply bind_Normal in H. destruct H as (userId & db1 & Hu & H).
  apply require_user_Normal in Hu. destruct Hu as [Hauth ->].
  apply bind_Normal in H. destruct H as (x & db1 & Hv & H).
  apply verify_parent_Normal in Hv. destruct Hv as [-> _].
  apply bind_Normal in H. destruct H as (bid & db1 & Hi & H).
  apply db_insert_Normal in Hi. destruct Hi as [Hbid ->].
  apply bind_Normal in H. destruct H as (created & db1 & Hg & H).
  apply db_get_Normal in Hg. destruct Hg as [-> _].
  apply bind_Normal in H. destruct H as (x2 & db2 & Hlog & H).
  match type of Hlog with
  | logGovtProjectActivity ?c ?u ?cfg ?d = _ =>
      destruct (logGovtProjectActivity_total c u cfg d)
        as (dbl & Hlog' & Hframe & _)
  end.
  rewrite Hlog' in Hlog. inversion Hlog; subst db2. clear Hlog Hlog'.
  apply bind_Normal in H. destruct H as (x3 & db3 & Hrec & H).
  apply ret_Normal in H. destruct H as [-> ->].
  exists userId, dbl. split; [exact Hauth|]. split; [exact Hbid|].
  split; [|split].
  - change (db_govtProjectBreakdowns dbl)
      with (table_of T_govtProjectBreakdowns dbl).
    rewrite Hframe by discriminate.
    rewrite table_of_journal_add, table_of_bump_next, table_of_with_table.
    subst bid. reflexivity.
  - change (db_projects dbl) with (table_of T_projects dbl).
    rewrite Hframe by discriminate. reflexivity.
  - destruct (obj_get "projectId" args) eqn:E; cbn [as_id] in Hrec |- *;
      try (apply ret_Normal in Hrec; destruct Hrec as [_ ->]; reflexivity).
    apply bind_Normal in Hrec. destruct Hrec as (rr & db4 & Hrec & Hret).
    apply ret_Normal in Hret. destruct Hret as [_ ->].
    split; [now apply Hargp|eauto].
Qed.












Lemma bulk_tail_consistent ctx userId action records source reason affected
    db1 r db' :
  Forall (fun p => id_table p = T_projects) affected ->
  (batchId <- logBulkGovtProjectActivity ctx userId action records source
                reason ;;
   recalculate_each ctx affected userId ;;;
   ret (mkBulkResult (List.length records) (map g_breakdownId records) batchId
          (List.length affected))) db1 = (Normal r, db') ->
  (forall p, In p affected -> consistent p db') /\
  db_govtProjectBreakdowns db' = db_govtProjectBreakdowns db1 /\
  count r = List.length records /\
  ids r = map g_breakdownId records.
Proof.
  intros Hty H. apply bind_Normal in H. destruct H as (batch & db2 & Hlog & H).
  destruct (logBulkGovtProjectActivity_total ctx userId action records source
              reason db1) as (b' & db2' & Hlog' & Hframe & _).
  rewrite Hlog' in Hlog. inversion Hlog; subst b' db2'. clear Hlog Hlog'.
  apply bind_Normal in H. destruct H as (u & db3 & Hrec & H).
  apply ret_Normal in H. destruct H as [-> ->].
  destruct (recalculate_each_consistent _ _ _ _ _ _ Hty Hrec)
    as (Hin & _ & Hb).
  split; [exact Hin|]. split; [|split; reflexivity].
  rewrite Hb. apply (Hframe T_govtProjectBreakdowns). discriminate.
Qed.

Lemma bulkUpdate_item_parent_typed (x : JsValue) (p : Id) :
  validates bulkUpdate_item x = true ->
  obj_get "projectId" (fields_of x) = JId p -> id_table p = T_projects.
Proof.
  intros Hv Hp. destruct x; try (cbn in Hp; discriminate).
  cbn [fields_of] in Hp. revert p Hp.
  eapply valid_projectId_typed; [|exact Hv]. reflexivity.
Qed.

Lemma links_typed_doc db i d p :
  breakdown_links_typed db ->
  find_doc i (db_govtProjectBreakdowns db) = Some d ->
  obj_get "projectId" d = JId p -> id_table p = T_projects.
Proof.
  intros Hty Hd. unfold breakdown_links_typed in Hty.
  rewrite Forall_forall in Hty. apply Hty. eapply find_doc_In; eassumption.
Qed.



(** ** Recalculation of several parents *)

Lemma recalc_project_ids ctx p userId db r db' :
  id_table p = T_projects ->
  recalculateProjectMetrics ctx p userId db = (Normal r, db') ->
  map (obj_get "_id") (db_projects db') = map (obj_get "_id") (db_projects db).
Proof.
  intros Ht H. apply recalc_success in H.
  destruct H as (_ & _ & _ & rows & Hp & ->). rewrite Ht in *.
  cbn [table_of] in Hp. cbn.
  eapply patch_rows_ids; [apply recalc_fields_keep_id|exact Hp].
Qed.

Lemma recalc_runs ctx p userId db :
  no_faults ctx -> id_table p = T_projects ->
  find_doc p (db_projects db) <> None ->
  exists db',
    recalculateProjectMetrics ctx p userId db
    = (Normal (recalc_result db p), db').
Proof.
  intros Hnf Ht Hex. rewrite recalculateProjectMetrics_unfold, !Hnf, Ht.
  cbn [table_of].
  destruct (find_doc p (db_projects db)) as [d|] eqn:E; [|congruence].
  destruct (patch_rows_some p (recalc_fields ctx userId (tally p db)) _ d E)
    as (rows & ->). eauto.
Qed.

Lemma recalc_missing ctx p userId db :
  no_faults ctx -> id_table p = T_projects ->
  find_doc p (db_projects db) = None ->
  recalculateProjectMetrics ctx p userId db
  = (Throw (JsError "Update on nonexistent document"), db).
Proof.
  intros Hnf Ht Hex. rewrite recalculateProjectMetrics_unfold, !Hnf, Ht.
  cbn [table_of].
  destruct (patch_rows p _ (db_projects db)) as [rows|] eqn:E; [|reflexivity].
  apply patch_rows_find in E; [|apply recalc_fields_keep_id].
  destruct E as (d & Hd & _). congruence.
Qed.




Lemma recalc_keeps_existence ctx p userId db r db' q :
  id_table p = T_projects ->
  recalculateProjectMetrics ctx p userId db = (Normal r, db') ->
  (find_doc q (db_projects db') = None <-> find_doc q (db_projects db) = None).
Proof.
  intros Ht H. apply find_doc_same_ids.
  eapply recalc_project_ids; eassumption.
Qed.

Lemma recalculate_push_runs ctx userId acc p db :
  no_faults ctx -> id_table p = T_projects ->
  find_doc p (db_projects db) <> None ->
  exists db',
    recalculateProjectMetrics ctx p userId db
      = (Normal (recalc_result db p), db') /\
    recalculate_push ctx userId acc p db
      = (Normal (acc ++ [(p, recalc_result db p)]), db').
Proof.
  intros Hnf Ht Hex. destruct (recalc_runs ctx p userId db Hnf Ht Hex)
    as (db' & H). exists db'. split; [exact H|].
  unfold recalculate_push, bind, ret. now rewrite H.
Qed.

Lemma recalculateMultipleProjects_runs ctx userId ids :
  no_faults ctx ->
  Forall (fun p => id_table p = T_projects) ids ->
  forall acc db,
    (forall p, In p ids -> find_doc p (db_projects db) <> None) ->
    exists results db',
      for_of ids (recalculate_push ctx userId) acc db = (Normal results, db').
Proof.
  intros Hnf. induction 1 as [|p ids Hp Hrest IH]; intros acc db Hex;
    cbn [for_of].
  - unfold ret. eauto.
  - destruct (recalculate_push_runs ctx userId acc p db Hnf Hp
                (Hex p (or_introl eq_refl))) as (db1 & Hrec & Hpush).
    unfold bind. rewrite Hpush. apply IH. intros q Hq Hnone.
    apply (recalc_keeps_existence _ _ _ _ _ _ q Hp Hrec) in Hnone.
    exact (Hex q (or_intror Hq) Hnone).
Qed.

Lemma recalculateMultipleProjects_stops ctx userId before :
  no_faults ctx ->
  Forall (fun p => id_table p = T_projects) before ->
  forall acc db p after,
    id_table p = T_projects ->
    (forall q, In q before -> find_doc q (db_projects db) <> None) ->
    find_doc p (db_projects db) = None ->
    exists db',
      for_of (before ++ p :: after) (recalculate_push ctx userId) acc db
      = (Throw (JsError "Update on nonexistent document"), db') /\
      db_journal db' = db_journal db ++ map W_patch before.
Proof.
  intros Hnf. induction 1 as [|q before Hq Hrest IH];
    intros acc db p after Hp Hex Hnone; cbn [app for_of].
  - exists db. unfold bind, recalculate_push, bind.
    rewrite (recalc_missing ctx p userId db Hnf Hp Hnone). cbn.
    now rewrite app_nil_r.
  - destruct (recalculate_push_runs ctx userId acc q db Hnf Hq
                (Hex q (or_introl eq_refl))) as (db1 & Hrec & Hpush).
    unfold bind at 1. rewrite Hpush.
    destruct (IH (acc ++ [(q, recalc_result db q)]) db1 p after Hp)
      as (db' & Hrun & Hj).
    + intros q' Hq' Hn.
      apply (recalc_keeps_existence _ _ _ _ _ _ q' Hq Hrec) in Hn.
      exact (Hex q' (or_intror Hq') Hn).
    + now apply (recalc_keeps_existence _ _ _ _ _ _ p Hq Hrec).
    + exists db'. split; [exact Hrun|]. rewrite Hj.
      apply recalc_success in Hrec.
      destruct Hrec as (_ & _ & _ & rows & _ & ->). cbn.
      rewrite journal_with_table, <- app_assoc. reflexivity.
Qed.

(** X6.  [recalculateMultipleProjects] does not isolate failures.  With a
    store that serves every operation, the call returns when every given
    id has a project; when the first id without a project comes after
    [before], the call fails with the store's error for a patch of a
    missing document, having written the counters of the parents in
    [before] and of no later one, and returns no result for any of them. *)
Theorem recalculateMultipleProjects_stops_at_first_missing :
  forall ctx userId db,
    no_faults ctx ->
    (forall ids,
        Forall (fun p => id_table p = T_projects) ids ->
        (forall p, In p ids -> find_doc p (db_projects db) <> None) ->
        exists results db',
          recalculateMultipleProjects ctx ids userId db
          = (Normal results, db'))
    /\
    (forall before p after,
        Forall (fun q => id_table q = T_projects) (before ++ p :: after) ->
        (forall q, In q before -> find_doc q (db_projects db) <> None) ->
        find_doc p (db_projects db) = None ->
        exists db',
          recalculateMultipleProjects ctx (before ++ p :: after) userId db
          = (Throw (JsError "Update on nonexistent document"), db') /\
          db_journal db' = db_journal db ++ map W_patch before).
Proof.
  intros ctx userId db Hnf. split.
  - intros ids Hty Hex.
    exact (recalculateMultipleProjects_runs ctx userId ids Hnf Hty [] db Hex).
  - intros before p after Hty Hex Hnone.
    apply Forall_app in Hty. destruct Hty as [Hb Hp].
    inversion Hp; subst.
    exact (recalculateMultipleProjects_stops ctx userId before Hnf Hb [] db p
             after ltac:(assumption) Hex Hnone).
Qed.

Lemma recalculateMultipleProjects_stops_at_first_missing_witness :
  exists db',
    recalculateMultipleProjects demo_ctx
      ([demo_project] ++ dangling_project :: [demo_project]) demo_user demo_db
    = (Throw (JsError "Update on nonexistent document"), db') /\
    db_journal db' = db_journal demo_db ++ map W_patch [demo_project].
Proof.
  apply (proj2 (recalculateMultipleProjects_stops_at_first_missing
                  demo_ctx demo_user demo_db (fun _ => eq_refl))).
  - repeat constructor.
  - intros q [<-|[]]. discriminate.
  - reflexivity.
Defined.

(** ** Recalculation of every parent *)

Lemma db_query_all ctx t db :
  ctx_fault ctx (Op_query t) = false ->
  db_query ctx t [] (fun _ => true) db = (Normal (table_of t db), db).
Proof.
  intro Hf. unfold db_query, guard_fault, bind, ret. rewrite Hf. cbn.
  rewrite !filter_true. reflexivity.
Qed.








Lemma bind_of_Normal {A B} (m : M A) (k : A -> M B) db a db1 :
  m db = (Normal a, db1) -> bind m k db = k a db1.
Proof. intro H. unfold bind. now rewrite H. Qed.

Lemma bind_of_Throw {A B} (m : M A) (k : A -> M B) db e db1 :
  m db = (Throw e, db1) -> bind m k db = (Throw e, db1).
Proof. intro H. unfold bind. now rewrite H. Qed.

Lemma require_user_signed_in ctx userId db :
  ctx_auth ctx = Some userId -> require_user ctx db = (Normal userId, db).
Proof. intro H. unfold require_user. now rewrite H. Qed.

Lemma db_get_runs ctx i db :
  ctx_fault ctx (Op_get (id_table i)) = false ->
  db_get ctx i db = (Normal (find_doc i (table_of (id_table i) db)), db).
Proof. intro H. unfold db_get, guard_fault, bind, ret. now rewrite H. Qed.




(** ** Refusals of the single-record mutations *)

Lemma verify_parent_missing ctx p db :
  no_faults ctx ->
  find_doc p (table_of (id_table p) db) = None ->
  verify_parent ctx (JId p) db
  = (Throw (JsError "Parent project not found"), db).
Proof.
  intros Hnf Hnone. unfold verify_parent. cbn [as_id].
  rewrite (bind_of_Normal _ _ _ _ _ (db_get_runs ctx p db (Hnf _))).
  now rewrite Hnone.
Qed.

(** X9.  The single-record mutations check before they write.  Without a
    signed-in user each handler fails with "Not authenticated"; an update
    or a delete of an id that has no row fails with "Breakdown not found";
    a create or an update that names a parent that has no project fails
    with "Parent project not found".  In every case the handler stops with
    the store exactly as it was: no row was inserted or patched and no
    activity was logged before the check. *)
Theorem single_mutations_refuse_before_writing :
  forall ctx db,
    (ctx_auth ctx = None ->
     forall args,
       createProjectBreakdown_handler ctx args db
         = (Throw (JsError "Not authenticated"), db) /\
       updateProjectBreakdown_handler ctx args db
         = (Throw (JsError "Not authenticated"), db) /\
       deleteProjectBreakdown_handler ctx args db
         = (Throw (JsError "Not authenticated"), db))
    /\
    (no_faults ctx ->
     forall userId, ctx_auth ctx = Some userId ->
       (forall args bid,
           obj_get "breakdownId" args = JId bid ->
           find_doc bid (table_of (id_table bid) db) = None ->
           updateProjectBreakdown_handler ctx args db
             = (Throw (JsError "Breakdown not found"), db) /\
           deleteProjectBreakdown_handler ctx args db
             = (Throw (JsError "Breakdown not found"), db))
       /\
       (forall args p,
           obj_get "projectId" args = JId p ->
           find_doc p (table_of (id_table p) db) = None ->
           createProjectBreakdown_handler ctx args db
             = (Throw (JsError "Parent project not found"), db) /\
           (forall bid prev,
               obj_get "breakdownId" args = JId bid ->
               find_doc bid (table_of (id_table bid) db) = Some prev ->
               updateProjectBreakdown_handler ctx args db
                 = (Throw (JsError "Parent project not found"), db)))).
Proof.
  intros ctx db. split.
  - intros Hauth args.
    unfold createProjectBreakdown_handler, updateProjectBreakdown_handler,
      deleteProjectBreakdown_handler, require_user.
    rewrite Hauth. repeat split; reflexivity.
  - intros Hnf userId Hauth.
    pose proof (require_user_signed_in ctx userId db Hauth) as Hu.
    split.
    + intros args bid Hbid Hnone.
      unfold updateProjectBreakdown_handler, deleteProjectBreakdown_handler.
      rewrite !(bind_of_Normal _ _ _ _ _ Hu), Hbid. cbn [as_id].
      rewrite !(bind_of_Normal _ _ _ _ _ (db_get_runs ctx bid db (Hnf _))).
      rewrite Hnone. split; reflexivity.
    + intros args p Hp Hnone. split.
      * unfold createProjectBreakdown_handler.
        rewrite (bind_of_Normal _ _ _ _ _ Hu), Hp.
        now rewrite (bind_of_Throw _ _ _ _ _
                       (verify_parent_missing ctx p db Hnf Hnone)).
      * intros bid prev Hbid Hprev. unfold updateProjectBreakdown_handler.
        rewrite (bind_of_Normal _ _ _ _ _ Hu), Hbid. cbn [as_id].
        rewrite (bind_of_Normal _ _ _ _ _ (db_get_runs ctx bid db (Hnf _))).
        rewrite Hprev, Hp.
        now rewrite (bind_of_Throw _ _ _ _ _
                       (verify_parent_missing ctx p db Hnf Hnone)).
Qed.

Lemma single_mutations_refuse_before_writing_witness :
  updateProjectBreakdown_handler demo_ctx move_to_dangling linked_db
  = (Throw (JsError "Parent project not found"), linked_db).
Proof.
  refine (proj2 (proj2 (proj2 (single_mutations_refuse_before_writing
                                 demo_ctx linked_db)
                          (fun _ => eq_refl) demo_user eq_refl)
                   move_to_dangling dangling_project eq_refl eq_refl)
            (mkId T_govtProjectBreakdowns 2) _ eq_refl eq_refl).
Defined.

(** ** What the bulk mutations leave in the breakdown table *)

Lemma number_from_snoc {A} (l : list A) (x : A) :
  forall n, number_from n (l ++ [x])
            = number_from n l ++ [(n + List.length l, x)].
Proof.
  induction l as [|y l IH]; intro n; cbn.
  - now rewrite Nat.add_0_r.
  - rewrite IH. cbn. now rewrite Nat.add_succ_r.
Qed.

Lemma number_from_fst {A} (l : list A) :
  forall n, map fst (number_from n l) = seq n (List.length l).
Proof. induction l as [|y l IH]; intro n; cbn; [reflexivity|now rewrite IH]. Qed.

Lemma bulkCreate_loop_rows ctx userId items db0 records affected db1 :
  bulkCreate_loop ctx userId items db0 = (Normal (records, affected), db1) ->
  db_govtProjectBreakdowns db1
  = db_govtProjectBreakdowns db0
      ++ bulk_created_rows ctx userId (db_next db0) items /\
  map g_breakdownId records
  = map (mkId T_govtProjectBreakdowns)
        (seq (db_next db0) (List.length items)).
Proof.
  intro H. unfold bulkCreate_loop in H.
  pose (inv := fun (done : list JsValue) (s : list GovtProjectLogConfig * list Id)
                   (db : DB) =>
    db_govtProjectBreakdowns db
    = db_govtProjectBreakdowns db0
        ++ bulk_created_rows ctx userId (db_next db0) done /\
    db_next db = db_next db0 + List.length done /\
    map g_breakdownId (fst s)
    = map (mkId T_govtProjectBreakdowns)
          (seq (db_next db0) (List.length done))).
  assert (Hinv : inv ([] ++ items) (records, affected) db1).
  { eapply (for_of_invariant inv); [| |exact H].
    - unfold inv. cbn. rewrite app_nil_r, Nat.add_0_r. auto.
    - clear. intros done item [recs aff] db [recs' aff'] db' (Hrows & Hnext & Hids)
        _ Hb.
      cbn [fst snd] in *.
      apply bind_Normal in Hb. destruct Hb as (bid & dbi & Hi & Hb).
      apply db_insert_Normal in Hi. destruct Hi as [Hbid ->].
      apply bind_Normal in Hb. destruct Hb as (created & dbg & Hg & Hb).
      apply db_get_Normal in Hg. destruct Hg as [-> _].
      apply ret_Normal in Hb. destruct Hb as [Hs ->].
      inversion Hs; subst recs' aff'. clear Hs. unfold inv. cbn [fst snd].
      split; [|split].
      + cbn. rewrite Hrows. unfold bulk_created_rows.
        rewrite number_from_snoc, map_app, <- app_assoc. cbn.
        rewrite Hbid, Hnext. reflexivity.
      + cbn. rewrite Hnext, length_app. cbn. lia.
      + rewrite !map_app, Hids, length_app. cbn [List.length map g_breakdownId].
        rewrite Nat.add_1_r, seq_S, map_app. cbn.
        now rewrite Hbid, Hnext. }
  destruct Hinv as (Hrows & _ & Hids). cbn [fst snd app] in *. auto.
Qed.

Lemma bulkCreate_affected_typed (args : Obj) :
  validates (v_object bulkCreateBreakdowns_args) (JObj args) = true ->
  Forall (fun p => id_table p = T_projects)
    (set_of_list Id_eqb (parents_named (elements (obj_get "breakdowns" args)))).
Proof.
  intro Hval. apply Forall_forall. intros q Hq.
  rewrite (set_of_list_In _ Id_eqb_eq) in Hq.
  unfold parents_named in Hq. apply in_flat_map in Hq.
  destruct Hq as (it & Hit & Hq).
  pose proof (valid_array_elements bulkCreateBreakdowns_args args
                "breakdowns" _ eq_refl Hval) as Hall.
  rewrite Forall_forall in Hall. specialize (Hall it Hit).
  destruct (obj_get "projectId" (fields_of it)) eqn:E; cbn in Hq;
    try contradiction.
  destruct Hq as [->|[]].
  destruct it; try (cbn in E; discriminate). cbn [fields_of] in E.
  revert q E. eapply valid_projectId_typed; [|exact Hall]. reflexivity.
Qed.

(** X10.  A successful [bulkCreateBreakdowns] stores one row per item, in
    the order of the items, after the rows that were there, and changes no
    other breakdown; [count] is the number of items and [ids] are the next
    free ids of the store in sequence. *)
Theorem bulkCreate_appends_one_row_per_item :
  forall ctx args db r db',
    bulkCreateBreakdowns ctx args db = (Normal r, db') ->
    let items := elements (obj_get "breakdowns" args) in
    exists userId,
      ctx_auth ctx = Some userId /\
      db_govtProjectBreakdowns db'
      = db_govtProjectBreakdowns db
          ++ bulk_created_rows ctx userId (db_next db) items /\
      count r = List.length items /\
      ids r = map (mkId T_govtProjectBreakdowns)
                  (seq (db_next db) (List.length items)).
Proof.
  intros ctx args db r db' H items.
  apply mutation_Normal in H. destruct H as [Hval H].
  unfold bulkCreateBreakdowns_handler in H.
  apply bind_Normal in H. destruct H as (userId & db0 & Hu & H).
  apply require_user_Normal in Hu. destruct Hu as [Hauth ->].
  apply bind_Normal in H. destruct H as ([records aff] & db1 & Hloop & H).
  pose proof (bulkCreate_loop_rows _ _ _ _ _ _ _ Hloop) as [Hrows Hids].
  apply bulkCreate_loop_spec in Hloop. destruct Hloop as (_ & _ & Haff).
  apply bulk_tail_consistent in H.
  2:{ subst aff. now apply bulkCreate_affected_typed. }
  destruct H as (_ & Hb & Hcount & Hrids).
  exists userId. split; [exact Hauth|]. split; [now rewrite Hb|].
  rewrite Hcount, Hrids, Hids. split; [|reflexivity].
  rewrite <- (length_map g_breakdownId), Hids, length_map, length_seq.
  reflexivity.
Qed.

Lemma bulkCreate_appends_one_row_per_item_witness :
  let items := elements (obj_get "breakdowns" two_new_breakdowns) in
  let run := bulkCreateBreakdowns demo_ctx two_new_breakdowns childless_db in
  exists r userId,
    fst run = Normal r /\
    ctx_auth demo_ctx = Some userId /\
    db_govtProjectBreakdowns (snd run)
    = db_govtProjectBreakdowns childless_db
        ++ bulk_created_rows demo_ctx userId (db_next childless_db) items /\
    count r = List.length items /\
    ids r = map (mkId T_govtProjectBreakdowns)
                (seq (db_next childless_db) (List.length items)).
Proof.
  intros items run. eexists.
  assert (H : run = (Normal _, snd run)) by (vm_compute; reflexivity).
  destruct (bulkCreate_appends_one_row_per_item demo_ctx two_new_breakdowns
              childless_db _ _ H) as (userId & H1 & H2 & H3 & H4).
  exists userId. split; [vm_compute; reflexivity|]. auto.
Defined.

Lemma updates_id_nil j : updates_id j [] = false.
Proof. reflexivity. Qed.

Lemma updates_id_cons (j : Id) (u : JsValue) (l : list JsValue) i :
  obj_get "breakdownId" (fields_of u) = JId i ->
  updates_id j (u :: l) = Id_eqb i j || updates_id j l.
Proof. intro E. unfold updates_id, names_id. cbn. now rewrite E. Qed.

Lemma snoc_eq_middle {A} (done l1 l2 : list A) (x u : A) :
  done ++ [x] = l1 ++ u :: l2 ->
  (l2 = [] /\ u = x /\ l1 = done) \/
  (exists l2', l2 = l2' ++ [x] /\ done = l1 ++ u :: l2').
Proof.
  intro H. destruct l2 as [|z l2] using rev_ind.
  - left. apply app_inj_tail in H. destruct H as [-> ->]. auto.
  - right. exists l2.
    replace (l1 ++ u :: l2 ++ [z]) with ((l1 ++ u :: l2) ++ [z]) in H
      by (now rewrite <- app_assoc).
    apply app_inj_tail in H. destruct H as [-> ->]. auto.
Qed.

Lemma bulkUpdate_loop_rows ctx userId updates db0 records affected db1 :
  Forall (fun x => validates bulkUpdate_item x = true) updates ->
  bulkUpdate_loop ctx userId updates db0 = (Normal (records, affected), db1) ->
  db_projects db1 = db_projects db0 /\
  map (obj_get "_id") (db_govtProjectBreakdowns db1)
  = map (obj_get "_id") (db_govtProjectBreakdowns db0) /\
  (forall j, updates_id j updates = false ->
             find_doc j (db_govtProjectBreakdowns db1)
             = find_doc j (db_govtProjectBreakdowns db0)) /\
  (forall l1 u l2 i,
      updates = l1 ++ u :: l2 ->
      obj_get "breakdownId" (fields_of u) = JId i ->
      updates_id i l1 = false -> updates_id i l2 = false ->
      find_doc i (db_govtProjectBreakdowns db1)
      = option_map (apply_patch (bulk_update_patch ctx userId u))
          (find_doc i (db_govtProjectBreakdowns db0))) /\
  map g_breakdownId records = found_ids db0 updates.
Proof.
  intros Hval H. unfold bulkUpdate_loop in H.
  rewrite Forall_forall in Hval.
  pose (inv := fun (done : list JsValue) (s : list GovtProjectLogConfig * list Id)
                   (db : DB) =>
    db_projects db = db_projects db0 /\
    map (obj_get "_id") (db_govtProjectBreakdowns db)
      = map (obj_get "_id") (db_govtProjectBreakdowns db0) /\
    (forall j, updates_id j done = false ->
               find_doc j (db_govtProjectBreakdowns db)
               = find_doc j (db_govtProjectBreakdowns db0)) /\
    (forall l1 u l2 i,
        done = l1 ++ u :: l2 ->
        obj_get "breakdownId" (fields_of u) = JId i ->
        updates_id i l1 = false -> updates_id i l2 = false ->
        find_doc i (db_govtProjectBreakdowns db)
        = option_map (apply_patch (bulk_update_patch ctx userId u))
            (find_doc i (db_govtProjectBreakdowns db0))) /\
    map g_breakdownId (fst s) = found_ids db0 done).
  assert (Hinv : inv ([] ++ updates) (records, affected) db1).
  { eapply (for_of_invariant inv); [| |exact H].
    - unfold inv. cbn. repeat split; auto.
      intros l1 u l2 i E. destruct l1; discriminate.
    - clear H. intros done x [recs aff] db [recs' aff'] db'
        (Hpr & Hids & Hun & Hone & Hrec) Hx Hb.
      cbn [fst snd] in *.
      destruct (bulkUpdate_item_inv _ (Hval _ Hx))
        as (o & i & -> & Hndo & Ei & Hti & Hnoid & _).
      cbn [fields_of] in Hb. rewrite Ei in Hb. cbn [as_id] in Hb.
      apply bind_Normal in Hb. destruct Hb as (found & dbg & Hg & Hb).
      apply db_get_Normal in Hg. destruct Hg as [-> ->].
      rewrite Hti in Hb. cbn [table_of] in Hb.
      assert (Hnames : forall j, updates_id j (done ++ [JObj o])
                                 = updates_id j done || Id_eqb i j)
        by (intro j; now apply updates_id_app).
      assert (Hfound : found_ids db0 (done ++ [JObj o])
                       = found_ids db0 done
                           ++ match find_doc i (db_govtProjectBreakdowns db0) with
                              | Some _ => [i]
                              | None => []
                              end).
      { unfold found_ids. rewrite flat_map_app. cbn. rewrite Ei. cbn.
        now rewrite app_nil_r. }
      destruct (find_doc i (db_govtProjectBreakdowns db)) as [prev|] eqn:Efound.
      + apply bind_Normal in Hb. destruct Hb as (u1 & dbp & Hp & Hb).
        apply db_patch_Normal in Hp. destruct Hp as (rows & Hp & ->).
        rewrite Hti in Hp. cbn [table_of] in Hp.
        apply bind_Normal in Hb. destruct Hb as (updated & dbg & Hg & Hb).
        apply db_get_Normal in Hg. destruct Hg as [-> _].
        apply ret_Normal in Hb. destruct Hb as [Hs ->].
        inversion Hs; subst recs' aff'. clear Hs.
        fold (bulk_update_patch ctx userId (JObj o)) in Hp.
        pose proof (Hnoid userId (ctx_now ctx)) as Hk.
        fold (bulk_update_patch ctx userId (JObj o)) in Hk.
        destruct (patch_rows_find _ _ _ _ Hk Hp) as (d & Hd & Hnew).
        rewrite Efound in Hd. inversion Hd; subst d. clear Hd.
        destruct (find_doc_some_same_ids i _ _ prev Hids Efound) as [d0 Hd0].
        unfold inv. cbn [fst snd]. rewrite Hti.
        change (db_govtProjectBreakdowns
                  (journal_add (W_patch i)
                     (with_table T_govtProjectBreakdowns rows db))) with rows.
        split; [exact Hpr|]. split; [|split; [|split]].
        * rewrite <- Hids. eapply patch_rows_ids; eassumption.
        * intros j Hj'. rewrite Hnames in Hj'. apply orb_false_iff in Hj'.
          destruct Hj' as [Hj1 Hj2]. apply Id_eqb_neq in Hj2.
          rewrite (patch_rows_find_other i j _ _ _ Hk Hp) by congruence.
          now apply Hun.
        * intros l1 u l2 i' E Ei' Hl1 Hl2.
          destruct (snoc_eq_middle _ _ _ _ _ E) as [(-> & -> & ->)|(l2' & -> & ->)].
          -- cbn [fields_of] in Ei'. rewrite Ei in Ei'. inversion Ei'; subst i'.
             rewrite Hnew, <- (Hun i Hl1), Efound. reflexivity.
          -- assert (Hne : i' <> i).
             { intro Heq. subst i'.
               unfold updates_id in Hl2. rewrite map_app in Hl2.
               cbn [map fields_of] in Hl2. rewrite names_id_app, Ei in Hl2.
               cbn [as_id] in Hl2. rewrite Id_eqb_refl, orb_true_r in Hl2.
               discriminate. }
             rewrite (patch_rows_find_other i i' _ _ _ Hk Hp) by exact Hne.
             apply (Hone l1 u l2' i' eq_refl Ei' Hl1).
             unfold updates_id in Hl2 |- *. rewrite map_app in Hl2.
             cbn [map] in Hl2. rewrite names_id_app in Hl2.
             now apply orb_false_iff in Hl2.
        * rewrite map_app, Hrec, Hfound, Hd0. reflexivity.
      + apply ret_Normal in Hb. destruct Hb as [Hs ->].
        inversion Hs; subst recs' aff'. clear Hs.
        assert (Hnone0 : find_doc i (db_govtProjectBreakdowns db0) = None)
          by (now apply (find_doc_same_ids i _ _ Hids)).
        unfold inv. cbn [fst snd].
        split; [assumption|]. split; [assumption|]. split; [|split].
        * intros j Hj'. rewrite Hnames in Hj'. apply orb_false_iff in Hj'.
          now apply Hun.
        * intros l1 u l2 i' E Ei' Hl1 Hl2.
          destruct (snoc_eq_middle _ _ _ _ _ E) as [(-> & -> & ->)|(l2' & -> & ->)].
          -- cbn [fields_of] in Ei'. rewrite Ei in Ei'. inversion Ei'; subst i'.
             rewrite Efound, Hnone0. reflexivity.
          -- apply (Hone l1 u l2' i' eq_refl Ei' Hl1).
             unfold updates_id in Hl2 |- *. rewrite map_app in Hl2.
             cbn [map] in Hl2. rewrite names_id_app in Hl2.
             now apply orb_false_iff in Hl2.
        * rewrite Hrec, Hfound, Hnone0. now rewrite app_nil_r. }
  destruct Hinv as (Hpr & Hids & Hun & Hone & Hrec).
  cbn [fst snd app] in *. auto.
Qed.

Lemma bulkUpdate_affected_typed (args : Obj) db aff :
  breakdown_links_typed db ->
  validates (v_object bulkUpdateBreakdowns_args) (JObj args) = true ->
  (forall p, In p aff <->
             exists u i d0,
               In u (elements (obj_get "updates" args)) /\
               obj_get "breakdownId" (fields_of u) = JId i /\
               find_doc i (db_govtProjectBreakdowns db) = Some d0 /\
               (obj_get "projectId" d0 = JId p \/
                obj_get "projectId" (fields_of u) = JId p)) ->
  Forall (fun p => id_table p = T_projects) aff.
Proof.
  intros Hty Hval Haff. apply Forall_forall. intros q Hq. apply Haff in Hq.
  destruct Hq as (u' & i' & d' & Hu' & _ & Hd' & [Hq|Hq]).
  - eapply links_typed_doc; eassumption.
  - pose proof (valid_array_elements bulkUpdateBreakdowns_args args
                  "updates" _ eq_refl Hval) as Hall.
    rewrite Forall_forall in Hall.
    eapply bulkUpdate_item_parent_typed; [apply Hall|]; eassumption.
Qed.

(** X11.  A successful [bulkUpdateBreakdowns] adds and removes no
    breakdown row and keeps their order.  A row that no item of the batch
    names is unchanged; a row named by exactly one item is the old row
    patched with that item's fields and the two audit fields; an item
    whose id has no row is skipped without an error.  [ids] lists the ids
    of the items whose row was found, in order, and [count] is their
    number. *)
Theorem bulkUpdate_patches_named_rows_only :
  forall ctx args db r db',
    breakdown_links_typed db ->
    bulkUpdateBreakdowns ctx args db = (Normal r, db') ->
    let updates := elements (obj_get "updates" args) in
    exists userId,
      ctx_auth ctx = Some userId /\
      map (obj_get "_id") (db_govtProjectBreakdowns db')
      = map (obj_get "_id") (db_govtProjectBreakdowns db) /\
      (forall j, updates_id j updates = false ->
                 find_doc j (db_govtProjectBreakdowns db')
                 = find_doc j (db_govtProjectBreakdowns db)) /\
      (forall l1 u l2 i,
          updates = l1 ++ u :: l2 ->
          obj_get "breakdownId" (fields_of u) = JId i ->
          updates_id i l1 = false -> updates_id i l2 = false ->
          find_doc i (db_govtProjectBreakdowns db')
          = option_map (apply_patch (bulk_update_patch ctx userId u))
              (find_doc i (db_govtProjectBreakdowns db))) /\
      ids r = found_ids db updates /\
      count r = List.length (found_ids db updates).
Proof.
  intros ctx args db r db' Hty H updates.
  apply mutation_Normal in H. destruct H as [Hval H].
  unfold bulkUpdateBreakdowns_handler in H.
  apply bind_Normal in H. destruct H as (userId & db0 & Hus & H).
  apply require_user_Normal in Hus. destruct Hus as [Hauth ->].
  apply bind_Normal in H. destruct H as ([records aff] & db1 & Hloop & H).
  pose proof (valid_array_elements bulkUpdateBreakdowns_args args
                "updates" _ eq_refl Hval) as Hall.
  destruct (bulkUpdate_loop_rows _ _ _ _ _ _ _ Hall Hloop)
    as (_ & Hids & Hun & Hone & Hrec).
  apply bulkUpdate_loop_spec in Hloop; [|exact Hall].
  destruct Hloop as (_ & _ & _ & Haff).
  apply bulk_tail_consistent in H.
  2:{ eapply bulkUpdate_affected_typed; eassumption. }
  destruct H as (_ & Hb & Hcount & Hrids).
  exists userId. subst updates. rewrite Hb, Hcount, Hrids, <- Hrec, length_map.
  auto 10.
Qed.

Lemma bulkUpdate_patches_named_rows_only_witness :
  let updates := elements (obj_get "updates" five_updates) in
  let run := bulkUpdateBreakdowns demo_ctx five_updates five_children_db in
  exists r userId,
    fst run = Normal r /\
    ctx_auth demo_ctx = Some userId /\
    map (obj_get "_id") (db_govtProjectBreakdowns (snd run))
    = map (obj_get "_id") (db_govtProjectBreakdowns five_children_db) /\
    (forall j, updates_id j updates = false ->
               find_doc j (db_govtProjectBreakdowns (snd run))
               = find_doc j (db_govtProjectBreakdowns five_children_db)) /\
    (forall l1 u l2 i,
        updates = l1 ++ u :: l2 ->
        obj_get "breakdownId" (fields_of u) = JId i ->
        updates_id i l1 = false -> updates_id i l2 = false ->
        find_doc i (db_govtProjectBreakdowns (snd run))
        = option_map (apply_patch (bulk_update_patch demo_ctx userId u))
            (find_doc i (db_govtProjectBreakdowns five_children_db))) /\
    ids r = found_ids five_children_db updates /\
    count r = List.length (found_ids five_children_db updates).
Proof.
  intros updates run. eexists.
  assert (H : run = (Normal _, snd run)) by (vm_compute; reflexivity).
  assert (Hty : breakdown_links_typed five_children_db)
    by (repeat constructor; simpl; intros p E; inversion E; reflexivity).
  destruct (bulkUpdate_patches_named_rows_only demo_ctx five_updates
              five_children_db _ _ Hty H) as (userId & H1 & H2).
  exists userId. split; [vm_compute; reflexivity|]. auto.
Defined.

Lemma bulkDelete_loop_rows ctx ids db0 records affected db1 :
  Forall (fun x => validates (v_id T_govtProjectBreakdowns) x = true) ids ->
  wf_breakdowns db0 ->
  bulkDelete_loop ctx ids db0 = (Normal (records, affected), db1) ->
  (forall j, find_doc j (db_govtProjectBreakdowns db1)
             = if names_id j ids then None
               else find_doc j (db_govtProjectBreakdowns db0)) /\
  NoDup (map g_breakdownId records) /\
  (forall i, In i (map g_breakdownId records) <->
             In (JId i) ids /\
             find_doc i (db_govtProjectBreakdowns db0) <> None).
Proof.
  intros Hval Hwf H. unfold bulkDelete_loop in H.
  rewrite Forall_forall in Hval.
  pose (inv := fun (done : list JsValue) (s : list GovtProjectLogConfig * list Id)
                   (db : DB) =>
    NoDup (map (obj_get "_id") (db_govtProjectBreakdowns db)) /\
    (forall j, find_doc j (db_govtProjectBreakdowns db)
               = if names_id j done then None
                 else find_doc j (db_govtProjectBreakdowns db0)) /\
    NoDup (map g_breakdownId (fst s)) /\
    (forall i, In i (map g_breakdownId (fst s)) <->
               In (JId i) done /\
               find_doc i (db_govtProjectBreakdowns db0) <> None)).
  assert (Hinv : inv ([] ++ ids) (records, affected) db1).
  { eapply (for_of_invariant inv); [| |exact H].
    - unfold inv. cbn. split; [assumption|]. split; [reflexivity|].
      split; [constructor|]. intro i. split; [intros []|intros [[] _]].
    - clear H. intros done x [recs aff] db [recs' aff'] db'
        (Hnd & Hfind & Hndr & Hrec) Hx Hb.
      cbn [fst snd] in *.
      destruct (valid_id_inv _ _ (Hval _ Hx)) as (i & -> & Hti).
      cbn [as_id] in Hb.
      apply bind_Normal in Hb. destruct Hb as (found & dbg & Hg & Hb).
      apply db_get_Normal in Hg. destruct Hg as [-> ->].
      rewrite Hti in Hb. cbn [table_of] in Hb.
      assert (Hnames : forall j, names_id j (done ++ [JId i])
                                 = names_id j done || Id_eqb i j)
        by (intro j; apply names_id_app).
      destruct (find_doc i (db_govtProjectBreakdowns db)) as [d|] eqn:Efound.
      + assert (Hfresh : names_id i done = false).
        { destruct (names_id i done) eqn:E; [|reflexivity].
          rewrite Hfind, E in Efound. discriminate. }
        assert (Hd0 : find_doc i (db_govtProjectBreakdowns db0) = Some d).
        { rewrite Hfind, Hfresh in Efound. exact Efound. }
        apply bind_Normal in Hb. destruct Hb as (u & dbd & Hdel & Hb).
        apply db_delete_Normal in Hdel. destruct Hdel as (rows & Hdel & ->).
        rewrite Hti in Hdel. cbn [table_of] in Hdel.
        apply ret_Normal in Hb. destruct Hb as [Hs ->].
        inversion Hs; subst recs' aff'. clear Hs.
        destruct (delete_rows_find _ _ _ Hnd Hdel) as [Hnd' Hfind'].
        unfold inv. cbn [fst snd]. rewrite Hti.
        change (db_govtProjectBreakdowns
                  (journal_add (W_delete i)
                     (with_table T_govtProjectBreakdowns rows db))) with rows.
        split; [exact Hnd'|]. split; [|split].
        * intro j. rewrite Hfind', Hnames, Hfind, (Id_eqb_sym i j).
          destruct (Id_eqb j i), (names_id j done); reflexivity.
        * rewrite map_app. cbn [map g_breakdownId].
          apply NoDup_app; [assumption|repeat constructor; intros []|].
          intros a Ha [<-|[]]. apply Hrec in Ha. destruct Ha as [Ha _].
          apply names_id_In in Ha. congruence.
        * intro i'. rewrite map_app, in_app_iff, Hrec, in_app_iff.
          cbn [map g_breakdownId In]. split.
          -- intros [[Hin Hsome]|[<-|[]]]; [auto|].
             split; [right; now left|congruence].
          -- intros [[Hin|[Hin|[]]] Hsome]; [auto|].
             inversion Hin; subst i'. right. now left.
      + apply ret_Normal in Hb. destruct Hb as [Hs ->].
        inversion Hs; subst recs' aff'. clear Hs.
        unfold inv. cbn [fst snd].
        split; [assumption|]. split; [|split; [assumption|]].
        * intro j. rewrite Hnames, Hfind.
          destruct (names_id j done) eqn:Enj; [reflexivity|]. cbn [orb].
          destruct (Id_eqb i j) eqn:E; [|reflexivity].
          apply Id_eqb_eq in E. subst j.
          rewrite Hfind, Enj in Efound. exact Efound.
        * intro i'. rewrite Hrec, in_app_iff. cbn [In]. split.
          -- intros [Hin Hsome]. auto.
          -- intros [[Hin|[Hin|[]]] Hsome]; [auto|].
             inversion Hin; subst i'.
             destruct (names_id i done) eqn:E2.
             ++ apply names_id_In in E2. auto.
             ++ rewrite Hfind, E2 in Efound. congruence. }
  destruct Hinv as (_ & Hfind & Hndr & Hrec). cbn [fst snd app] in *. auto.
Qed.

(** X12.  After a successful [bulkDeleteBreakdowns] no given id has a row
    and every breakdown that was not named is as before.  An id that had
    no row is skipped without an error and an id given twice is deleted
    once: [ids] holds, without repetition, exactly the given ids that had
    a row, and [count] is their number. *)
Theorem bulkDelete_removes_named_rows_only :
  forall ctx args db r db',
    wf_breakdowns db ->
    breakdown_links_typed db ->
    bulkDeleteBreakdowns ctx args db = (Normal r, db') ->
    let given := elements (obj_get "breakdownIds" args) in
    (forall i, In (JId i) given ->
               find_doc i (db_govtProjectBreakdowns db') = None) /\
    (forall j, ~ In (JId j) given ->
               find_doc j (db_govtProjectBreakdowns db')
               = find_doc j (db_govtProjectBreakdowns db)) /\
    NoDup (ids r) /\
    (forall i, In i (ids r) <->
               In (JId i) given /\
               find_doc i (db_govtProjectBreakdowns db) <> None) /\
    count r = List.length (ids r).
Proof.
  intros ctx args db r db' Hwf Hty H given.
  apply mutation_Normal in H. destruct H as [Hval H].
  unfold bulkDeleteBreakdowns_handler in H.
  apply bind_Normal in H. destruct H as (userId & db0 & Hus & H).
  apply require_user_Normal in Hus. destruct Hus as [_ ->].
  apply bind_Normal in H. destruct H as ([records aff] & db1 & Hloop & H).
  pose proof (valid_array_elements bulkDeleteBreakdowns_args args
                "breakdownIds" _ eq_refl Hval) as Hall.
  destruct (bulkDelete_loop_rows _ _ _ _ _ _ Hall Hwf Hloop)
    as (Hfind & Hndr & Hrec).
  apply bulkDelete_loop_spec in Hloop; [|exact Hall|exact Hwf].
  destruct Hloop as (_ & _ & _ & Haff).
  apply bulk_tail_consistent in H.
  2:{ apply Forall_forall. intros q Hq. apply Haff in Hq.
      destruct Hq as (i' & d' & _ & Hd' & Hq).
      eapply links_typed_doc; eassumption. }
  destruct H as (_ & Hb & Hcount & Hrids).
  subst given. rewrite Hb, Hcount, Hrids, length_map.
  split; [|split; [|auto]].
  - intros i Hi. rewrite Hfind.
    apply names_id_In in Hi. now rewrite Hi.
  - intros j Hj. rewrite Hfind.
    destruct (names_id j (elements (obj_get "breakdownIds" args))) eqn:E;
      [|reflexivity].
    apply names_id_In in E. contradiction.
Qed.

Lemma bulkDelete_removes_named_rows_only_witness :
  let given := elements (obj_get "breakdownIds" delete_with_repeats) in
  let run := bulkDeleteBreakdowns demo_ctx delete_with_repeats
               five_children_db in
  exists r,
    fst run = Normal r /\
    (forall i, In (JId i) given ->
               find_doc i (db_govtProjectBreakdowns (snd run)) = None) /\
    (forall j, ~ In (JId j) given ->
               find_doc j (db_govtProjectBreakdowns (snd run))
               = find_doc j (db_govtProjectBreakdowns five_children_db)) /\
    NoDup (ids r) /\
    (forall i, In i (ids r) <->
               In (JId i) given /\
               find_doc i (db_govtProjectBreakdowns five_children_db) <> None) /\
    count r = List.length (ids r).
Proof.
  intros given run. eexists. split; [vm_compute; reflexivity|].
  apply (bulkDelete_removes_named_rows_only demo_ctx delete_with_repeats
           five_children_db).
  - repeat constructor; simpl; intuition discriminate.
  - repeat constructor; simpl; intros p E; inversion E; reflexivity.
  - vm_compute. reflexivity.
Defined.

(** ** The activity loggers *)

Lemma js_or_defined (a b : JsValue) :
  b <> JUndefined -> js_or a b <> JUndefined.
Proof.
  intro Hb. unfold js_or. destruct (truthy a) eqn:E; [|exact Hb].
  destruct a; cbn in E; congruence.
Qed.

Lemma obj_get_absent (k : string) (o : Obj) :
  ~ In k (object_keys o) -> obj_get k o = JUndefined.
Proof.
  induction o as [|[k' v] o IH]; cbn; [reflexivity|]. intro H.
  destruct (String.eqb k k') eqn:E.
  - apply String.eqb_eq in E. subst. tauto.
  - apply IH. tauto.
Qed.

Lemma strip_undefined_keys (k : string) (o : Obj) :
  In k (object_keys (strip_undefined o)) -> In k (object_keys o).
Proof.
  unfold object_keys, strip_undefined. rewrite !in_map_iff.
  intros (kv & E & Hin). apply filter_In in Hin. exists kv. tauto.
Qed.

Lemma obj_get_strip_NoDup (k : string) (o : Obj) :
  NoDup (object_keys o) -> obj_get k (strip_undefined o) = obj_get k o.
Proof.
  induction o as [|[k' v] o IH]; cbn; [reflexivity|]. intro H.
  inversion H as [|? ? Hnin Hnd]; subst.
  destruct (String.eqb k k') eqn:E.
  - apply String.eqb_eq in E. subst k'.
    destruct v; cbn; rewrite ?String.eqb_refl; try reflexivity.
    apply obj_get_absent. intro Hin. apply Hnin.
    now apply strip_undefined_keys.
  - destruct v; cbn; rewrite ?E; now apply IH.
Qed.

Lemma project_activity_record_keys ctx userId user config :
  NoDup (object_keys (project_activity_record ctx userId user config)).
Proof.
  unfold project_activity_record.
  destruct (project_diff config) as [changedFields changeSummary].
  cbn [object_keys map fst].
  repeat (constructor; [cbn; intuition discriminate|]). constructor.
Qed.

(** X13.  When the actor's user document is found and the store serves
    the read and the insert, [logProjectActivity] appends exactly one
    record to the project activities, under the next free id.  The record
    names the actor, the action and the time of the call; a missing name,
    e-mail or role of the actor is replaced by "Unknown", the empty string
    and "user"; [changedFields] is stored only for an update with at least
    one changed field. *)
Theorem logProjectActivity_records_one_entry :
  forall ctx userId config db user,
    ctx_fault ctx (Op_get (id_table userId)) = false ->
    ctx_fault ctx (Op_insert T_projectActivities) = false ->
    find_doc userId (table_of (id_table userId) db) = Some user ->
    exists row db',
      logProjectActivity ctx userId config db = (Normal tt, db') /\
      db_projectActivities db' = db_projectActivities db ++ [row] /\
      db_journal db'
      = db_journal db ++ [W_insert (mkId T_projectActivities (db_next db))] /\
      obj_get "_id" row = JId (mkId T_projectActivities (db_next db)) /\
      obj_get "action" row = JStr (action_name (action config)) /\
      obj_get "performedBy" row = JId userId /\
      obj_get "timestamp" row = JNum (ctx_now ctx) /\
      obj_get "performedByName" row
      = js_or (obj_get "name" user) (JStr "Unknown") /\
      obj_get "performedByEmail" row
      = js_or (obj_get "email" user) (JStr "") /\
      obj_get "performedByRole" row
      = js_or (obj_get "role" user) (JStr "user") /\
      (obj_get "changedFields" row <> JUndefined ->
       action config = A_updated /\ fst (project_diff config) <> []).
Proof.
  intros ctx userId config db user Fg Fi Fu.
  unfold logProjectActivity, try_catch, logProjectActivity_body, db_get,
    db_insert, guard_fault, bind, throw, ret.
  rewrite Fg, Fu, Fi.
  eexists. eexists. split; [reflexivity|]. split; [reflexivity|].
  split; [reflexivity|]. split; [reflexivity|].
  cbn [obj_get String.eqb Ascii.eqb Bool.eqb].
  rewrite !(obj_get_strip_NoDup _ _
              (project_activity_record_keys ctx userId user config)).
  unfold project_activity_record.
  destruct (project_diff config) as [changedFields changeSummary] eqn:Ediff.
  cbn [obj_get String.eqb Ascii.eqb Bool.eqb fst].
  repeat (split; [reflexivity|]).
  intro Hcf.
  destruct changedFields as [|c l]; [cbn in Hcf; congruence|].
  split; [|discriminate].
  unfold project_diff in Ediff.
  destruct (action config); try reflexivity; discriminate Ediff.
Qed.

Lemma logProjectActivity_records_one_entry_witness :
  exists row db',
    logProjectActivity demo_ctx demo_user budget_update_config demo_db
      = (Normal tt, db') /\
    db_projectActivities db' = db_projectActivities demo_db ++ [row] /\
    db_journal db'
    = db_journal demo_db
        ++ [W_insert (mkId T_projectActivities (db_next demo_db))] /\
    obj_get "_id" row = JId (mkId T_projectActivities (db_next demo_db)) /\
    obj_get "action" row = JStr (action_name (action budget_update_config)) /\
    obj_get "performedBy" row = JId demo_user /\
    obj_get "timestamp" row = JNum (ctx_now demo_ctx) /\
    obj_get "performedByName" row
    = js_or (obj_get "name" [("_id", JId demo_user); ("name", JStr "Ann")])
        (JStr "Unknown") /\
    obj_get "performedByEmail" row
    = js_or (obj_get "email" [("_id", JId demo_user); ("name", JStr "Ann")])
        (JStr "") /\
    obj_get "performedByRole" row
    = js_or (obj_get "role" [("_id", JId demo_user); ("name", JStr "Ann")])
        (JStr "user") /\
    (obj_get "changedFields" row <> JUndefined ->
     action budget_update_config = A_updated /\
     fst (project_diff budget_update_config) <> []).
Proof.
  apply (logProjectActivity_records_one_entry demo_ctx demo_user
           budget_update_config demo_db); reflexivity.
Defined.

(** X14.  The summary that [logProjectActivity] builds for an update has
    no key besides the five flags and the two budget values.  Each flag is
    [true] exactly when its field is among the changed fields; with
    [budgetChanged] come [oldBudget] and [newBudget], the values of
    [totalBudgetAllocated] in the two snapshots, whose JSON texts differ. *)
Theorem project_change_summary_flags :
  forall config prev new,
    action config = A_updated ->
    previousValues config = Some prev ->
    newValues config = Some new ->
    let changedFields := fst (project_diff config) in
    let summary := snd (project_diff config) in
    (forall k, In k (object_keys summary) ->
               In k ["budgetChanged"; "oldBudget"; "newBudget";
                     "scheduleChanged"; "managerChanged"; "statusChanged";
                     "categoryChanged"]) /\
    (obj_get "budgetChanged" summary = JBool true
     <-> In "totalBudgetAllocated" changedFields) /\
    (obj_get "scheduleChanged" summary = JBool true
     <-> In "targetDateCompletion" changedFields) /\
    (obj_get "managerChanged" summary = JBool true
     <-> In "projectManagerId" changedFields) /\
    (obj_get "categoryChanged" summary = JBool true
     <-> In "categoryId" changedFields) /\
    (In "totalBudgetAllocated" changedFields ->
     obj_get "oldBudget" summary = obj_get "totalBudgetAllocated" prev /\
     obj_get "newBudget" summary = obj_get "totalBudgetAllocated" new /\
     stringify (obj_get "totalBudgetAllocated" prev)
     <> stringify (obj_get "totalBudgetAllocated" new)) /\
    (~ In "totalBudgetAllocated" changedFields ->
     obj_get "oldBudget" summary = JUndefined /\
     obj_get "newBudget" summary = JUndefined).
Proof.
  intros config prev new Ha Hp Hn. unfold project_diff.
  rewrite Ha, Hp, Hn. cbn [fst snd].
  set (cf := diff_changed_fields projectSystemFields prev new).
  assert (Hbud : In "totalBudgetAllocated" cf ->
                 stringify (obj_get "totalBudgetAllocated" prev)
                 <> stringify (obj_get "totalBudgetAllocated" new)).
  { intro Hin.
    now apply (proj2 (diff_changed_fields_spec projectSystemFields prev new))
      in Hin. }
  rewrite <- !(includes_In cf) in *. unfold project_change_summary.
  destruct (includes cf "totalBudgetAllocated"),
    (includes cf "targetDateCompletion"),
    (includes cf "projectManagerId"),
    (includes cf "status"),
    (includes cf "categoryId"); cbn;
    (split; [intros k Hk; intuition (subst; auto 10)|]);
    repeat split; intros; try reflexivity; try discriminate; auto;
    try contradiction.
Qed.

Lemma project_change_summary_flags_witness :
  let changedFields := fst (project_diff budget_update_config) in
  let summary := snd (project_diff budget_update_config) in
  obj_get "budgetChanged" summary = JBool true
  <-> In "totalBudgetAllocated" changedFields.
Proof.
  exact (proj1 (proj2 (project_change_summary_flags budget_update_config
                         _ _ eq_refl eq_refl eq_refl))).
Defined.




(** ** Subtotals *)





Lemma value_eqb_JStr (v : JsValue) (s : string) :
  value_eqb v (JStr s) = strict_eqb v (JStr s).
Proof. destruct v; reflexivity. Qed.

















(** ** The recalculation service: what it leaves alone *)

(** X18.  A successful [recalculateProjectMetrics] changes one document:
    the parent's.  Of that document it sets the three counters,
    [updatedAt] to the time of the call and [updatedBy] to the caller, and
    leaves every other field as it was; every other project and every
    other table is unchanged, no document is added or removed, and the
    store has been written exactly once. *)
Theorem recalc_writes_only_parent_counters :
  forall ctx p userId db r db',
    id_table p = T_projects ->
    recalculateProjectMetrics ctx p userId db = (Normal r, db') ->
    exists before after,
      find_doc p (db_projects db) = Some before /\
      find_doc p (db_projects db') = Some after /\
      (forall k, ~ In k ["projectCompleted"; "projectDelayed";
                         "projectsOnTrack"; "updatedAt"; "updatedBy"] ->
                 obj_get k after = obj_get k before) /\
      obj_get "updatedAt" after = JNum (ctx_now ctx) /\
      obj_get "updatedBy" after = JId userId /\
      (forall q, q <> p ->
                 find_doc q (db_projects db') = find_doc q (db_projects db)) /\
      (forall t, t <> T_projects -> table_of t db' = table_of t db) /\
      map (obj_get "_id") (db_projects db')
      = map (obj_get "_id") (db_projects db) /\
      db_next db' = db_next db /\
      db_journal db' = db_journal db ++ [W_patch p].
Proof.
  intros ctx p userId db r db' Ht H.
  pose proof H as H0. apply recalc_success in H0.
  destruct H0 as (_ & _ & _ & rows & Hp & ->). rewrite Ht in *.
  cbn [table_of] in Hp.
  pose proof (recalc_fields_keep_id ctx userId (tally p db)) as Hk.
  destruct (patch_rows_find _ _ _ _ Hk Hp) as (before & Hb & Ha).
  exists before, (apply_patch (recalc_fields ctx userId (tally p db)) before).
  split; [exact Hb|]. split; [exact Ha|].
  split; [|split; [|split; [|split; [|split; [|split; [|split]]]]]].
  - intros k Hnin. rewrite obj_get_apply_patch.
    apply (last_assigned_none k (recalc_fields ctx userId (tally p db)))
      in Hnin.
    now rewrite Hnin.
  - now rewrite obj_get_apply_patch.
  - now rewrite obj_get_apply_patch.
  - intros q Hq. eapply patch_rows_find_other; eassumption.
  - intros t Hne. rewrite table_of_journal_add, table_of_with_table.
    destruct t; try reflexivity. congruence.
  - eapply patch_rows_ids; eassumption.
  - reflexivity.
  - cbn. reflexivity.
Qed.

Lemma recalc_writes_only_parent_counters_witness :
  let db' := snd (recalculateProjectMetrics demo_ctx demo_project demo_user
                    demo_db) in
  exists before after,
    find_doc demo_project (db_projects demo_db) = Some before /\
    find_doc demo_project (db_projects db') = Some after /\
    (forall k, ~ In k ["projectCompleted"; "projectDelayed";
                       "projectsOnTrack"; "updatedAt"; "updatedBy"] ->
               obj_get k after = obj_get k before) /\
    obj_get "updatedAt" after = JNum (ctx_now demo_ctx) /\
    obj_get "updatedBy" after = JId demo_user /\
    (forall q, q <> demo_project ->
               find_doc q (db_projects db') = find_doc q (db_projects demo_db)) /\
    (forall t, t <> T_projects -> table_of t db' = table_of t demo_db) /\
    map (obj_get "_id") (db_projects db')
    = map (obj_get "_id") (db_projects demo_db) /\
    db_next db' = db_next demo_db /\
    db_journal db' = db_journal demo_db ++ [W_patch demo_project].
Proof.
  apply (recalc_writes_only_parent_counters demo_ctx demo_project demo_user
           demo_db (mkRecalc 4 (mkCounts 1 0 1))).
  - reflexivity.
  - vm_compute. reflexivity.
Defined.

(** ** Reading back what a create stored *)

Lemma obj_set_keys (k : string) (v : JsValue) (o : Obj) :
  object_keys (obj_set k v o)
  = if existsb (String.eqb k) (object_keys o) then object_keys o
    else object_keys o ++ [k].
Proof.
  unfold object_keys.
  induction o as [|[k' v'] o IH]; cbn [obj_set map fst existsb app];
    [reflexivity|].
  destruct (String.eqb k k') eqn:E; cbn [map fst orb]; [reflexivity|].
  rewrite IH. destruct (existsb (String.eqb k) (map fst o)); reflexivity.
Qed.

Lemma obj_set_NoDup (k : string) (v : JsValue) (o : Obj) :
  NoDup (object_keys o) -> NoDup (object_keys (obj_set k v o)).
Proof.
  intro H. rewrite obj_set_keys.
  destruct (existsb (String.eqb k) (object_keys o)) eqn:E; [exact H|].
  apply NoDup_app; [exact H|repeat constructor; intros []|].
  intros a Ha [<-|[]].
  assert (Hex : existsb (String.eqb k) (object_keys o) = true).
  { apply existsb_exists. exists k. split; [exact Ha|apply String.eqb_refl]. }
  congruence.
Qed.

Lemma obj_spread_NoDup (a b : Obj) :
  NoDup (object_keys a) -> NoDup (object_keys (obj_spread a b)).
Proof.
  unfold obj_spread. revert a.
  induction b as [|[k v] b IH]; intros a H; cbn; [exact H|].
  apply IH. now apply obj_set_NoDup.
Qed.

Lemma obj_remove_NoDup (k : string) (o : Obj) :
  NoDup (object_keys o) -> NoDup (object_keys (obj_remove k o)).
Proof.
  unfold obj_remove, object_keys.
  induction o as [|[k' v] o IH]; cbn; intro H; [constructor|].
  inversion H as [|? ? Hnin Hnd]; subst.
  destruct (negb (String.eqb k k')); cbn; [|now apply IH].
  constructor; [|now apply IH].
  intro Hin. apply Hnin. apply in_map_iff in Hin.
  destruct Hin as (kv & E & Hin). apply filter_In in Hin.
  apply in_map_iff. exists kv. tauto.
Qed.

Lemma created_row_field ctx userId r (args : Obj) (k : string) :
  validates (v_object createProjectBreakdown_args) (JObj args) = true ->
  In k (object_keys args) -> k <> "reason" ->
  obj_get k (created_row ctx userId r (obj_remove "reason" args))
  = obj_get k args.
Proof.
  intros Hval Hk Hreason.
  assert (Hnd : NoDup (object_keys args)) by (eapply valid_object_keys; eassumption).
  assert (Hlookup : lookup_validator k createProjectBreakdown_args <> None).
  { unfold object_keys in Hk. apply in_map_iff in Hk.
    destruct Hk as ([k' v] & E & Hin). cbn in E. subst k'.
    destruct (validates_entry _ _ _ _ Hval Hin) as (w & Hl & _). congruence. }
  assert (Hsys : ~ In k ["_id"; "_creationTime"; "createdBy"; "createdAt";
                         "updatedAt"; "updatedBy"]).
  { intro Hin. apply Hlookup. cbn in Hin.
    repeat (destruct Hin as [<-|Hin]; [reflexivity|]). contradiction. }
  unfold created_row. cbn [obj_get].
  destruct (String.eqb k "_id") eqn:E1;
    [apply String.eqb_eq in E1; subst; exfalso; apply Hsys; cbn; auto|].
  destruct (String.eqb k "_creationTime") eqn:E2;
    [apply String.eqb_eq in E2; subst; exfalso; apply Hsys; cbn; auto|].
  rewrite obj_get_strip_NoDup
    by (apply obj_spread_NoDup, obj_remove_NoDup, Hnd).
  rewrite obj_get_spread.
  replace (last_assigned k _) with (@None JsValue).
  2:{ symmetry. apply last_assigned_none. cbn. intro Hin. apply Hsys. cbn.
      intuition. }
  rewrite obj_get_remove.
  destruct (String.eqb k "reason") eqn:E3; [|reflexivity].
  apply String.eqb_eq in E3. contradiction.
Qed.

(** X19.  A breakdown can be read back after it is created: when the
    store's next id is free, after a successful [createProjectBreakdown]
    the query [getProjectBreakdown] for the returned id returns the new
    row, whose fields are the values given in the arguments; [reason] is
    not stored, and the row is stamped with the caller as [createdBy] and
    the time of the call as [createdAt]. *)
Theorem create_then_get_returns_arguments :
  forall ctx args db r db',
    next_id_free db ->
    createProjectBreakdown ctx args db = (Normal r, db') ->
    exists row userId,
      getProjectBreakdown ctx [("breakdownId", JId r)] db'
      = (Normal (Some row), db') /\
      ctx_auth ctx = Some userId /\
      obj_get "_id" row = JId r /\
      (forall k, In k (object_keys args) -> k <> "reason" ->
                 obj_get k row = obj_get k args) /\
      obj_get "reason" row = JUndefined /\
      obj_get "createdBy" row = JId userId /\
      obj_get "createdAt" row = JNum (ctx_now ctx).
Proof.
  intros ctx args db r db' Hfree H.
  pose proof H as H0. apply mutation_Normal in H0. destruct H0 as [Hval H0].
  assert (Hget : ctx_fault ctx (Op_get T_govtProjectBreakdowns) = false).
  { unfold createProjectBreakdown_handler in H0.
    apply bind_Normal in H0. destruct H0 as (u & db1 & _ & H0).
    apply bind_Normal in H0. destruct H0 as (x & db2 & _ & H0).
    apply bind_Normal in H0. destruct H0 as (bid & db3 & Hi & H0).
    apply db_insert_Normal in Hi. destruct Hi as [-> _].
    apply bind_Normal in H0. destruct H0 as (c & db4 & Hg & _).
    unfold db_get, guard_fault, bind, throw, ret in Hg. cbn [id_table] in Hg.
    destruct (ctx_fault ctx (Op_get T_govtProjectBreakdowns));
      [discriminate|reflexivity]. }
  destruct (createProjectBreakdown_steps _ _ _ _ _ H)
    as (userId & dbl & Hauth & Hr & Hrows & _ & Hrec).
  set (row := created_row ctx userId r (obj_remove "reason" args)) in *.
  assert (Hdb' : db_govtProjectBreakdowns db'
                 = db_govtProjectBreakdowns db ++ [row]).
  { destruct (as_id (obj_get "projectId" args)) as [p|].
    - destruct Hrec as (Ht & rr & Hrec).
      now rewrite (recalc_breakdowns _ _ _ _ _ _ Ht Hrec).
    - now subst db'. }
  assert (Hnd : NoDup (object_keys args))
    by (eapply valid_object_keys; eassumption).
  exists row, userId. split.
  { unfold getProjectBreakdown, query.
    replace (validates (v_object getProjectBreakdown_args)
               (JObj [("breakdownId", JId r)])) with true
      by (rewrite Hr; reflexivity).
    unfold getProjectBreakdown_handler.
    rewrite (bind_of_Normal _ _ _ _ _ (require_user_signed_in ctx userId db' Hauth)).
    cbn [obj_get String.eqb Ascii.eqb Bool.eqb as_id].
    rewrite db_get_runs by (rewrite Hr; exact Hget).
    rewrite Hr at 2. cbn [id_table table_of]. rewrite Hdb'.
    unfold find_doc. rewrite find_app_last; [reflexivity| |].
    - rewrite Hr. exact Hfree.
    - apply has_id_iff. reflexivity. }
  split; [exact Hauth|]. split; [reflexivity|].
  split; [intros k Hk Hne; now apply created_row_field|].
  assert (Hsp : NoDup (object_keys
                         (obj_spread (obj_remove "reason" args)
                            [("createdBy", JId userId);
                             ("createdAt", JNum (ctx_now ctx));
                             ("updatedAt", JNum (ctx_now ctx));
                             ("updatedBy", JId userId)])))
    by (apply obj_spread_NoDup, obj_remove_NoDup, Hnd).
  unfold row, created_row. cbn [obj_get String.eqb Ascii.eqb Bool.eqb].
  rewrite !(obj_get_strip_NoDup _ _ Hsp), !obj_get_spread.
  cbn [last_assigned String.eqb Ascii.eqb Bool.eqb].
  rewrite obj_get_remove. cbn. auto.
Qed.

Lemma create_then_get_returns_arguments_witness :
  let r := mkId T_govtProjectBreakdowns 2 in
  let db' := snd (createProjectBreakdown demo_ctx create_linked_args
                    childless_db) in
  exists row userId,
    getProjectBreakdown demo_ctx [("breakdownId", JId r)] db'
    = (Normal (Some row), db') /\
    ctx_auth demo_ctx = Some userId /\
    obj_get "_id" row = JId r /\
    (forall k, In k (object_keys create_linked_args) -> k <> "reason" ->
               obj_get k row = obj_get k create_linked_args) /\
    obj_get "reason" row = JUndefined /\
    obj_get "createdBy" row = JId userId /\
    obj_get "createdAt" row = JNum (ctx_now demo_ctx).
Proof.
  apply (create_then_get_returns_arguments demo_ctx create_linked_args
           childless_db).
  - reflexivity.
  - vm_compute. reflexivity.
Defined.

(** ** The list query *)

Lemma valid_optional_string args_validator (args : Obj) (k : string) :
  lookup_validator k args_validator = Some (v_optional v_string) ->
  validates (v_object args_validator) (JObj args) = true ->
  obj_get k args = JUndefined \/ exists s, obj_get k args = JStr s.
Proof.
  intros Hl Hval.
  destruct (obj_get k args) eqn:E; auto; right;
    (assert (Hin : In (k, obj_get k args) args)
       by (apply obj_get_In; rewrite E; discriminate));
    rewrite E in Hin;
    destruct (validates_entry _ _ _ _ Hval Hin) as (v & Hl' & Hv);
    rewrite Hl in Hl'; inversion Hl'; subst v; cbn in Hv;
    try discriminate.
  eauto.
Qed.

Lemma filter_throwing_total {A} (p : A -> option bool) (q : A -> bool)
    (xs : list A) :
  (forall x, In x xs -> p x = Some (q x)) ->
  filter_throwing p xs = Some (filter q xs).
Proof.
  induction xs as [|x xs IH]; intro H; cbn; [reflexivity|].
  rewrite (H x (or_introl eq_refl)), IH by (intros y Hy; apply H; now right).
  reflexivity.
Qed.

Lemma value_eqb_JId (v : JsValue) (i : Id) :
  value_eqb v (JId i) = strict_eqb v (JId i).
Proof. destruct v; reflexivity. Qed.

Section ListQuery.

Variable toLowerCase : string -> string.

Lemma filter_by_text_names (field : string) (arg : JsValue) (rows : list Obj)
    db :
  (arg = JUndefined \/ exists s, arg = JStr s) ->
  Forall (fun b => exists s, obj_get field b = JStr s) rows ->
  filter_by_text (text_matches toLowerCase) field arg rows db
  = (Normal (filter (passes_text toLowerCase field arg) rows), db).
Proof.
  intros Harg Hrows. unfold filter_by_text, passes_text.
  destruct Harg as [->|[needle ->]]; cbn [truthy].
  - unfold ret. now rewrite filter_true.
  - destruct (negb (String.eqb needle "")); [|unfold ret; now rewrite filter_true].
    rewrite (filter_throwing_total _
               (fun b => match obj_get field b with
                         | JStr s => string_includes (toLowerCase s)
                                       (toLowerCase needle)
                         | _ => false
                         end)).
    + reflexivity.
    + rewrite Forall_forall in Hrows. intros b Hb.
      destruct (Hrows b Hb) as (s & ->). reflexivity.
Qed.

Lemma filter_by_text_optional (field : string) (arg : JsValue)
    (rows : list Obj) db :
  (arg = JUndefined \/ exists s, arg = JStr s) ->
  Forall (fun b => obj_get field b = JUndefined \/
                   exists s, obj_get field b = JStr s) rows ->
  filter_by_text (optional_text_matches toLowerCase) field arg rows db
  = (Normal (filter (passes_text toLowerCase field arg) rows), db).
Proof.
  intros Harg Hrows. unfold filter_by_text, passes_text.
  destruct Harg as [->|[needle ->]]; cbn [truthy].
  - unfold ret. now rewrite filter_true.
  - destruct (negb (String.eqb needle "")); [|unfold ret; now rewrite filter_true].
    rewrite (filter_throwing_total _
               (fun b => match obj_get field b with
                         | JStr s => string_includes (toLowerCase s)
                                       (toLowerCase needle)
                         | _ => false
                         end)).
    + reflexivity.
    + rewrite Forall_forall in Hrows. intros b Hb.
      destruct (Hrows b Hb) as [->|(s & ->)]; reflexivity.
Qed.

Lemma filter_by_value_filter (field : string) (arg : JsValue)
    (rows : list Obj) :
  filter_by_value field arg rows = filter (passes_value field arg) rows.
Proof.
  unfold filter_by_value, passes_value.
  destruct (truthy arg); cbn [negb orb]; [reflexivity|].
  now rewrite filter_true.
Qed.

Lemma Forall_filter_keeps {A} (P : A -> Prop) (f : A -> bool) (l : list A) :
  Forall P l -> Forall P (filter f l).
Proof.
  rewrite !Forall_forall. intros H x Hx. apply filter_In in Hx. now apply H.
Qed.

Lemma getProjectBreakdowns_handler_unfold ctx userId (args : Obj) db :
  ctx_fault ctx (Op_query T_govtProjectBreakdowns) = false ->
  ctx_auth ctx = Some userId ->
  validates (v_object getProjectBreakdowns_args) (JObj args) = true ->
  text_columns_typed db ->
  getProjectBreakdowns_handler toLowerCase ctx args db
  = (Normal
       (let matching := filter (passes_filters toLowerCase args)
                          (db_govtProjectBreakdowns db) in
        match obj_get "limit" args with
        | JNum limit =>
            if truthy (JNum limit) then slice_to matching limit else matching
        | _ => matching
        end), db).
Proof.
  intros Hf Hauth Hval Hty. unfold getProjectBreakdowns_handler.
  rewrite (bind_of_Normal _ _ _ _ _ (require_user_signed_in ctx userId db Hauth)).
  rewrite (bind_of_Normal _ _ _ _ _
             (db_query_all ctx T_govtProjectBreakdowns db Hf)).
  cbn [table_of]. unfold text_columns_typed in Hty.
  assert (Hn : Forall (fun b => exists s, obj_get "projectName" b = JStr s)
                      (db_govtProjectBreakdowns db))
    by (eapply Forall_impl; [|exact Hty]; cbn; tauto).
  assert (Ho : Forall (fun b => exists s, obj_get "implementingOffice" b = JStr s)
                      (db_govtProjectBreakdowns db))
    by (eapply Forall_impl; [|exact Hty]; cbn; tauto).
  assert (Hm : Forall (fun b => obj_get "municipality" b = JUndefined \/
                                exists s, obj_get "municipality" b = JStr s)
                      (db_govtProjectBreakdowns db))
    by (eapply Forall_impl; [|exact Hty]; cbn; tauto).
  pose proof (valid_optional_string getProjectBreakdowns_args args
                "projectName" eq_refl Hval) as Hargn.
  pose proof (valid_optional_string getProjectBreakdowns_args args
                "implementingOffice" eq_refl Hval) as Hargo.
  pose proof (valid_optional_string getProjectBreakdowns_args args
                "municipality" eq_refl Hval) as Hargm.
  rewrite filter_by_value_filter.
  rewrite (bind_of_Normal _ _ _ _ _
             (filter_by_text_names "projectName" _ _ db
                Hargn
                (Forall_filter_keeps _ _ _ Hn))).
  rewrite (bind_of_Normal _ _ _ _ _
             (filter_by_text_names "implementingOffice" _ _ db
                Hargo
                (Forall_filter_keeps _ _ _
                   (Forall_filter_keeps _ _ _ Ho)))).
  rewrite (bind_of_Normal _ _ _ _ _
             (filter_by_text_optional "municipality" _ _ db
                Hargm
                (Forall_filter_keeps _ _ _
                   (Forall_filter_keeps _ _ _
                      (Forall_filter_keeps _ _ _ Hm))))).
  rewrite filter_by_value_filter, !filter_filter.
  unfold ret. cbv zeta. unfold passes_filters. reflexivity.
Qed.

End ListQuery.

Lemma In_firstn {A} (n : nat) (xs : list A) (x : A) :
  In x (firstn n xs) -> In x xs.
Proof.
  intro H. rewrite <- (firstn_skipn n xs). apply in_or_app. now left.
Qed.

Lemma In_slice_to {A} (xs : list A) (limit : Q) (x : A) :
  In x (slice_to xs limit) -> In x xs.
Proof.
  unfold slice_to. destruct (Z.ltb (to_integer limit) 0); apply In_firstn.
Qed.

Lemma slice_to_positive {A} (xs : list A) (n : nat) :
  slice_to xs (Q_of_nat n) = firstn n xs.
Proof.
  unfold slice_to, to_integer, Q_of_nat. cbn [inject_Z Qnum Qden].
  rewrite Z.quot_1_r.
  destruct (Z.ltb (Z.of_nat n) 0) eqn:E; [apply Z.ltb_lt in E; lia|].
  now rewrite Nat2Z.id.
Qed.

(** X20.  The list query [getProjectBreakdowns], for a signed-in caller
    and breakdowns whose text columns are as the table defines them,
    returns breakdowns of the table that pass every filter given, in table
    order, and no other row.  Without a limit, or with the limit 0, it
    returns all of them; with a positive whole limit [n] the first [n] of
    them.  Asked for a parent alone, it returns exactly the breakdowns
    that [recalculateProjectMetrics] counts for that parent. *)
Theorem getProjectBreakdowns_returns_matching_rows :
  forall toLowerCase ctx userId args db,
    ctx_fault ctx (Op_query T_govtProjectBreakdowns) = false ->
    ctx_auth ctx = Some userId ->
    validates (v_object getProjectBreakdowns_args) (JObj args) = true ->
    text_columns_typed db ->
    let matching := filter (passes_filters toLowerCase args)
                      (db_govtProjectBreakdowns db) in
    exists rows,
      getProjectBreakdowns toLowerCase ctx args db = (Normal rows, db) /\
      (forall b, In b rows ->
                 In b (db_govtProjectBreakdowns db) /\
                 passes_filters toLowerCase args b = true) /\
      (obj_get "limit" args = JUndefined \/
       (exists l, obj_get "limit" args = JNum l /\ (l == 0)%Q) ->
       rows = matching) /\
      (forall n, obj_get "limit" args = JNum (Q_of_nat (S n)) ->
                 rows = firstn (S n) matching) /\
      (forall p,
          obj_get "projectId" args = JId p ->
          (forall k, k <> "projectId" -> obj_get k args = JUndefined) ->
          rows = children p db).
Proof.
  intros toLowerCase ctx userId args db Hf Hauth Hval Hty matching.
  pose proof (getProjectBreakdowns_handler_unfold toLowerCase ctx userId args
                db Hf Hauth Hval Hty) as Hh.
  cbv zeta in Hh. fold matching in Hh.
  eexists. split.
  { unfold getProjectBreakdowns, query. rewrite Hval. exact Hh. }
  assert (Hzero : forall l, (l == 0)%Q -> truthy (JNum l) = false).
  { intros l Hl. cbn. apply Qeq_bool_iff in Hl. now rewrite Hl. }
  assert (Hnone : obj_get "limit" args = JUndefined \/
                  (exists l, obj_get "limit" args = JNum l /\ (l == 0)%Q) ->
                  match obj_get "limit" args with
                  | JNum limit =>
                      if truthy (JNum limit) then slice_to matching limit
                      else matching
                  | _ => matching
                  end = matching).
  { intros [->|(l & -> & Hl)]; [reflexivity|]. now rewrite (Hzero l Hl). }
  split; [|split; [exact Hnone|split]].
  - intros b Hb.
    assert (Hin : In b matching).
    { destruct (obj_get "limit" args); try exact Hb.
      destruct (truthy (JNum q)); [|exact Hb].
      eapply In_slice_to; exact Hb. }
    unfold matching in Hin. now apply filter_In in Hin.
  - intros n ->.
    replace (truthy (JNum (Q_of_nat (S n)))) with true by reflexivity.
    apply slice_to_positive.
  - intros p Hp Hrest. rewrite Hnone.
    2:{ left. apply Hrest. discriminate. }
    unfold matching, children. apply filter_ext. intro b.
    unfold passes_filters, passes_value, passes_text.
    rewrite Hp, !Hrest by discriminate. cbn [truthy negb orb andb].
    unfold child_of. rewrite value_eqb_JId. now rewrite !andb_true_r.
Qed.

Lemma getProjectBreakdowns_returns_matching_rows_witness :
  let matching := filter (passes_filters ascii_lower children_query)
                    (db_govtProjectBreakdowns five_children_db) in
  exists rows,
    getProjectBreakdowns ascii_lower demo_ctx children_query five_children_db
    = (Normal rows, five_children_db) /\
    (forall b, In b rows ->
               In b (db_govtProjectBreakdowns five_children_db) /\
               passes_filters ascii_lower children_query b = true) /\
    (obj_get "limit" children_query = JUndefined \/
     (exists l, obj_get "limit" children_query = JNum l /\ (l == 0)%Q) ->
     rows = matching) /\
    (forall n, obj_get "limit" children_query = JNum (Q_of_nat (S n)) ->
               rows = firstn (S n) matching) /\
    (forall p,
        obj_get "projectId" children_query = JId p ->
        (forall k, k <> "projectId" -> obj_get k children_query = JUndefined) ->
        rows = children p five_children_db).
Proof.
  apply (getProjectBreakdowns_returns_matching_rows ascii_lower demo_ctx
           demo_user children_query five_children_db).
  - reflexivity.
  - reflexivity.
  - reflexivity.
  - repeat constructor; cbn; eauto.
Defined.

(** ** The diff on text and truth values *)

Lemma json_unescape_escape (c : ascii) (s : string) :
  json_unescape_head (json_escape_char c +++ s) = Some (c, s).
Proof.
  destruct c as [[] [] [] [] [] [] [] []]; reflexivity.
Qed.

Lemma json_escape_inj (s t : string) :
  json_escape s = json_escape t -> s = t.
Proof.
  revert t. induction s as [|c s IH]; intros [|d t] H; cbn in H.
  - reflexivity.
  - apply (f_equal json_unescape_head) in H.
    rewrite json_unescape_escape in H. discriminate.
  - apply (f_equal json_unescape_head) in H.
    rewrite json_unescape_escape in H. discriminate.
  - apply (f_equal json_unescape_head) in H.
    rewrite !json_unescape_escape in H. inversion H; subst.
    f_equal. now apply IH.
Qed.

Lemma string_length_app (s t : string) :
  String.length (s +++ t) = String.length s + String.length t.
Proof. induction s as [|c s IH]; cbn; [reflexivity|now rewrite IH]. Qed.

Lemma append_inj_r (s t u : string) : s +++ u = t +++ u -> s = t.
Proof.
  intro H.
  assert (Hlen : String.length s = String.length t).
  { apply (f_equal String.length) in H. rewrite !string_length_app in H.
    lia. }
  revert t H Hlen. induction s as [|c s IH]; intros [|d t] H Hlen;
    cbn in *; try discriminate; [reflexivity|].
  inversion H; subst. f_equal. apply IH; [assumption|lia].
Qed.

Lemma stringify_string_inj (a b : string) :
  stringify (JStr a) = stringify (JStr b) <-> a = b.
Proof.
  split; [|now intros ->]. cbn. unfold json_quote, dquote. cbn.
  intro H. inversion H as [H1]. apply json_escape_inj.
  eapply append_inj_r. exact H1.
Qed.

(** X21.  The diff of the loggers neither misses nor invents a change of
    a text or a truth value.  For a field that no logger skips and that
    holds a string in both snapshots, the field is listed among the
    changed fields exactly when the two strings differ, whatever
    characters they contain; likewise for two booleans.  A field that
    holds a string or a boolean in one snapshot and is absent from the
    other is always listed.  So [logProjectActivity] sets [statusChanged]
    exactly when the status strings of the two snapshots differ. *)
Theorem diff_exact_on_strings_and_booleans :
  forall skip prev new key,
    ~ In key skip ->
    (forall a b,
        obj_get key prev = JStr a -> obj_get key new = JStr b ->
        (In key (diff_changed_fields skip prev new) <-> a <> b)) /\
    (forall a b,
        obj_get key prev = JBool a -> obj_get key new = JBool b ->
        (In key (diff_changed_fields skip prev new) <-> a <> b)) /\
    (forall v,
        (exists s, v = JStr s) \/ (exists b, v = JBool b) ->
        (obj_get key prev = v /\ obj_get key new = JUndefined) \/
        (obj_get key prev = JUndefined /\ obj_get key new = v) ->
        In key (diff_changed_fields skip prev new)) /\
    (forall config a b,
        key = "status" -> skip = projectSystemFields ->
        action config = A_updated ->
        previousValues config = Some prev ->
        newValues config = Some new ->
        obj_get "status" prev = JStr a -> obj_get "status" new = JStr b ->
        (obj_get "statusChanged" (snd (project_diff config)) = JBool true
         <-> a <> b)).
Proof.
  intros skip prev new key Hskip.
  pose proof (proj2 (diff_changed_fields_spec skip prev new) key) as Hspec.
  assert (Hstr : forall a b,
             obj_get key prev = JStr a -> obj_get key new = JStr b ->
             (In key (diff_changed_fields skip prev new) <-> a <> b)).
  { intros a b Ea Eb. rewrite Hspec, Ea, Eb, stringify_string_inj. split.
    - tauto.
    - intro Hne. split; [|tauto]. left. apply obj_get_key. rewrite Ea.
      discriminate. }
  split; [exact Hstr|]. split; [|split].
  - intros a b Ea Eb. rewrite Hspec, Ea, Eb. split.
    + intros (_ & _ & Hne) E. subst b. now apply Hne.
    + intro Hne. split; [|split; [exact Hskip|]].
      * left. apply obj_get_key. rewrite Ea. discriminate.
      * destruct a, b; cbn; congruence.
  - intros v Hv Hcase. apply Hspec.
    assert (Hdef : v <> JUndefined /\ stringify v <> None).
    { destruct Hv as [(s & ->)|(b & ->)]; [split; discriminate|].
      destruct b; split; discriminate. }
    destruct Hdef as [Hdef Hs].
    destruct Hcase as [[Ep En]|[Ep En]]; rewrite Ep, En; cbn [stringify];
      (split; [|split; [exact Hskip|congruence]]).
    + left. apply obj_get_key. now rewrite Ep.
    + right. apply obj_get_key. now rewrite En.
  - intros config a b -> -> Ha Hp Hn Ea Eb. unfold project_diff.
    rewrite Ha, Hp, Hn. cbn [snd]. rewrite statusChanged_iff.
    now apply Hstr.
Qed.

Lemma diff_exact_on_strings_and_booleans_witness :
  obj_get "statusChanged" (snd (project_diff status_change_config))
  = JBool true
  <-> "ongoing" <> "completed".
Proof.
  refine (proj2 (proj2 (proj2
            (diff_exact_on_strings_and_booleans projectSystemFields
               [("_id", JId demo_project); ("status", JStr "ongoing")]
               [("_id", JId demo_project); ("status", JStr "completed")]
               "status" _)))
            status_change_config "ongoing" "completed" eq_refl eq_refl
            eq_refl eq_refl eq_refl eq_refl eq_refl).
  cbn. intuition discriminate.
Defined.

(** ** Manual recalculation of one parent *)



(** ** The query for aggregations *)

(** X23.  [getAllAggregations] returns, in table order, exactly the
    aggregations whose entity type and aggregation type are the ones
    asked for; an argument that is left out or is the empty string does
    not filter.  The result is the same whether the rows come from the
    index on the entity type or from the whole table. *)
Theorem getAllAggregations_returns_matching :
  forall ctx args db,
    ctx_fault ctx (Op_query T_aggregations) = false ->
    validates (v_object getAllAggregations_args) (JObj args) = true ->
    getAllAggregations ctx args db
    = (Normal
         (filter (fun a => passes_value "entityType"
                             (obj_get "entityType" args) a
                           && passes_value "aggregationType"
                                (obj_get "aggregationType" args) a)
                 (db_aggregations db)), db).
Proof.
  intros ctx args db Hf Hval. unfold getAllAggregations, query.
  rewrite Hval. unfold getAllAggregations_handler.
  assert (Hby : forall l,
             (if truthy (obj_get "aggregationType" args)
              then filter (fun a => strict_eqb (obj_get "aggregationType" a)
                                      (obj_get "aggregationType" args)) l
              else l)
             = filter (passes_value "aggregationType"
                         (obj_get "aggregationType" args)) l).
  { intro l. unfold passes_value.
    destruct (truthy (obj_get "aggregationType" args)); cbn [negb orb];
      [reflexivity|now rewrite filter_true]. }
  destruct (valid_optional_string getAllAggregations_args args "entityType"
              eq_refl Hval) as [E|[s E]]; rewrite E; cbn [truthy negb].
  - rewrite (bind_of_Normal _ _ _ _ _ (db_query_all ctx T_aggregations db Hf)).
    unfold ret. rewrite Hby. cbn [table_of].
    do 2 f_equal; try (apply filter_ext; intro a; reflexivity).
  - destruct (negb (String.eqb s "")) eqn:Es; cbn [negb].
    + unfold db_query, guard_fault. rewrite Hf.
      unfold bind, ret. cbn [table_of forallb fst snd].
      rewrite filter_true, Hby, filter_filter.
      f_equal. f_equal. apply filter_ext. intro a.
      unfold passes_value. cbn [truthy]. rewrite Es. cbn [negb orb].
      now rewrite value_eqb_JStr, andb_true_r.
    + rewrite (bind_of_Normal _ _ _ _ _ (db_query_all ctx T_aggregations db Hf)).
      unfold ret. rewrite Hby. cbn [table_of].
      f_equal. f_equal. apply filter_ext. intro a.
      unfold passes_value. cbn [truthy]. rewrite Es. reflexivity.
Qed.

Lemma getAllAggregations_returns_matching_witness :
  getAllAggregations demo_ctx [("entityType", JStr "")] demo_db
  = (Normal
       (filter (fun a => passes_value "entityType"
                           (obj_get "entityType" [("entityType", JStr "")]) a
                         && passes_value "aggregationType"
                              (obj_get "aggregationType"
                                 [("entityType", JStr "")]) a)
               (db_aggregations demo_db)), demo_db).
Proof.
  apply (getAllAggregations_returns_matching demo_ctx
           [("entityType", JStr "")] demo_db); reflexivity.
Defined.
